(** * anticaptcha: the create / poll / decode cycle of the AntiCaptcha client

    A shallow embedding of [anticaptcha.go].  Go values that travel through
    [interface{}] are a tagged union, maps are finite maps, and every
    function of the package is a computation over an explicit [World]: the
    virtual clock, the requests handed to the HTTP client together with
    what came back, the sleeps, the logger output and the heap cells that
    hold [HCaptchaProxyless] objects.  A failed unchecked type assertion is
    a run-time panic, kept apart from returned errors. *)

From Stdlib Require Import ZArith String Ascii List Lia.
From Stdlib Require Import Floats.PrimFloat Floats.FloatOps Floats.SpecFloat.
From stdpp Require Import base option list gmap strings pretty.

Local Open Scope string_scope.
Local Open Scope list_scope.
Local Open Scope Z_scope.

(** ** Go values *)

(** What an [interface{}] holds in this package: the values produced by
    [encoding/json] when it decodes into [interface{}] (nil, bool, float64,
    string, slice, map) and the [int] that callers put in request bodies. *)
#[warnings="-register-all"]
Inductive Value :=
| VNil
| VBool (b : bool)
| VInt (n : Z)
| VFloat64 (f : float)
| VString (s : string)
| VSlice (l : list Value)
| VMap (m : gmap string Value).

(** [m[k]] on a [map[string]interface{}]: the zero value (nil) when the key
    is absent; a nil map behaves as the empty one. *)
Definition index (m : gmap string Value) (k : string) : Value :=
  default VNil (m !! k).

(** [v, ok := m[k]] *)
Definition index_ok (m : gmap string Value) (k : string) : Value * bool :=
  match m !! k with
  | Some v => (v, true)
  | None => (VNil, false)
  end.

(** The comma-ok type assertions [v.(T)] used by the package. *)
Definition float64_ok (v : Value) : option float :=
  match v with VFloat64 f => Some f | _ => None end.

Definition string_ok (v : Value) : option string :=
  match v with VString s => Some s | _ => None end.

Definition map_ok (v : Value) : option (gmap string Value) :=
  match v with VMap m => Some m | _ => None end.

(** ** Errors *)

(** The errors the package builds and the ones it is handed.  The error of
    an expired [Client.Timeout] is an error of its own, not the deadline
    sentinel of the context package. *)
Inductive error :=
| errors_New (text : string)
| fmt_Errorf (format : string) (err : error)   (* format ends in the verb %w *)
| fmt_Errorf_d (format : string) (n : Z)       (* format ends in the verb %d *)
| context_DeadlineExceeded
| http_ClientTimeout                           (* Client.Timeout exceeded *)
| url_Error (op url : string) (err : error)    (* what HTTPClient.Do returns *)
| library_error (text : string).               (* raised inside net/url, encoding/json, net/http *)

Definition quote : string := String (ascii_of_nat 34) EmptyString.

(** The format without its trailing two-character verb. *)
Definition before_verb (format : string) : string :=
  substring 0 (String.length format - 2) format.

(** The [Error()] method. *)
Fixpoint Error (e : error) : string :=
  match e with
  | errors_New text => text
  | fmt_Errorf format err => before_verb format +:+ Error err
  | fmt_Errorf_d format n => before_verb format +:+ pretty n
  | context_DeadlineExceeded => "context deadline exceeded"
  | http_ClientTimeout => "context deadline exceeded (Client.Timeout exceeded while awaiting headers)"
  | url_Error op url err => op +:+ " " +:+ quote +:+ url +:+ quote +:+ ": " +:+ Error err
  | library_error text => text
  end.

(** The error at the end of the [errors.Unwrap] chain. *)
Fixpoint root_cause (e : error) : error :=
  match e with
  | fmt_Errorf _ err => root_cause err
  | url_Error _ _ err => root_cause err
  | _ => e
  end.


(** ** Constants for the AntiCaptcha API *)

Definition Second : Z := 1000000000.   (* time.Duration counts nanoseconds *)

Definition apiBaseURL : string := "https://api.anti-captcha.com".
Definition checkInterval : Z := 2 * Second.
Definition defaultTimeout : Z := 60 * Second.

(** ** Client, contexts, requests and responses *)

(** [log.Logger]: what tells one logger from another here is its prefix. *)
Record log_Logger := { Prefix : string }.

Definition defaultLogger : log_Logger := {| Prefix := "AntiCaptcha: " |}.

(** [http.Client]: only its [Timeout] matters here; zero means none. *)
Record http_Client := { Timeout : Z }.

(** The client holds its HTTP client and its logger by value: the clients
    of this model are those in which neither pointer is nil, as NewClient
    builds them. *)
Record Client := {
  APIKey : string;
  HTTPClient : http_Client;
  Logger : log_Logger;
}.

Definition NewClient (apiKey : string) (logger : option log_Logger) : Client :=
  let logger := match logger with None => defaultLogger | Some l => l end in
  {| APIKey := apiKey;
     HTTPClient := {| Timeout := defaultTimeout |};
     Logger := logger |}.

(** A [context.Context] built from [Background] by [WithTimeout]: its
    deadline, if any.  The package never cancels a context before it
    returns ([cancel] is deferred), so the deadline is all there is. *)
Record Context := { Deadline : option Z }.

Definition context_Background : Context := {| Deadline := None |}.

Record Request := {
  Method : string;
  URL : string;
  Header : gmap string string;
  ReqBody : string;
  Ctx : Context;
}.

(** An HTTP response as the package looks at it: the status code, what
    [json.NewDecoder(resp.Body).Decode] makes of the body when the target
    is a [map[string]interface{}] (a decoding error, or the map; JSON null
    leaves the map nil, that is empty), and what [resp.Body.Close]
    returns. *)
Record Response := {
  StatusCode : Z;
  Decoded : error + gmap string Value;
  CloseErr : option error;
}.

(** [resp.StatusCode < 200 || resp.StatusCode >= 300] *)
Definition non_2xx (resp : Response) : bool :=
  (StatusCode resp <? 200) || (300 <=? StatusCode resp).

(** ** The logger output *)

Inductive Arg :=
| AString (s : string)
| AError (e : error)
| AFloat (f : float)
| AInt (n : Z)
| AValue (v : Value).

(** One call of [Printf] or [Println], as it was made. *)
Inductive LogLine :=
| Printf (prefix format : string) (args : list Arg)
| Println (prefix text : string).

(** ** The HCaptcha task configuration *)

(** The task holds its client by value: the tasks of this model are those
    whose [Client] is not nil.  [EnterprisePayload] is a Go map, which is
    nil ([None]) or holds entries ([Some m], with [Some ∅] for the empty
    map of [make]). *)
Record HCaptchaProxyless := {
  Client_ : Client;
  WebsiteURL : string;
  WebsiteKey : string;
  IsInvisible : bool;
  IsEnterprise : bool;
  EnterprisePayload : option (gmap string Value);
  SoftID : Z;
  UserAgent : string;
  RespKey : string;
}.

(** ** The world *)

(** One invocation of [HTTPClient.Do] and what it returned. *)
Record Call := {
  call_req : Request;
  call_result : error + Response;
}.

Inductive Event :=
| Called (c : Call)     (* HTTPClient.Do was invoked *)
| Slept (d : Z).        (* time.Sleep(d) ran *)

Record World := {
  now : Z;                          (* the clock, in nanoseconds *)
  trace : list Event;               (* oldest first *)
  log : list LogLine;               (* oldest first *)
  heap : list HCaptchaProxyless;    (* a *HCaptchaProxyless is an index *)
}.

Definition called (e : Event) : option Call :=
  match e with Called c => Some c | Slept _ => None end.

Definition sleep_of (e : Event) : option Z :=
  match e with Slept d => Some d | Called _ => None end.

(** The invocations of [HTTPClient.Do] so far, and the sleeps so far. *)
Definition calls (w : World) : list Call := omap called (trace w).
Definition slept (w : World) : list Z := omap sleep_of (trace w).

Definition set_now (t : Z) (w : World) : World :=
  {| now := t; trace := trace w; log := log w; heap := heap w |}.
Definition add_event (e : Event) (w : World) : World :=
  {| now := now w; trace := trace w ++ [e]; log := log w; heap := heap w |}.
Definition add_log (l : LogLine) (w : World) : World :=
  {| now := now w; trace := trace w; log := log w ++ [l]; heap := heap w |}.
Definition set_heap (h : list HCaptchaProxyless) (w : World) : World :=
  {| now := now w; trace := trace w; log := log w; heap := h |}.

Definition initial : World :=
  {| now := 0; trace := []; log := []; heap := [] |}.

(** ** Computations *)

Inductive PanicValue :=
| TypeAssertionError (have : Value) (want : string)   (* interface conversion *)
| NilDereference.

Inductive Outcome (A : Type) :=
| Return (a : A)
| Panic (p : PanicValue)
| OutOfFuel.
Arguments Return {A} a.
Arguments Panic {A} p.
Arguments OutOfFuel {A}.

Definition M (A : Type) : Type := World -> Outcome A * World.

#[global] Instance M_ret : MRet M := fun A a w => (Return a, w).
#[global] Instance M_bind : MBind M := fun A B k m w =>
  match m w with
  | (Return a, w') => k a w'
  | (Panic p, w') => (Panic p, w')
  | (OutOfFuel, w') => (OutOfFuel, w')
  end.

Definition panic {A} (p : PanicValue) : M A := fun w => (Panic p, w).
Definition out_of_fuel {A} : M A := fun w => (OutOfFuel, w).

(** [defer d] around the rest of a function body: [d] runs when the body
    is left, also by a panic. *)
Definition defer {A} (d : M unit) (body : M A) : M A := fun w =>
  match body w with
  | (Return a, w') => (Return a, snd (d w'))
  | (Panic p, w') => (Panic p, snd (d w'))
  | (OutOfFuel, w') => (OutOfFuel, w')
  end.

(** The unchecked type assertions [v.(T)]: they panic on a mismatch. *)
Definition assert_float64 (v : Value) : M float :=
  match v with VFloat64 f => mret f | _ => panic (TypeAssertionError v "float64") end.

Definition assert_string (v : Value) : M string :=
  match v with VString s => mret s | _ => panic (TypeAssertionError v "string") end.

Definition Logger_Printf (c : Client) (format : string) (args : list Arg) : M unit :=
  fun w => (Return tt, add_log (Printf (Prefix (Logger c)) format args) w).

Definition Logger_Println (c : Client) (text : string) : M unit :=
  fun w => (Return tt, add_log (Println (Prefix (Logger c)) text) w).

(** [time.Sleep(d)]: the clock moves on by [d], or not at all when [d] is
    negative, whatever any context says. *)
Definition time_Sleep (d : Z) : M unit :=
  fun w => (Return tt, set_now (now w + Z.max 0 d) (add_event (Slept d) w)).

(** [context.WithTimeout(parent, timeout)] reads the clock. *)
Definition context_WithTimeout (parent : Context) (timeout : Z) : M Context :=
  fun w =>
    let d := now w + timeout in
    let d := match Deadline parent with Some p => Z.min p d | None => d end in
    (Return {| Deadline := Some d |}, w).

(** Heap cells. *)
Definition alloc (o : HCaptchaProxyless) : M nat :=
  fun w => (Return (length (heap w)), set_heap (heap w ++ [o]) w).

Definition load (h : nat) : M HCaptchaProxyless :=
  fun w => match heap w !! h with
           | Some o => (Return o, w)
           | None => (Panic NilDereference, w)
           end.

Definition store (h : nat) (f : HCaptchaProxyless -> HCaptchaProxyless) : M unit :=
  fun w => match heap w !! h with
           | Some o => (Return tt, set_heap (<[h := f o]> (heap w)) w)
           | None => (Panic NilDereference, w)
           end.

(** ** The environment: standard library and remote service *)

(** One answer of the remote service: how long it takes and what arrives,
    a network failure or a response. *)
Record Exchange := {
  latency : N;
  reply : error + Response;
}.

(** What the package does not fix: [url.Parse] followed by [String],
    [json.Marshal], and the answer of the remote service to the n-th
    invocation of [HTTPClient.Do]. *)
Record Env := {
  url_Parse : string -> error + string;
  json_Marshal : Value -> error + string;
  service : nat -> Request -> Exchange;
}.

Inductive Limit :=
| NoLimit
| ByContext (d : Z)
| ByClient (d : Z).

(** The instant at which an exchange started at [t] is abandoned: the
    context's deadline or the client's own timeout, whichever is first. *)
Definition limit (c : Client) (ctx : Context) (t : Z) : Limit :=
  let timeout := Timeout (HTTPClient c) in
  match Deadline ctx with
  | Some d => if (0 <? timeout) && (t + timeout <? d) then ByClient (t + timeout)
              else ByContext d
  | None => if 0 <? timeout then ByClient (t + timeout) else NoLimit
  end.

Section Package.

Context (E : Env).

(** [http.NewRequestWithContext] with a valid method and a non-nil context
    fails only when the URL does not parse. *)
Definition http_NewRequestWithContext (ctx : Context) (method url body : string)
  : error + Request :=
  match url_Parse E url with
  | inl err => inl err
  | inr u => inr {| Method := method; URL := u; Header := ∅; ReqBody := body; Ctx := ctx |}
  end.

Definition Header_Set (req : Request) (k v : string) : Request :=
  {| Method := Method req; URL := URL req; Header := <[k := v]> (Header req);
     ReqBody := ReqBody req; Ctx := Ctx req |}.

(** One exchange started at [t] as the n-th invocation: when it ends and
    what [Do] returns.  With an expired context nothing is sent; otherwise
    the answer arrives after its latency unless the limit comes first. *)
Definition round_trip (c : Client) (req : Request) (n : nat) (t : Z)
  : Z * (error + Response) :=
  let x := service E n req in
  let arrival := t + Z.of_N (latency x) in
  let '(t', res) :=
    match limit c (Ctx req) t with
    | NoLimit => (arrival, reply x)
    | ByContext d =>
        if d <=? t then (t, inl context_DeadlineExceeded)
        else if arrival <? d then (arrival, reply x)
        else (d, inl context_DeadlineExceeded)
    | ByClient d =>
        if arrival <? d then (arrival, reply x)
        else (d, inl http_ClientTimeout)
    end in
  (t', match res with
       | inl err => inl (url_Error "Post" (URL req) err)
       | inr resp => inr resp
       end).

(** [c.HTTPClient.Do(req)]; the invocation is recorded with its result. *)
Definition HTTPClient_Do (c : Client) (req : Request) : M (error + Response) := fun w =>
  let '(t', res) := round_trip c req (length (calls w)) (now w) in
  (Return res, set_now t' (add_event (Called {| call_req := req; call_result := res |}) w)).

(** makeRequest sends a request to the AntiCaptcha API and decodes the
    response.  The decoded map is returned next to the error; it is the
    nil map whenever decoding did not happen. *)
Definition makeRequest (c : Client) (ctx : Context) (endpoint : string) (body : Value)
  : M (gmap string Value * option error) :=
  match url_Parse E (apiBaseURL +:+ endpoint) with
  | inl err =>
      Logger_Printf c "Error parsing URL: %v\n" [AError err];;
      mret (∅, Some (fmt_Errorf "failed to parse URL: %w" err))
  | inr u =>
  match json_Marshal E body with
  | inl err =>
      Logger_Printf c "Error marshaling request body: %v\n" [AError err];;
      mret (∅, Some (fmt_Errorf "failed to marshal request body: %w" err))
  | inr b =>
  match http_NewRequestWithContext ctx "POST" u b with
  | inl err =>
      Logger_Printf c "Error creating HTTP request: %v\n" [AError err];;
      mret (∅, Some (fmt_Errorf "failed to create HTTP request: %w" err))
  | inr req =>
      let req := Header_Set req "Content-Type" "application/json" in
      Logger_Printf c "Sending request to %s with body: %v\n"
        [AString u; AInt (Z.of_nat (String.length b))];;
      r ← HTTPClient_Do c req;
      match r with
      | inl err =>
          Logger_Printf c "Request failed: %v\n" [AError err];;
          mret (∅, Some (fmt_Errorf "request failed: %w" err))
      | inr resp =>
          defer (match CloseErr resp with
                 | Some cerr => Logger_Printf c "Error closing response body: %v\n" [AError cerr]
                 | None => mret tt
                 end)
            (if non_2xx resp then
               Logger_Printf c "Received non-2xx status code: %d\n" [AInt (StatusCode resp)];;
               mret (∅, Some (fmt_Errorf_d "non-2xx status code: %d" (StatusCode resp)))
             else
               match Decoded resp with
               | inl err =>
                   Logger_Printf c "Error decoding response: %v\n" [AError err];;
                   mret (∅, Some (fmt_Errorf "failed to decode response: %w" err))
               | inr response =>
                   Logger_Printf c "Received response: %v\n" [AValue (VMap response)];;
                   mret (response, None)
               end)
      end
  end end end.

(** The request body of createTaskImage. *)
Definition createTaskImage_body (c : Client) (imgString : string) : Value :=
  VMap (<["clientKey" := VString (APIKey c)]>
       (<["task" := VMap (<["type" := VString "ImageToTextTask"]>
                         (<["body" := VString imgString]> ∅))]> ∅)).

(** createTaskImage creates an image-to-text task on the AntiCaptcha API *)
Definition createTaskImage (c : Client) (ctx : Context) (imgString : string)
  : M (float * option error) :=
  let body := createTaskImage_body c imgString in
  Logger_Println c "Creating task for image captcha...";;
  '(response, err) ← makeRequest c ctx "/createTask" body;
  match err with
  | Some err =>
      Logger_Printf c "Failed to create task: %v\n" [AError err];;
      mret (0%float, Some (fmt_Errorf "failed to create task: %w" err))
  | None =>
      let '(errMsg, ok) := index_ok response "errorId" in
      cond ← (if ok then f ← assert_float64 errMsg; mret (negb (PrimFloat.eqb f 0))
              else mret false);
      if cond : bool then
        d ← assert_string (index response "errorDescription");
        Logger_Printf c "API error creating task: %s\n" [AString d];;
        d ← assert_string (index response "errorDescription");
        mret (0%float, Some (errors_New d))
      else
        match float64_ok (index response "taskId") with
        | None =>
            Logger_Println c "Failed to retrieve taskId from response";;
            mret (0%float, Some (errors_New "failed to retrieve taskId from response"))
        | Some taskID =>
            Logger_Printf c "Task created successfully with ID: %f\n" [AFloat taskID];;
            mret (taskID, None)
        end
  end.

(** The request body of getTaskResult. *)
Definition getTaskResult_body (c : Client) (taskID : float) : Value :=
  VMap (<["clientKey" := VString (APIKey c)]> (<["taskId" := VFloat64 taskID]> ∅)).

(** getTaskResult checks the result of a given task *)
Definition getTaskResult (c : Client) (ctx : Context) (taskID : float)
  : M (gmap string Value * option error) :=
  let body := getTaskResult_body c taskID in
  Logger_Printf c "Checking result for task ID: %f\n" [AFloat taskID];;
  '(response, err) ← makeRequest c ctx "/getTaskResult" body;
  match err with
  | Some err =>
      Logger_Printf c "Failed to get task result: %v\n" [AError err];;
      mret (∅, Some (fmt_Errorf "failed to get task result: %w" err))
  | None => mret (response, None)
  end.

(** [status == "ready"] after the comma-ok assertion to string. *)
Definition status_ready (response : gmap string Value) : bool :=
  match string_ok (index response "status") with
  | Some status => bool_decide (status = "ready")
  | None => false
  end.

(** The polling loop of SendImage; [fuel] bounds the number of iterations
    that are unfolded, the Go loop itself has no bound. *)
Fixpoint SendImage_poll (fuel : nat) (c : Client) (ctx : Context) (taskID : float)
  : M (string * option error) :=
  match fuel with
  | O => out_of_fuel
  | S fuel =>
      '(response, err) ← getTaskResult c ctx taskID;
      match err with
      | Some err =>
          Logger_Printf c "Error getting task result: %v\n" [AError err];;
          mret ("", Some (fmt_Errorf "failed to get task result: %w" err))
      | None =>
          if status_ready response then
            Logger_Printf c "Task ID %f is ready with solution.\n" [AFloat taskID];;
            match map_ok (index response "solution") with
            | None =>
                Logger_Println c "Invalid solution format in response";;
                mret ("", Some (errors_New "invalid solution format in response"))
            | Some solution =>
                match string_ok (index solution "text") with
                | None =>
                    Logger_Println c "Text not found in solution";;
                    mret ("", Some (errors_New "text not found in solution"))
                | Some text =>
                    Logger_Printf c "Captcha solved successfully: %s\n" [AString text];;
                    mret (text, None)
                end
            end
          else
            Logger_Printf c "Task ID %f is still processing...\n" [AFloat taskID];;
            time_Sleep checkInterval;;
            SendImage_poll fuel c ctx taskID
      end
  end.

(** SendImage sends an image captcha to the AntiCaptcha API and waits for
    the solution *)
Definition SendImage (fuel : nat) (c : Client) (imgString : string)
  : M (string * option error) :=
  ctx ← context_WithTimeout context_Background defaultTimeout;
  '(taskID, err) ← createTaskImage c ctx imgString;
  match err with
  | Some err =>
      Logger_Printf c "Error sending image: %v\n" [AError err];;
      mret ("", Some (fmt_Errorf "failed to send image: %w" err))
  | None => SendImage_poll fuel c ctx taskID
  end.

(** NewHCaptchaProxyless creates a new HCaptchaProxyless task configuration *)
Definition NewHCaptchaProxyless (client : Client) : M nat :=
  alloc {| Client_ := client;
           WebsiteURL := "";
           WebsiteKey := "";
           IsInvisible := false;
           IsEnterprise := false;
           EnterprisePayload := Some ∅;
           SoftID := 0;
           UserAgent := "";
           RespKey := "" |}.

Definition with_WebsiteURL (url : string) (o : HCaptchaProxyless) : HCaptchaProxyless :=
  {| Client_ := Client_ o; WebsiteURL := url; WebsiteKey := WebsiteKey o;
     IsInvisible := IsInvisible o; IsEnterprise := IsEnterprise o;
     EnterprisePayload := EnterprisePayload o; SoftID := SoftID o;
     UserAgent := UserAgent o; RespKey := RespKey o |}.
Definition with_WebsiteKey (key : string) (o : HCaptchaProxyless) : HCaptchaProxyless :=
  {| Client_ := Client_ o; WebsiteURL := WebsiteURL o; WebsiteKey := key;
     IsInvisible := IsInvisible o; IsEnterprise := IsEnterprise o;
     EnterprisePayload := EnterprisePayload o; SoftID := SoftID o;
     UserAgent := UserAgent o; RespKey := RespKey o |}.
Definition with_IsInvisible (b : bool) (o : HCaptchaProxyless) : HCaptchaProxyless :=
  {| Client_ := Client_ o; WebsiteURL := WebsiteURL o; WebsiteKey := WebsiteKey o;
     IsInvisible := b; IsEnterprise := IsEnterprise o;
     EnterprisePayload := EnterprisePayload o; SoftID := SoftID o;
     UserAgent := UserAgent o; RespKey := RespKey o |}.
Definition with_IsEnterprise (b : bool) (o : HCaptchaProxyless) : HCaptchaProxyless :=
  {| Client_ := Client_ o; WebsiteURL := WebsiteURL o; WebsiteKey := WebsiteKey o;
     IsInvisible := IsInvisible o; IsEnterprise := b;
     EnterprisePayload := EnterprisePayload o; SoftID := SoftID o;
     UserAgent := UserAgent o; RespKey := RespKey o |}.
Definition with_EnterprisePayload (p : option (gmap string Value)) (o : HCaptchaProxyless)
  : HCaptchaProxyless :=
  {| Client_ := Client_ o; WebsiteURL := WebsiteURL o; WebsiteKey := WebsiteKey o;
     IsInvisible := IsInvisible o; IsEnterprise := IsEnterprise o;
     EnterprisePayload := p; SoftID := SoftID o;
     UserAgent := UserAgent o; RespKey := RespKey o |}.
Definition with_SoftID (n : Z) (o : HCaptchaProxyless) : HCaptchaProxyless :=
  {| Client_ := Client_ o; WebsiteURL := WebsiteURL o; WebsiteKey := WebsiteKey o;
     IsInvisible := IsInvisible o; IsEnterprise := IsEnterprise o;
     EnterprisePayload := EnterprisePayload o; SoftID := n;
     UserAgent := UserAgent o; RespKey := RespKey o |}.
Definition with_UserAgent (s : string) (o : HCaptchaProxyless) : HCaptchaProxyless :=
  {| Client_ := Client_ o; WebsiteURL := WebsiteURL o; WebsiteKey := WebsiteKey o;
     IsInvisible := IsInvisible o; IsEnterprise := IsEnterprise o;
     EnterprisePayload := EnterprisePayload o; SoftID := SoftID o;
     UserAgent := s; RespKey := RespKey o |}.
Definition with_RespKey (s : string) (o : HCaptchaProxyless) : HCaptchaProxyless :=
  {| Client_ := Client_ o; WebsiteURL := WebsiteURL o; WebsiteKey := WebsiteKey o;
     IsInvisible := IsInvisible o; IsEnterprise := IsEnterprise o;
     EnterprisePayload := EnterprisePayload o; SoftID := SoftID o;
     UserAgent := UserAgent o; RespKey := s |}.

(** The setters of the HCaptcha task. *)
Definition SetWebsiteURL (h : nat) (url : string) : M unit := store h (with_WebsiteURL url).
Definition SetWebsiteKey (h : nat) (key : string) : M unit := store h (with_WebsiteKey key).
Definition SetIsInvisible (h : nat) (invisible : bool) : M unit :=
  store h (with_IsInvisible invisible).
Definition SetIsEnterprise (h : nat) (enterprise : bool) : M unit :=
  store h (with_IsEnterprise enterprise).
Definition SetEnterprisePayload (h : nat) (payload : option (gmap string Value)) : M unit :=
  store h (with_EnterprisePayload payload).
Definition SetSoftID (h : nat) (softID : Z) : M unit := store h (with_SoftID softID).

(** A [map[string]interface{}] put into an [interface{}].  A nil map is
    not the nil interface, but all that is done with it here is
    [json.Marshal], which writes null for both. *)
Definition map_value (m : option (gmap string Value)) : Value :=
  match m with
  | Some m => VMap m
  | None => VNil
  end.

(** The request body of SolveAndReturnSolution. *)
Definition SolveAndReturnSolution_body (o : HCaptchaProxyless) : Value :=
  VMap (<["clientKey" := VString (APIKey (Client_ o))]>
       (<["task" := VMap (<["type" := VString "HCaptchaTaskProxyless"]>
                         (<["websiteURL" := VString (WebsiteURL o)]>
                         (<["websiteKey" := VString (WebsiteKey o)]>
                         (<["isInvisible" := VBool (IsInvisible o)]>
                         (<["isEnterprise" := VBool (IsEnterprise o)]>
                         (<["enterprisePayload" := map_value (EnterprisePayload o)]> ∅))))))]>
       (<["softId" := VInt (SoftID o)]> ∅))).

(** The polling loop of SolveAndReturnSolution; [fuel] as in
    [SendImage_poll]. *)
Fixpoint SolveAndReturnSolution_poll (fuel : nat) (h : nat) (c : Client) (ctx : Context)
    (taskID : float) : M (string * option error) :=
  match fuel with
  | O => out_of_fuel
  | S fuel =>
      '(result, err) ← getTaskResult c ctx taskID;
      match err with
      | Some err =>
          Logger_Printf c "Error getting task result: %v\n" [AError err];;
          mret ("", Some (fmt_Errorf "failed to get task result: %w" err))
      | None =>
          if status_ready result then
            Logger_Printf c "Task ID %f is ready with solution.\n" [AFloat taskID];;
            match map_ok (index result "solution") with
            | None =>
                Logger_Println c "Invalid solution format in response";;
                mret ("", Some (errors_New "invalid solution format in response"))
            | Some solution =>
                match string_ok (index solution "gRecaptchaResponse") with
                | None =>
                    Logger_Println c "gRecaptchaResponse not found in solution";;
                    mret ("", Some (errors_New "gRecaptchaResponse not found in solution"))
                | Some gResponse =>
                    ua ← assert_string (index solution "userAgent");
                    store h (with_UserAgent ua);;
                    rk ← assert_string (index solution "respKey");
                    store h (with_RespKey rk);;
                    Logger_Printf c "HCaptcha solved successfully: %s\n" [AString gResponse];;
                    mret (gResponse, None)
                end
            end
          else
            Logger_Printf c "Task ID %f is still processing...\n" [AFloat taskID];;
            time_Sleep checkInterval;;
            SolveAndReturnSolution_poll fuel h c ctx taskID
      end
  end.

(** SolveAndReturnSolution creates the task, waits for the solution, and
    returns it *)
Definition SolveAndReturnSolution (fuel : nat) (h : nat) : M (string * option error) :=
  ctx ← context_WithTimeout context_Background defaultTimeout;
  o ← load h;
  let c := Client_ o in
  let body := SolveAndReturnSolution_body o in
  Logger_Println c "Creating HCaptcha proxyless task...";;
  '(response, err) ← makeRequest c ctx "/createTask" body;
  match err with
  | Some err =>
      Logger_Printf c "Failed to create task: %v\n" [AError err];;
      mret ("", Some (fmt_Errorf "failed to create task: %w" err))
  | None =>
      let '(errMsg, ok) := index_ok response "errorId" in
      cond ← (if ok then f ← assert_float64 errMsg; mret (negb (PrimFloat.eqb f 0))
              else mret false);
      if cond : bool then
        d ← assert_string (index response "errorDescription");
        Logger_Printf c "API error creating task: %s\n" [AString d];;
        d ← assert_string (index response "errorDescription");
        mret ("", Some (errors_New d))
      else
        match float64_ok (index response "taskId") with
        | None =>
            Logger_Println c "Failed to retrieve taskId from response";;
            mret ("", Some (errors_New "failed to retrieve taskId from response"))
        | Some taskID =>
            Logger_Printf c "Task created successfully with ID: %f\n" [AFloat taskID];;
            SolveAndReturnSolution_poll fuel h c ctx taskID
        end
  end.

End Package.

(** ** A mock environment for concrete runs *)

(** [json.Marshal] rejects NaN and the infinities; every other value of
    [Value] is encodable. *)
Fixpoint marshalable (v : Value) : bool :=
  match v with
  | VFloat64 f => negb (is_nan f || is_infinity f)
  | VSlice l => forallb marshalable l
  | VMap m => map_fold (fun _ v acc => marshalable v && acc) true m
  | _ => true
  end.

Definition float_trunc (f : float) : Z :=
  match Prim2SF f with
  | S754_finite s m e =>
      let v := if 0 <=? e then Z.pos m * 2 ^ e else Z.pos m / 2 ^ (- e) in
      if s then - v else v
  | _ => 0
  end.

(** The mock encoder: compact JSON without string escapes, object members
    in the order of [map_to_list], a float written by its integer part. *)
Fixpoint mock_render (v : Value) : string :=
  match v with
  | VNil => "null"
  | VBool b => if b then "true" else "false"
  | VInt n => pretty n
  | VFloat64 f => pretty (float_trunc f)
  | VString s => quote +:+ s +:+ quote
  | VSlice l => "[" +:+ String.concat "," (map mock_render l) +:+ "]"
  | VMap m =>
      "{" +:+ String.concat ","
                (map (fun kv => quote +:+ fst kv +:+ quote +:+ ":" +:+ snd kv)
                     (map_to_list (mock_render <$> m))) +:+ "}"
  end.

Definition mock_Marshal (v : Value) : error + string :=
  if marshalable v then inr (mock_render v)
  else inl (library_error "json: unsupported value").

(** A service that answers the n-th invocation with [script n], whatever
    the request. *)
Definition mock (script : nat -> Exchange) : Env :=
  {| url_Parse := fun s => inr s;
     json_Marshal := mock_Marshal;
     service := fun n _ => script n |}.

(** A 200 response whose body decodes to [m], after 100 ms. *)
Definition answers (m : gmap string Value) : Exchange :=
  {| latency := 100000000;
     reply := inr {| StatusCode := 200; Decoded := inr m; CloseErr := None |} |}.

Definition created : gmap string Value :=
  <["errorId" := VFloat64 0]> (<["taskId" := VFloat64 7]> ∅).
Definition processing : gmap string Value :=
  <["status" := VString "processing"]> ∅.
Definition ready_AB12 : gmap string Value :=
  <["status" := VString "ready"]>
  (<["solution" := VMap (<["text" := VString "AB12"]> ∅)]> ∅).

Definition script_AB12 (n : nat) : Exchange :=
  match n with
  | O => answers created
  | 1%nat => answers processing
  | _ => answers ready_AB12
  end.

(** * Properties *)

(** ** Vocabulary *)

(** The call got a 2xx response whose body decodes to [m]. *)
Definition answered (c : Call) (m : gmap string Value) : Prop :=
  exists resp, call_result c = inr resp /\ non_2xx resp = false /\ Decoded resp = inr m.

(** What makeRequest returns once [Do] has returned [res]. *)
Inductive delivered : error + Response -> gmap string Value * option error -> Prop :=
| delivered_failed err :
    delivered (inl err) (∅, Some (fmt_Errorf "request failed: %w" err))
| delivered_status resp :
    non_2xx resp = true ->
    delivered (inr resp) (∅, Some (fmt_Errorf_d "non-2xx status code: %d" (StatusCode resp)))
| delivered_undecoded resp err :
    non_2xx resp = false -> Decoded resp = inl err ->
    delivered (inr resp) (∅, Some (fmt_Errorf "failed to decode response: %w" err))
| delivered_decoded resp m :
    non_2xx resp = false -> Decoded resp = inr m ->
    delivered (inr resp) (m, None).

(** The error classes of the specification, read on the errors the
    package builds.  A TransportError is one of the six errors of
    makeRequest. *)
Inductive TransportError : error -> Prop :=
| transport_parse err : TransportError (fmt_Errorf "failed to parse URL: %w" err)
| transport_marshal err : TransportError (fmt_Errorf "failed to marshal request body: %w" err)
| transport_create err : TransportError (fmt_Errorf "failed to create HTTP request: %w" err)
| transport_request err : TransportError (fmt_Errorf "request failed: %w" err)
| transport_status n : TransportError (fmt_Errorf_d "non-2xx status code: %d" n)
| transport_decode err : TransportError (fmt_Errorf "failed to decode response: %w" err).

(** A ResponseFormatError is, under its call-site wrapping, one of the
    four errors raised for a missing or mistyped field. *)
Definition ResponseFormatError (e : error) : Prop :=
  exists text, root_cause e = errors_New text /\
    text ∈ ["failed to retrieve taskId from response";
            "invalid solution format in response";
            "text not found in solution";
            "gRecaptchaResponse not found in solution"].


(** *** The request primitive *)

(** The request makeRequest hands to the client, when it gets that far. *)
Definition prepared (E : Env) (ctx : Context) (endpoint : string) (body : Value) : option Request :=
  match url_Parse E (apiBaseURL +:+ endpoint) with
  | inl _ => None
  | inr u =>
      match json_Marshal E body with
      | inl _ => None
      | inr b =>
          match http_NewRequestWithContext E ctx "POST" u b with
          | inl _ => None
          | inr req => Some (Header_Set req "Content-Type" "application/json")
          end
      end
  end.

(** URL construction or serialization fails: the base URL with the
    endpoint does not parse, the body does not marshal, or the URL does not
    parse again when the request is built from it. *)
Definition construction_fails (E : Env) (endpoint : string) (body : Value) : Prop :=
  (exists err, url_Parse E (apiBaseURL +:+ endpoint) = inl err)
  \/ (exists err, json_Marshal E body = inl err)
  \/ (exists u err, url_Parse E (apiBaseURL +:+ endpoint) = inr u /\ url_Parse E u = inl err).

(** The sentence of the specification, read on one call.  makeRequest has
    no other way to the network than [HTTPClient.Do], so that a call with
    exactly one round trip is a call that invokes it, and it never invokes
    it twice: the client is invoked exactly once. *)
Definition exactly_one_round_trip (E : Env) (c : Client) (ctx : Context)
    (endpoint : string) (body : Value) (w : World) : Prop :=
  length (calls (snd (makeRequest E c ctx endpoint body w))) = S (length (calls w)).

(** The world right after [Do] has returned for [req]. *)
Definition after_call (E : Env) (c : Client) (req : Request) (w : World) : World :=
  snd (HTTPClient_Do E c req w).

(** The call that [Do] records for [req] in [w]. *)
Definition call_of (E : Env) (c : Client) (req : Request) (w : World) : Call :=
  {| call_req := req;
     call_result := snd (round_trip E c req (length (calls w)) (now w)) |}.

(** Two worlds that differ in the log only. *)
Definition quiet (w w' : World) : Prop :=
  trace w' = trace w /\ now w' = now w /\ heap w' = heap w.

(** *** The polling loops *)

(** The two loops differ only in what they do with a ready response; this
    is what they share, with that part as a parameter. *)
Fixpoint poll_until (E : Env) (decode : gmap string Value -> M (string * option error))
    (fuel : nat) (c : Client) (ctx : Context) (taskID : float)
  : M (string * option error) :=
  match fuel with
  | O => out_of_fuel
  | S fuel =>
      '(response, err) ← getTaskResult E c ctx taskID;
      match err with
      | Some err =>
          Logger_Printf c "Error getting task result: %v\n" [AError err];;
          mret ("", Some (fmt_Errorf "failed to get task result: %w" err))
      | None =>
          if status_ready response then
            Logger_Printf c "Task ID %f is ready with solution.\n" [AFloat taskID];;
            decode response
          else
            Logger_Printf c "Task ID %f is still processing...\n" [AFloat taskID];;
            time_Sleep checkInterval;;
            poll_until E decode fuel c ctx taskID
      end
  end.

(** What SendImage does with a ready response. *)
Definition SendImage_decode (c : Client) (response : gmap string Value)
  : M (string * option error) :=
  match map_ok (index response "solution") with
  | None =>
      Logger_Println c "Invalid solution format in response";;
      mret ("", Some (errors_New "invalid solution format in response"))
  | Some solution =>
      match string_ok (index solution "text") with
      | None =>
          Logger_Println c "Text not found in solution";;
          mret ("", Some (errors_New "text not found in solution"))
      | Some text =>
          Logger_Printf c "Captcha solved successfully: %s\n" [AString text];;
          mret (text, None)
      end
  end.

(** What SolveAndReturnSolution does with a ready response. *)
Definition SolveAndReturnSolution_decode (h : nat) (c : Client)
    (result : gmap string Value) : M (string * option error) :=
  match map_ok (index result "solution") with
  | None =>
      Logger_Println c "Invalid solution format in response";;
      mret ("", Some (errors_New "invalid solution format in response"))
  | Some solution =>
      match string_ok (index solution "gRecaptchaResponse") with
      | None =>
          Logger_Println c "gRecaptchaResponse not found in solution";;
          mret ("", Some (errors_New "gRecaptchaResponse not found in solution"))
      | Some gResponse =>
          ua ← assert_string (index solution "userAgent");
          store h (with_UserAgent ua);;
          rk ← assert_string (index solution "respKey");
          store h (with_RespKey rk);;
          Logger_Printf c "HCaptcha solved successfully: %s\n" [AString gResponse];;
          mret (gResponse, None)
      end
  end.

(** The events of polls that were answered "not ready": each is followed
    by one sleep of the check interval. *)
Definition awaited (ps : list Call) : list Event :=
  flat_map (fun c => [Called c; Slept checkInterval]) ps.

(** A poll that was answered, and not with status "ready". *)
Definition pending (c : Call) : Prop :=
  exists m, answered c m /\ status_ready m = false.

(** A poll error as the loops return it: wrapped by getTaskResult and
    once more by the loop. *)
Definition poll_error (err : error) : error :=
  fmt_Errorf "failed to get task result: %w"
    (fmt_Errorf "failed to get task result: %w" err).

(** How a loop run can end after the final polls [final], for the decoder
    [decode] and the heap [hp] the loop started with. *)
Definition loop_end (decode : gmap string Value -> M (string * option error))
    (hp : list HCaptchaProxyless) (final : list Call)
    (out : Outcome (string * option error)) (w' : World) : Prop :=
  (final = [] /\ heap w' = hp /\
   (out = OutOfFuel \/
    exists err, TransportError err /\ out = Return ("", Some (poll_error err))))
  \/
  (exists cl, final = [cl] /\ (forall m, ~ answered cl m) /\ heap w' = hp /\
     exists err, TransportError err /\ out = Return ("", Some (poll_error err)))
  \/
  (exists cl m w1, final = [cl] /\ answered cl m /\ status_ready m = true /\
     heap w1 = hp /\ decode m w1 = (out, w')).

(** *** The clock *)

(** The time the service takes to answer the request of [c] when that is
    the n-th call. *)
Definition call_latency (E : Env) (n : nat) (c : Call) : Z :=
  Z.of_N (latency (service E n (call_req c))).

(** The time that the events of [tr] take when the first call among them
    is the n-th call and every call gets its answer: the latency of each
    call, and the length of each sleep. *)
Fixpoint duration (E : Env) (n : nat) (tr : list Event) : Z :=
  match tr with
  | [] => 0
  | Called c :: tr => call_latency E n c + duration E (S n) tr
  | Slept d :: tr => Z.max 0 d + duration E n tr
  end.

(** *** The create response *)

(** What a decoded create response decides, in both operations. *)
Inductive CreateDecision :=
| CreatePanic (p : PanicValue)     (* an unchecked assertion fails *)
| CreateAPIError (d : string)      (* errorId is not zero *)
| CreateNoTaskId                   (* taskId is absent or not a number *)
| CreateTask (taskID : float).

Definition create_decision (response : gmap string Value) : CreateDecision :=
  let api_error :=
    match response !! "errorId" with
    | Some (VFloat64 f) => inr (negb (PrimFloat.eqb f 0))
    | Some v => inl (TypeAssertionError v "float64")
    | None => inr false
    end in
  match api_error with
  | inl p => CreatePanic p
  | inr true =>
      match index response "errorDescription" with
      | VString d => CreateAPIError d
      | v => CreatePanic (TypeAssertionError v "string")
      end
  | inr false =>
      match float64_ok (index response "taskId") with
      | Some taskID => CreateTask taskID
      | None => CreateNoTaskId
      end
  end.

(** errorId is absent, or it is the number zero. *)
Definition no_api_error (m : gmap string Value) : Prop :=
  m !! "errorId" = None \/
  exists f, m !! "errorId" = Some (VFloat64 f) /\ PrimFloat.eqb f 0 = true.

(** taskId is absent or not a number. *)
Definition no_taskId (m : gmap string Value) : Prop :=
  forall f, m !! "taskId" <> Some (VFloat64 f).

(** The fields of an HCaptcha task that only the caller sets. *)
Definition same_caller_fields (o o' : HCaptchaProxyless) : Prop :=
  Client_ o' = Client_ o /\ WebsiteURL o' = WebsiteURL o /\
  WebsiteKey o' = WebsiteKey o /\ IsInvisible o' = IsInvisible o /\
  IsEnterprise o' = IsEnterprise o /\ EnterprisePayload o' = EnterprisePayload o /\
  SoftID o' = SoftID o.

(** *** Requests, errors and panics of a run *)

(** The request that makeRequest builds for [endpoint] and [body] under
    [ctx], field by field. *)
Definition is_request (E : Env) (ctx : Context) (endpoint : string) (body : Value)
    (req : Request) : Prop :=
  Method req = "POST" /\
  Header req = <["Content-Type" := "application/json"]> ∅ /\
  Ctx req = ctx /\
  (exists u, url_Parse E (apiBaseURL +:+ endpoint) = inr u /\
             url_Parse E u = inr (URL req)) /\
  json_Marshal E body = inr (ReqBody req).

(** A poll of the loop for [taskID]: the request is the one of
    getTaskResult, and the answer is not "ready". *)
Definition waiting_poll (E : Env) (c : Client) (ctx : Context) (taskID : float)
    (p : Call) : Prop :=
  prepared E ctx "/getTaskResult" (getTaskResult_body c taskID) = Some (call_req p) /\
  pending p.

(** What the two operations share: the create phase, whose errors
    SendImage wraps once more with [wrap], and then the loop with the
    operation's decoder. *)
Definition operation_run (E : Env) (decode : gmap string Value -> M (string * option error))
    (wrap : error -> error) (c : Client) (body : Value) (fuel : nat)
    (w : World) (out : Outcome (string * option error)) (w' : World) : Prop :=
  let ctx := {| Deadline := Some (now w + defaultTimeout) |} in
  (prepared E ctx "/createTask" body = None /\ quiet w w' /\
   exists err, TransportError err /\
     out = Return ("", Some (wrap (fmt_Errorf "failed to create task: %w" err))))
  \/
  (exists req, prepared E ctx "/createTask" body = Some req /\
     (((forall m, ~ answered (call_of E c req w) m) /\
       quiet (after_call E c req w) w' /\
       exists err, TransportError err /\
         out = Return ("", Some (wrap (fmt_Errorf "failed to create task: %w" err))))
      \/
      (exists m, answered (call_of E c req w) m /\
         match create_decision m with
         | CreatePanic p => out = Panic p /\ quiet (after_call E c req w) w'
         | CreateAPIError d =>
             out = Return ("", Some (wrap (errors_New d)))
             /\ quiet (after_call E c req w) w'
         | CreateNoTaskId =>
             out = Return ("", Some (wrap (errors_New "failed to retrieve taskId from response")))
             /\ quiet (after_call E c req w) w'
         | CreateTask taskID =>
             exists w1, quiet (after_call E c req w) w1 /\
               poll_until E decode fuel c ctx taskID w1 = (out, w')
         end))).

(** An unchecked assertion of the create phase fails on the response [m]
    with the panic [p]: errorId is there and not a number, or it is a
    number other than zero and errorDescription is not a string. *)
Definition create_assertion_fails (m : gmap string Value) (p : PanicValue) : Prop :=
  (exists v, m !! "errorId" = Some v /\ float64_ok v = None /\
     p = TypeAssertionError v "float64")
  \/
  (exists f, m !! "errorId" = Some (VFloat64 f) /\ PrimFloat.eqb f 0 = false /\
     string_ok (index m "errorDescription") = None /\
     p = TypeAssertionError (index m "errorDescription") "string").

(** The create response [m] reports the API error [d]: errorId is a number
    other than zero and errorDescription is the string [d]. *)
Definition reports_api_error (m : gmap string Value) (d : string) : Prop :=
  (exists f, m !! "errorId" = Some (VFloat64 f) /\ PrimFloat.eqb f 0 = false) /\
  m !! "errorDescription" = Some (VString d).

(** The errors of the create phase, before SendImage wraps them: a
    transport error under the prefix of the create phase, the description
    of an API error, or the missing task identifier. *)
Definition create_error (m : option (gmap string Value)) (e : error) : Prop :=
  match m with
  | None => exists t, TransportError t /\ e = fmt_Errorf "failed to create task: %w" t
  | Some m =>
      (exists d, reports_api_error m d /\ e = errors_New d)
      \/ (no_api_error m /\ no_taskId m /\
          e = errors_New "failed to retrieve taskId from response")
  end.

(** The errors of a decoder on the ready response [m]: the solution is
    not an object, or its [field] is not a string. *)
Definition solution_error (field message : string) (m : gmap string Value) (e : error)
  : Prop :=
  (map_ok (index m "solution") = None /\
   e = errors_New "invalid solution format in response")
  \/
  (exists sol, m !! "solution" = Some (VMap sol) /\
     string_ok (index sol field) = None /\ e = errors_New message).

(** If the call failed, it was by the deadline of its context. *)
Definition fails_by_deadline_only (call : Call) : Prop :=
  forall err, call_result call = inl err ->
    err = url_Error "Post" (URL (call_req call)) context_DeadlineExceeded.

(** *** Programs over the setters *)

(** A call of one of the six setters, with its argument. *)
Inductive Setting :=
| OfWebsiteURL (url : string)
| OfWebsiteKey (key : string)
| OfIsInvisible (invisible : bool)
| OfIsEnterprise (enterprise : bool)
| OfEnterprisePayload (payload : option (gmap string Value))
| OfSoftID (softID : Z).

Definition call_setter (h : nat) (s : Setting) : M unit :=
  match s with
  | OfWebsiteURL url => SetWebsiteURL h url
  | OfWebsiteKey key => SetWebsiteKey h key
  | OfIsInvisible invisible => SetIsInvisible h invisible
  | OfIsEnterprise enterprise => SetIsEnterprise h enterprise
  | OfEnterprisePayload payload => SetEnterprisePayload h payload
  | OfSoftID softID => SetSoftID h softID
  end.

(** The setter calls of [l] on the task [h], one after the other. *)
Fixpoint call_setters (h : nat) (l : list Setting) : M unit :=
  match l with
  | [] => mret tt
  | s :: l => call_setter h s;; call_setters h l
  end.

Definition websiteURL_of (s : Setting) : option string :=
  match s with OfWebsiteURL url => Some url | _ => None end.
Definition websiteKey_of (s : Setting) : option string :=
  match s with OfWebsiteKey key => Some key | _ => None end.
Definition isInvisible_of (s : Setting) : option bool :=
  match s with OfIsInvisible b => Some b | _ => None end.
Definition isEnterprise_of (s : Setting) : option bool :=
  match s with OfIsEnterprise b => Some b | _ => None end.
Definition enterprisePayload_of (s : Setting) : option (option (gmap string Value)) :=
  match s with OfEnterprisePayload p => Some p | _ => None end.
Definition softID_of (s : Setting) : option Z :=
  match s with OfSoftID n => Some n | _ => None end.

(** The argument of the last call in [l] of the setter that [pick]
    recognises, and [before] when there is none. *)
Definition last_set {A} (pick : Setting -> option A) (before : A) (l : list Setting) : A :=
  default before (last (omap pick l)).

(** The task [o] after the setter calls of [l]. *)
Definition configured (o : HCaptchaProxyless) (l : list Setting) : HCaptchaProxyless :=
  {| Client_ := Client_ o;
     WebsiteURL := last_set websiteURL_of (WebsiteURL o) l;
     WebsiteKey := last_set websiteKey_of (WebsiteKey o) l;
     IsInvisible := last_set isInvisible_of (IsInvisible o) l;
     IsEnterprise := last_set isEnterprise_of (IsEnterprise o) l;
     EnterprisePayload := last_set enterprisePayload_of (EnterprisePayload o) l;
     SoftID := last_set softID_of (SoftID o) l;
     UserAgent := UserAgent o;
     RespKey := RespKey o |}.

(** *** The log *)

(** The line went through the logger of [c]. *)
Definition written_by (c : Client) (line : LogLine) : Prop :=
  match line with
  | Printf prefix _ _ => prefix = Prefix (Logger c)
  | Println prefix _ => prefix = Prefix (Logger c)
  end.

(** From [w] to [w'] the log has only grown, by lines of the logger of
    [c]. *)
Definition logs_on (c : Client) (w w' : World) : Prop :=
  exists lines, log w' = log w ++ lines /\ Forall (written_by c) lines.

(** Two texts that differ in their first character at most. *)
Definition same_tail (a b : string) : Prop :=
  match a, b with
  | String _ r, String _ r' => r = r'
  | _, _ => False
  end.

(** The log line names the error that is returned after it: the line
    shows the error that the returned one wraps, or the description that
    is the returned error's text, or that text itself up to a capital. *)
Inductive names : LogLine -> error -> Prop :=
| names_cause prefix format format' err :
    names (Printf prefix format [AError err]) (fmt_Errorf format' err)
| names_description prefix format d :
    names (Printf prefix format [AString d]) (errors_New d)
| names_text prefix text text' :
    same_tail text text' -> names (Println prefix text) (errors_New text').

(** The last line of the log names [e]. *)
Definition reported (w : World) (e : error) : Prop :=
  exists line, last (log w) = Some line /\ names line e.

(** *** Assumptions on the environment *)





(** The sentence of the specification about the sleep, read on one run of
    SendImage: an expiry during a sleep ends the run, so no run ends
    after its deadline. *)
Definition returns_by_deadline (E : Env) (fuel : nat) (c : Client) (img : string)
    (w : World) : Prop :=
  forall out w', SendImage E fuel c img w = (out, w') -> now w' <= now w + defaultTimeout.



(** The service sends a response to every request, sooner or later. *)
Definition responsive (E : Env) : Prop :=
  forall n req, exists resp, reply (service E n req) = inr resp.

(** *** Concrete clients, responses and services *)

Definition client : Client := NewClient "key" None.

Definition image : string := "aGVsbG8=".

Definition api_error_response : gmap string Value :=
  <["errorId" := VFloat64 1]>
  (<["errorDescription" := VString "ERROR_KEY_DOES_NOT_EXIST"]> ∅).

Definition no_taskId_response : gmap string Value := <["errorId" := VFloat64 0]> ∅.

Definition no_description_response : gmap string Value := <["errorId" := VFloat64 1]> ∅.

Definition text_errorId_response : gmap string Value := <["errorId" := VString "1"]> ∅.

Definition ready_hcaptcha : gmap string Value :=
  <["status" := VString "ready"]>
  (<["solution" := VMap (<["gRecaptchaResponse" := VString "tok"]>
                        (<["userAgent" := VString "UA"]>
                        (<["respKey" := VString "K"]> ∅)))]> ∅).

Definition ready_without_userAgent : gmap string Value :=
  <["status" := VString "ready"]>
  (<["solution" := VMap (<["gRecaptchaResponse" := VString "tok"]> ∅)]> ∅).

Definition ready_without_respKey : gmap string Value :=
  <["status" := VString "ready"]>
  (<["solution" := VMap (<["gRecaptchaResponse" := VString "tok"]>
                        (<["userAgent" := VString "UA"]> ∅))]> ∅).

(** The task is accepted and then the same answer comes to every poll. *)
Definition script_then (m : gmap string Value) (n : nat) : Exchange :=
  match n with
  | O => answers created
  | _ => answers m
  end.

(** The create call takes 59.5 s; every poll is answered "processing". *)
Definition script_slow (n : nat) : Exchange :=
  match n with
  | O => {| latency := 59500000000; reply := reply (answers created) |}
  | _ => answers processing
  end.


(** A world with one HCaptcha task, set up through the setters. *)
Definition task_world : World :=
  snd ((h ← NewHCaptchaProxyless client;
        SetWebsiteURL h "https://website.com";;
        SetWebsiteKey h "SITE_KEY";;
        SetIsInvisible h true;;
        SetSoftID h 0) initial).

(** The task that [task_world] holds at index 0. *)
Definition task : HCaptchaProxyless :=
  {| Client_ := client;
     WebsiteURL := "https://website.com";
     WebsiteKey := "SITE_KEY";
     IsInvisible := true;
     IsEnterprise := false;
     EnterprisePayload := Some ∅;
     SoftID := 0;
     UserAgent := "";
     RespKey := "" |}.

(** An HCaptcha task whose enterprise payload holds a NaN. *)
Definition nan_task : HCaptchaProxyless :=
  {| Client_ := NewClient "key" None;
     WebsiteURL := "https://website.com";
     WebsiteKey := "SITE_KEY";
     IsInvisible := false;
     IsEnterprise := true;
     EnterprisePayload := Some (<["rqdata" := VFloat64 nan]> ∅);
     SoftID := 0;
     UserAgent := "";
     RespKey := "" |}.

(** *** More concrete services and programs *)

(** A create response that is fine, but whose body fails to close. *)
Definition closing_fails : Exchange :=
  {| latency := 100000000;
     reply := inr {| StatusCode := 200; Decoded := inr created;
                     CloseErr := Some (library_error "close failed") |} |}.

(** Setter calls in which the website URL is set twice. *)
Definition settings : list Setting :=
  [OfWebsiteURL "https://first.example"; OfSoftID 3; OfIsInvisible true;
   OfWebsiteURL "https://website.com"; OfWebsiteKey "SITE_KEY"].

(** ** Lemmas on the request primitive *)

Section Reasoning.

Context (E : Env).

Lemma prepared_Ctx ctx endpoint body req :
  prepared E ctx endpoint body = Some req -> Ctx req = ctx.
Proof.
  unfold prepared, http_NewRequestWithContext.
  repeat case_match; intros; simplify_eq; reflexivity.
Qed.

(** Every run of makeRequest: it returns, touches neither the heap nor the
    sleeps, and either fails before the client is invoked or invokes it
    once and returns what [delivered] says. *)
Lemma makeRequest_inv c ctx endpoint body w out w' :
  makeRequest E c ctx endpoint body w = (out, w') ->
  exists r, out = Return r /\ heap w' = heap w /\
    ((prepared E ctx endpoint body = None /\
      (exists err, r = (∅, Some err) /\ TransportError err) /\
      trace w' = trace w /\ now w' = now w)
     \/
     (exists req, prepared E ctx endpoint body = Some req /\
        let rt := round_trip E c req (length (calls w)) (now w) in
        trace w' = trace w ++ [Called {| call_req := req; call_result := snd rt |}] /\
        now w' = fst rt /\
        delivered (snd rt) r)).
Proof.
  unfold makeRequest, prepared.
  destruct (url_Parse E (apiBaseURL +:+ endpoint)) as [e1|u].
  { intros [= <- <-]. eexists; split; [reflexivity|]. split; [reflexivity|].
    left. repeat split; eauto using TransportError. }
  destruct (json_Marshal E body) as [e2|b].
  { intros [= <- <-]. eexists; split; [reflexivity|]. split; [reflexivity|].
    left. repeat split; eauto using TransportError. }
  destruct (http_NewRequestWithContext E ctx "POST" u b) as [e3|req].
  { intros [= <- <-]. eexists; split; [reflexivity|]. split; [reflexivity|].
    left. repeat split; eauto using TransportError. }
  unfold mbind, M_bind, Logger_Printf, HTTPClient_Do, defer, mret, M_ret. simpl.
  change (calls (add_log ?l w)) with (calls w).
  destruct (round_trip E c _ (length (calls w)) (now w)) as [t' res] eqn:Hrt.
  simpl.
  destruct res as [err|resp]; simpl.
  { intros [= <- <-]. eexists; split; [reflexivity|]. split; [reflexivity|].
    right. eexists; split; [reflexivity|]. rewrite Hrt. simpl.
    repeat split. constructor. }
  destruct (non_2xx resp) eqn:Hst; simpl.
  { intros [= <- <-]. eexists; split; [reflexivity|].
    split; [destruct (CloseErr resp); reflexivity|].
    right. eexists; split; [reflexivity|]. rewrite Hrt. simpl.
    repeat split; try (destruct (CloseErr resp); reflexivity).
    constructor; assumption. }
  destruct (Decoded resp) as [err|m] eqn:Hdec; simpl.
  { intros [= <- <-]. eexists; split; [reflexivity|].
    split; [destruct (CloseErr resp); reflexivity|].
    right. eexists; split; [reflexivity|]. rewrite Hrt. simpl.
    repeat split; try (destruct (CloseErr resp); reflexivity).
    constructor; assumption. }
  intros [= <- <-]. eexists; split; [reflexivity|].
  split; [destruct (CloseErr resp); reflexivity|].
  right. eexists; split; [reflexivity|]. rewrite Hrt. simpl.
  repeat split; try (destruct (CloseErr resp); reflexivity).
  constructor; assumption.
Qed.

Lemma calls_snoc w w' c :
  trace w' = trace w ++ [Called c] -> calls w' = calls w ++ [c].
Proof. unfold calls. intros ->. rewrite omap_app. reflexivity. Qed.

Lemma calls_same w w' : trace w' = trace w -> calls w' = calls w.
Proof. unfold calls. intros ->. reflexivity. Qed.

(** *** Timing of one exchange *)

Lemma round_trip_le c req n t : t <= fst (round_trip E c req n t).
Proof.
  unfold round_trip, limit.
  repeat case_match; simplify_eq; simpl; lia.
Qed.

(** A response only comes back before the context's deadline, and it is
    the one the service sent. *)
Lemma round_trip_inr c req n t resp :
  snd (round_trip E c req n t) = inr resp ->
  reply (service E n req) = inr resp /\
  forall d, Deadline (Ctx req) = Some d -> fst (round_trip E c req n t) < d.
Proof.
  unfold round_trip, limit.
  repeat case_match; simplify_eq; simpl; intros; simplify_eq;
    (split; [assumption || reflexivity|]); intros; simplify_eq; try lia.
Qed.

(** With a deadline, the exchange ends at the deadline at the latest or,
    when it started later, at once. *)
Lemma round_trip_bound c req n t d :
  Deadline (Ctx req) = Some d -> fst (round_trip E c req n t) <= Z.max t d.
Proof.
  unfold round_trip, limit. intros ->.
  repeat case_match; simplify_eq; simpl; lia.
Qed.

(** When the client's own timeout cannot come first and the service does
    answer, the only failure of [Do] is the context's deadline, observed
    at or after it. *)
Lemma round_trip_answer c req n t d resp :
  Deadline (Ctx req) = Some d ->
  (0 < Timeout (HTTPClient c) -> d <= t + Timeout (HTTPClient c)) ->
  reply (service E n req) = inr resp ->
  (snd (round_trip E c req n t) = inr resp /\ fst (round_trip E c req n t) < d)
  \/ (snd (round_trip E c req n t) = inl (url_Error "Post" (URL req) context_DeadlineExceeded)
      /\ d <= fst (round_trip E c req n t)).
Proof.
  unfold round_trip, limit. intros -> Hc ->.
  repeat case_match; simplify_eq; simpl; try (left; split; [reflexivity|lia]);
    try (right; split; [reflexivity|lia]); lia.
Qed.

(** Under a context that has expired already, [Do] returns the deadline
    error at once. *)
Lemma round_trip_expired c req n t d :
  Deadline (Ctx req) = Some d -> d <= t ->
  round_trip E c req n t = (t, inl (url_Error "Post" (URL req) context_DeadlineExceeded)).
Proof.
  unfold round_trip, limit. intros -> Hle.
  repeat case_match; simplify_eq; simpl; try reflexivity; lia.
Qed.

End Reasoning.

(** ** The request primitive *)

Section Transport.

Context (E : Env).

Lemma prepared_None ctx endpoint body :
  prepared E ctx endpoint body = None <-> construction_fails E endpoint body.
Proof.
  unfold prepared, construction_fails, http_NewRequestWithContext.
  destruct (url_Parse E (apiBaseURL +:+ endpoint)) as [e1|u] eqn:H1.
  { split; [eauto|reflexivity]. }
  destruct (json_Marshal E body) as [e2|b] eqn:H2.
  { split; [eauto|reflexivity]. }
  destruct (url_Parse E u) as [e3|u'] eqn:H3.
  { split; [|reflexivity]. intros _. right; right. eauto. }
  split; [discriminate|].
  intros [[? ?]|[[? ?]|(? & ? & ? & ?)]]; congruence.
Qed.

(** C9, as amended.  Every call of makeRequest returns; it invokes
    [HTTPClient.Do] at most once and never again: exactly once when URL
    construction and serialization succeed, not at all otherwise.  What
    one invocation puts on the wire is the client's business; under a
    context that has expired already it is nothing: [Do] returns the
    deadline error at once.  makeRequest returns an error, always a
    TransportError, exactly when URL construction, serialization, the
    invocation of [Do], a non-2xx status or the decoding of the response
    fails. *)
Theorem makeRequest_invokes_Do_at_most_once c ctx endpoint body w :
  exists r w' new,
    makeRequest E c ctx endpoint body w = (Return r, w') /\
    calls w' = calls w ++ new /\
    (length new <= 1)%nat /\
    (new = [] <-> construction_fails E endpoint body) /\
    (forall call d, new = [call] -> Deadline ctx = Some d -> d <= now w ->
       call_result call
         = inl (url_Error "Post" (URL (call_req call)) context_DeadlineExceeded) /\
       now w' = now w) /\
    (forall err, snd r = Some err -> TransportError err) /\
    (is_Some (snd r) <->
       construction_fails E endpoint body
       \/ (exists call err, new = [call] /\ call_result call = inl err)
       \/ (exists call resp, new = [call] /\ call_result call = inr resp /\
             non_2xx resp = true)
       \/ (exists call resp err, new = [call] /\ call_result call = inr resp /\
             Decoded resp = inl err)).
Proof.
  destruct (makeRequest E c ctx endpoint body w) as [out w'] eqn:Hrun.
  apply makeRequest_inv in Hrun as (r & -> & _ & Hcases).
  exists r, w'.
  destruct Hcases as [(Hprep & (err & -> & HT) & Htr & _)
                     |(req & Hprep & Htr & Hnow & Hdel)].
  - exists []. apply prepared_None in Hprep.
    split; [reflexivity|]. split; [rewrite app_nil_r; apply calls_same, Htr|].
    split; [simpl; lia|]. split; [tauto|]. split; [discriminate|].
    split; [intros ? [= <-]; exact HT|].
    simpl. split; [tauto|eauto].
  - simpl in Htr, Hnow, Hdel. apply calls_snoc in Htr.
    assert (Hok : ~ construction_fails E endpoint body).
    { rewrite <- prepared_None, Hprep. discriminate. }
    eexists [_]. split; [reflexivity|]. split; [exact Htr|].
    split; [simpl; lia|]. split; [split; [discriminate|tauto]|].
    split.
    { intros call d [= <-] Hd Hle. simpl. rewrite Hnow.
      rewrite (round_trip_expired E c req _ _ d); [split; reflexivity| |exact Hle].
      rewrite (prepared_Ctx E _ _ _ _ Hprep). exact Hd. }
    inversion Hdel as [err Hres|resp Hst Hres|resp err Hst Hdec Hres|resp m Hst Hdec Hres];
      subst r; simpl.
    + split; [intros ? [= <-]; constructor|].
      split; [|eauto]. intros _. right; left. eauto.
    + split; [intros ? [= <-]; constructor|].
      split; [|eauto]. intros _. right; right; left. eauto 6.
    + split; [intros ? [= <-]; constructor|].
      split; [|eauto]. intros _. right; right; right. eauto 8.
    + split; [discriminate|].
      split; [intros [? ?]; discriminate|].
      intros [?|[(? & ? & [= <-] & Hr)|[(? & ? & [= <-] & Hr & ?)|(? & ? & ? & [= <-] & Hr & ?)]]];
        [tauto| | |]; simpl in Hr; simplify_eq; congruence.
Qed.

Lemma round_trip_same c req1 req2 n t :
  (forall n req1 req2, URL req1 = URL req2 -> Ctx req1 = Ctx req2 ->
                       service E n req1 = service E n req2) ->
  URL req1 = URL req2 -> Ctx req1 = Ctx req2 ->
  round_trip E c req1 n t = round_trip E c req2 n t.
Proof.
  intros Hsvc Hurl Hctx. unfold round_trip.
  rewrite (Hsvc n req1 req2 Hurl Hctx), Hurl, Hctx. reflexivity.
Qed.

(** C10.  When makeRequest gets as far as sending, the line it logs holds
    the URL and the length of the serialized body and nothing else of the
    body; and two bodies of equal serialized length, sent to a service
    that answers both alike, leave the same log behind. *)
Theorem makeRequest_logs_length_only c ctx endpoint u :
  url_Parse E (apiBaseURL +:+ endpoint) = inr u ->
  (forall body b w req,
      json_Marshal E body = inr b ->
      prepared E ctx endpoint body = Some req ->
      exists rest,
        log (snd (makeRequest E c ctx endpoint body w)) =
          log w ++ Printf (Prefix (Logger c)) "Sending request to %s with body: %v\n"
                     [AString u; AInt (Z.of_nat (String.length b))] :: rest)
  /\
  (forall body1 body2 b1 b2 w,
      json_Marshal E body1 = inr b1 ->
      json_Marshal E body2 = inr b2 ->
      String.length b1 = String.length b2 ->
      (forall n req1 req2, URL req1 = URL req2 -> Ctx req1 = Ctx req2 ->
                           service E n req1 = service E n req2) ->
      log (snd (makeRequest E c ctx endpoint body1 w)) =
      log (snd (makeRequest E c ctx endpoint body2 w))).
Proof.
  intros Hu. split.
  - intros body b w req Hb. unfold prepared, makeRequest. rewrite Hu, Hb.
    destruct (http_NewRequestWithContext E ctx "POST" u b) as [e3|req0]; [discriminate|].
    intros _.
    unfold mbind, M_bind, Logger_Printf, HTTPClient_Do, defer, mret, M_ret. simpl.
    destruct (round_trip E c _ _ _) as [t' res]. simpl.
    destruct res as [err|resp]; simpl; [eexists; rewrite <- app_assoc; reflexivity|].
    destruct (non_2xx resp); simpl;
      [destruct (CloseErr resp); simpl; eexists; rewrite <- !app_assoc; reflexivity|].
    destruct (Decoded resp); simpl;
      destruct (CloseErr resp); simpl; eexists; rewrite <- !app_assoc; reflexivity.
  - intros body1 body2 b1 b2 w Hb1 Hb2 Hlen Hsvc.
    unfold makeRequest. rewrite Hu, Hb1, Hb2.
    unfold http_NewRequestWithContext.
    destruct (url_Parse E u) as [e3|u']; [reflexivity|].
    unfold mbind, M_bind, Logger_Printf, HTTPClient_Do, defer, mret, M_ret. simpl.
    rewrite Hlen.
    change (calls (add_log ?l w)) with (calls w).
    set (r1 := Header_Set {| Method := "POST"; URL := u'; Header := ∅;
                             ReqBody := b1; Ctx := ctx |} _ _).
    set (r2 := Header_Set {| Method := "POST"; URL := u'; Header := ∅;
                             ReqBody := b2; Ctx := ctx |} _ _).
    rewrite (round_trip_same c r1 r2) by (assumption || reflexivity).
    destruct (round_trip E c r2 _ _) as [t' res]. simpl.
    destruct res as [err|resp]; simpl; [reflexivity|].
    destruct (non_2xx resp); simpl; [destruct (CloseErr resp); reflexivity|].
    destruct (Decoded resp); simpl; destruct (CloseErr resp); reflexivity.
Qed.

End Transport.

(** ** The polling loops *)

Section Polling.

Context (E : Env).

Lemma SendImage_poll_eq c ctx taskID fuel w :
  SendImage_poll E fuel c ctx taskID w
  = poll_until E (SendImage_decode c) fuel c ctx taskID w.
Proof.
  revert w. induction fuel as [|fuel IH]; intros w; [reflexivity|].
  simpl. unfold mbind, M_bind.
  destruct (getTaskResult E c ctx taskID w) as [[[m [err|]]|p|] w1]; try reflexivity.
  destruct (status_ready m); [reflexivity|]. simpl. apply IH.
Qed.

Lemma SolveAndReturnSolution_poll_eq h c ctx taskID fuel w :
  SolveAndReturnSolution_poll E fuel h c ctx taskID w
  = poll_until E (SolveAndReturnSolution_decode h c) fuel c ctx taskID w.
Proof.
  revert w. induction fuel as [|fuel IH]; intros w; [reflexivity|].
  simpl. unfold mbind, M_bind.
  destruct (getTaskResult E c ctx taskID w) as [[[m [err|]]|p|] w1]; try reflexivity.
  destruct (status_ready m); [reflexivity|]. simpl. apply IH.
Qed.

Lemma delivered_answered res m :
  delivered res (m, None) ->
  exists resp, res = inr resp /\ non_2xx resp = false /\ Decoded resp = inr m.
Proof. inversion 1; subst; eauto. Qed.

Lemma delivered_error res m err :
  delivered res (m, Some err) ->
  m = ∅ /\ TransportError err /\
  ~ (exists resp m', res = inr resp /\ non_2xx resp = false /\ Decoded resp = inr m').
Proof.
  inversion 1; subst; (split; [reflexivity|]); (split; [constructor|]);
    intros (resp' & m' & ? & ? & ?); simplify_eq; congruence.
Qed.

(** Every run of getTaskResult, after [makeRequest_inv]. *)
Lemma getTaskResult_inv c ctx taskID w out w' :
  getTaskResult E c ctx taskID w = (out, w') ->
  heap w' = heap w /\
  ((prepared E ctx "/getTaskResult" (getTaskResult_body c taskID) = None /\
    trace w' = trace w /\ now w' = now w /\
    exists err, TransportError err /\
      out = Return (∅, Some (fmt_Errorf "failed to get task result: %w" err)))
   \/
   (exists req, prepared E ctx "/getTaskResult" (getTaskResult_body c taskID) = Some req /\
      let rt := round_trip E c req (length (calls w)) (now w) in
      let call := {| call_req := req; call_result := snd rt |} in
      trace w' = trace w ++ [Called call] /\ now w' = fst rt /\
      ((exists m, answered call m /\ out = Return (m, None))
       \/ ((forall m, ~ answered call m) /\
           exists err, TransportError err /\
             out = Return (∅, Some (fmt_Errorf "failed to get task result: %w" err)))))).
Proof.
  unfold getTaskResult, mbind, M_bind, Logger_Printf. simpl.
  destruct (makeRequest E c ctx _ _ _) as [o1 w1] eqn:Hmr.
  apply makeRequest_inv in Hmr as ([m oerr] & -> & Hheap & Hcases).
  change (calls (add_log ?l w)) with (calls w) in Hcases.
  simpl in Hheap, Hcases.
  destruct Hcases as [(Hprep & (err & [= -> ->] & HT) & Htr & Hnow)
                     |(req & Hprep & Htr & Hnow & Hdel)].
  - simpl. intros [= <- <-]. simpl. split; [assumption|]. left. eauto 10.
  - destruct oerr as [err|].
    + apply delivered_error in Hdel as (-> & HT & Hno).
      simpl. intros [= <- <-]. simpl. split; [assumption|]. right.
      exists req. split; [assumption|]. simpl. do 2 (split; [assumption|]).
      right. split; [|eauto].
      intros m' (resp & Hres & ? & ?). apply Hno. eauto.
    + apply delivered_answered in Hdel as (resp & Hres & ? & ?).
      simpl. intros [= <- <-]. split; [assumption|]. right.
      exists req. split; [assumption|]. simpl. do 2 (split; [assumption|]).
      left. exists m. split; [|reflexivity]. exists resp. eauto.
Qed.

Lemma answered_inj c m1 m2 : answered c m1 -> answered c m2 -> m1 = m2.
Proof. intros (r1 & ? & ? & ?) (r2 & ? & ? & ?). congruence. Qed.

Lemma calls_awaited ps : omap called (awaited ps) = ps.
Proof. induction ps as [|p ps IH]; [reflexivity|]. simpl. f_equal. exact IH. Qed.

Lemma slept_awaited ps : omap sleep_of (awaited ps) = repeat checkInterval (length ps).
Proof. induction ps as [|p ps IH]; [reflexivity|]. simpl. f_equal. exact IH. Qed.

(** The shape of every run of the loop: some polls answered "not
    ready", each followed by a sleep, and then either the fuel is spent,
    or a poll fails (possibly before it is sent), or a poll is answered
    "ready" and the decoder takes over at once. *)
Lemma poll_until_inv decode c ctx taskID fuel : forall w out w',
  poll_until E decode fuel c ctx taskID w = (out, w') ->
  exists ps, Forall pending ps /\
    ((out = OutOfFuel /\ length ps = fuel /\
      trace w' = trace w ++ awaited ps /\ heap w' = heap w)
     \/
     (exists err last, out = Return ("", Some (poll_error err)) /\ TransportError err /\
        trace w' = trace w ++ awaited ps ++ map Called last /\ heap w' = heap w /\
        (length last <= 1)%nat /\ Forall (fun cl => forall m, ~ answered cl m) last)
     \/
     (exists cl m w1, answered cl m /\ status_ready m = true /\
        trace w1 = trace w ++ awaited ps ++ [Called cl] /\ heap w1 = heap w /\
        decode m w1 = (out, w'))).
Proof.
  induction fuel as [|fuel IH]; intros w out w' Hrun.
  { injection Hrun as <- <-. exists []. split; [constructor|]. left.
    rewrite app_nil_r. auto. }
  simpl in Hrun. unfold mbind, M_bind in Hrun.
  destruct (getTaskResult E c ctx taskID w) as [o1 w1] eqn:Hget.
  apply getTaskResult_inv in Hget as (Hheap & Hcases).
  destruct Hcases as [(_ & Htr & _ & err & HT & ->)
                     |(req & _ & Htr & _ & [(m & Hans & ->)|(Hno & err & HT & ->)])];
    simpl in Hrun.
  - injection Hrun as <- <-. exists []. split; [constructor|]. right; left.
    exists err, []. simpl. rewrite app_nil_r. repeat split; auto.
  - destruct (status_ready m) eqn:Hready.
    + exists []. split; [constructor|]. right; right.
      eexists _, m, _. split; [exact Hans|]. split; [exact Hready|].
      split; [|split; [|exact Hrun]]; simpl; assumption.
    + unfold Logger_Printf, time_Sleep in Hrun. simpl in Hrun.
      apply IH in Hrun as (ps & Hps & Hshape). simpl in Hshape.
      rewrite Htr, Hheap in Hshape.
      eexists (_ :: ps). split; [constructor; [exists m; split; [exact Hans|exact Hready]|exact Hps]|].
      simpl. rewrite <- !app_assoc in Hshape. simpl in Hshape.
      destruct Hshape as [(-> & <- & ? & ?)|[(e & l & ? & ? & ? & ? & ? & ?)
                                            |(cl & m' & w2 & ? & ? & ? & ? & ?)]].
      * left. repeat split; assumption.
      * right; left. exists e, l. rewrite <- app_assoc in * |-.
        repeat split; assumption.
      * right; right. exists cl, m', w2. rewrite <- app_assoc in * |-.
        repeat (split; [assumption|]). assumption.
  - injection Hrun as <- <-. exists []. split; [constructor|]. right; left.
    eexists err, [_]. simpl. split; [reflexivity|]. split; [assumption|].
    split; [exact Htr|]. split; [assumption|]. split; [lia|].
    constructor; [exact Hno|constructor].
Qed.

End Polling.

(** ** The two operations *)

Section Operations.

Context (E : Env).

Lemma quiet_refl w : quiet w w.
Proof. repeat split. Qed.

Lemma quiet_add_log l w w' : quiet w w' -> quiet w (add_log l w').
Proof. intros H. exact H. Qed.

Lemma quiet_calls w w' : quiet w w' -> calls w' = calls w.
Proof. intros (H & _). apply calls_same, H. Qed.

Lemma after_call_trace c req w :
  trace (after_call E c req w) = trace w ++ [Called (call_of E c req w)].
Proof.
  unfold after_call, HTTPClient_Do, call_of.
  destruct (round_trip E c req _ _); reflexivity.
Qed.

Lemma after_call_now c req w :
  now (after_call E c req w) = fst (round_trip E c req (length (calls w)) (now w)).
Proof.
  unfold after_call, HTTPClient_Do. destruct (round_trip E c req _ _); reflexivity.
Qed.

Lemma after_call_heap c req w : heap (after_call E c req w) = heap w.
Proof.
  unfold after_call, HTTPClient_Do. destruct (round_trip E c req _ _); reflexivity.
Qed.

(** [makeRequest_inv] once more, in terms of [quiet] and [after_call]. *)
Lemma makeRequest_cases c ctx endpoint body w out w' :
  makeRequest E c ctx endpoint body w = (out, w') ->
  (prepared E ctx endpoint body = None /\ quiet w w' /\
   exists err, TransportError err /\ out = Return (∅, Some err))
  \/
  (exists req, prepared E ctx endpoint body = Some req /\
     quiet (after_call E c req w) w' /\
     ((exists m, answered (call_of E c req w) m /\ out = Return (m, None))
      \/ ((forall m, ~ answered (call_of E c req w) m) /\
          exists err, TransportError err /\ out = Return (∅, Some err)))).
Proof.
  intros Hmr. apply makeRequest_inv in Hmr as ([m oerr] & -> & Hheap & Hcases).
  destruct Hcases as [(Hprep & (err & [= -> ->] & HT) & Htr & Hnow)
                     |(req & Hprep & Htr & Hnow & Hdel)].
  - left. split; [assumption|]. split; [repeat split; assumption|]. eauto.
  - right. exists req. split; [assumption|].
    split; [unfold quiet; rewrite after_call_trace, after_call_now, after_call_heap;
            repeat split; assumption|].
    simpl in Hdel. destruct oerr as [err|].
    + apply delivered_error in Hdel as (-> & HT & Hno). right.
      split; [|eauto]. intros m' (resp & Hres & ? & ?). apply Hno. eauto.
    + apply delivered_answered in Hdel as (resp & Hres & ? & ?). left.
      exists m. split; [|reflexivity]. exists resp. eauto.
Qed.

Lemma after_call_add_log c req l w w' :
  quiet (after_call E c req (add_log l w)) w' -> quiet (after_call E c req w) w'.
Proof.
  unfold quiet. rewrite !after_call_trace, !after_call_now, !after_call_heap.
  intros H. exact H.
Qed.

(** The create phase is written out twice in the source, once in
    createTaskImage under SendImage and once in SolveAndReturnSolution;
    one script follows both: [makeRequest_cases] for the request, then
    the fields of the response as [create_decision] reads them. *)
Ltac create_phase :=
  match goal with
  | |- context [makeRequest ?E ?c ?ctx ?endpoint ?body ?w] =>
      let o1 := fresh "o1" in
      let w1 := fresh "w1" in
      let Hmr := fresh "Hmr" in
      let Hprep := fresh "Hprep" in
      let Hq := fresh "Hq" in
      let HT := fresh "HT" in
      let Hans := fresh "Hans" in
      let Hno := fresh "Hno" in
      let Hrun := fresh "Hrun" in
      let req := fresh "req" in
      let m := fresh "m" in
      let err := fresh "err" in
      let f := fresh "f" in
      destruct (makeRequest E c ctx endpoint body w) as [o1 w1] eqn:Hmr;
      apply makeRequest_cases in Hmr
        as [(Hprep & Hq & err & HT & ->)
           |(req & Hprep & Hq & [(m & Hans & ->)|(Hno & err & HT & ->)])];
      simpl; try apply after_call_add_log in Hq;
      [ intros [= <- <-]; left; split; [assumption|]; split; [exact Hq|]; eauto
      | intros Hrun; right; exists req; split; [assumption|]; right;
        exists m; split; [exact Hans|];
        unfold create_decision; unfold index_ok in Hrun;
        destruct (m !! "errorId") as [[| | |f| | |]|]; simpl in Hrun;
        try (injection Hrun as <- <-; split; [reflexivity|exact Hq]);
        [ destruct (negb (PrimFloat.eqb f 0)); simpl in Hrun;
          [ destruct (index m "errorDescription"); simpl in Hrun;
            injection Hrun as <- <-; split; (reflexivity || exact Hq)
          | ]
        | ];
        (destruct (float64_ok (index m "taskId")); simpl in Hrun;
         [ eexists; split; [|exact Hrun]; exact Hq
         | injection Hrun as <- <-; split; [reflexivity|exact Hq] ])
      | intros [= <- <-]; right; exists req; split; [assumption|]; left;
        split; [exact Hno|]; split; [exact Hq|]; eauto ]
  end.

(** Every run of SendImage: it fails before the create request is sent,
    or the create call is not answered, or the create response decides. *)
Lemma SendImage_cases fuel c img w out w' :
  SendImage E fuel c img w = (out, w') ->
  let ctx := {| Deadline := Some (now w + defaultTimeout) |} in
  let body := createTaskImage_body c img in
  (prepared E ctx "/createTask" body = None /\ quiet w w' /\
   exists err, TransportError err /\
     out = Return ("", Some (fmt_Errorf "failed to send image: %w"
                               (fmt_Errorf "failed to create task: %w" err))))
  \/
  (exists req, prepared E ctx "/createTask" body = Some req /\
     (((forall m, ~ answered (call_of E c req w) m) /\
       quiet (after_call E c req w) w' /\
       exists err, TransportError err /\
         out = Return ("", Some (fmt_Errorf "failed to send image: %w"
                                   (fmt_Errorf "failed to create task: %w" err))))
      \/
      (exists m, answered (call_of E c req w) m /\
         match create_decision m with
         | CreatePanic p => out = Panic p /\ quiet (after_call E c req w) w'
         | CreateAPIError d =>
             out = Return ("", Some (fmt_Errorf "failed to send image: %w" (errors_New d)))
             /\ quiet (after_call E c req w) w'
         | CreateNoTaskId =>
             out = Return ("", Some (fmt_Errorf "failed to send image: %w"
                      (errors_New "failed to retrieve taskId from response")))
             /\ quiet (after_call E c req w) w'
         | CreateTask taskID =>
             exists w1, quiet (after_call E c req w) w1 /\
               SendImage_poll E fuel c ctx taskID w1 = (out, w')
         end))).
Proof.
  unfold SendImage, context_WithTimeout, createTaskImage. simpl.
  unfold mbind, M_bind, Logger_Println. simpl.
  create_phase.
Qed.

(** Every run of SolveAndReturnSolution on an allocated task, likewise. *)
Lemma SolveAndReturnSolution_cases fuel h o w out w' :
  heap w !! h = Some o ->
  SolveAndReturnSolution E fuel h w = (out, w') ->
  let c := Client_ o in
  let ctx := {| Deadline := Some (now w + defaultTimeout) |} in
  let body := SolveAndReturnSolution_body o in
  (prepared E ctx "/createTask" body = None /\ quiet w w' /\
   exists err, TransportError err /\
     out = Return ("", Some (fmt_Errorf "failed to create task: %w" err)))
  \/
  (exists req, prepared E ctx "/createTask" body = Some req /\
     (((forall m, ~ answered (call_of E c req w) m) /\
       quiet (after_call E c req w) w' /\
       exists err, TransportError err /\
         out = Return ("", Some (fmt_Errorf "failed to create task: %w" err)))
      \/
      (exists m, answered (call_of E c req w) m /\
         match create_decision m with
         | CreatePanic p => out = Panic p /\ quiet (after_call E c req w) w'
         | CreateAPIError d =>
             out = Return ("", Some (errors_New d)) /\ quiet (after_call E c req w) w'
         | CreateNoTaskId =>
             out = Return ("", Some (errors_New "failed to retrieve taskId from response"))
             /\ quiet (after_call E c req w) w'
         | CreateTask taskID =>
             exists w1, quiet (after_call E c req w) w1 /\
               SolveAndReturnSolution_poll E fuel h c ctx taskID w1 = (out, w')
         end))).
Proof.
  intros Hh.
  unfold SolveAndReturnSolution, context_WithTimeout, load. simpl.
  unfold mbind, M_bind, Logger_Println. simpl. rewrite Hh.
  create_phase.
Qed.

(** Every run of createTaskImage. *)
Lemma createTaskImage_cases c ctx img w out w' :
  createTaskImage E c ctx img w = (out, w') ->
  let body := createTaskImage_body c img in
  (prepared E ctx "/createTask" body = None /\ quiet w w' /\
   exists err, TransportError err /\
     out = Return (0%float, Some (fmt_Errorf "failed to create task: %w" err)))
  \/
  (exists req, prepared E ctx "/createTask" body = Some req /\
     quiet (after_call E c req w) w' /\
     (((forall m, ~ answered (call_of E c req w) m) /\
       exists err, TransportError err /\
         out = Return (0%float, Some (fmt_Errorf "failed to create task: %w" err)))
      \/
      (exists m, answered (call_of E c req w) m /\
         out = match create_decision m with
               | CreatePanic p => Panic p
               | CreateAPIError d => Return (0%float, Some (errors_New d))
               | CreateNoTaskId =>
                   Return (0%float,
                           Some (errors_New "failed to retrieve taskId from response"))
               | CreateTask taskID => Return (taskID, None)
               end))).
Proof.
  unfold createTaskImage. simpl.
  unfold mbind, M_bind, Logger_Println. simpl.
  destruct (makeRequest E c _ _ _ _) as [o1 w1] eqn:Hmr.
  apply makeRequest_cases in Hmr
    as [(Hprep & Hq & err & HT & ->)
       |(req & Hprep & Hq & [(m & Hans & ->)|(Hno & err & HT & ->)])];
    simpl; try apply after_call_add_log in Hq.
  - intros [= <- <-]. left. split; [assumption|]. split; [exact Hq|]. eauto.
  - intros Hrun. right. exists req. split; [assumption|].
    unfold create_decision. unfold index_ok in Hrun.
    destruct (m !! "errorId") as [[| | |f| | |]|] eqn:Hid; simpl in Hrun;
      try (injection Hrun as <- <-; split; [exact Hq|]; right; exists m;
           split; [exact Hans|]; rewrite Hid; reflexivity).
    + destruct (negb (PrimFloat.eqb f 0)) eqn:Hf; simpl in Hrun.
      * destruct (index m "errorDescription") eqn:Hd; simpl in Hrun;
          injection Hrun as <- <-; (split; [exact Hq|]); right; exists m;
          (split; [exact Hans|]); rewrite Hid, Hf, Hd; reflexivity.
      * destruct (float64_ok (index m "taskId")) eqn:Ht; simpl in Hrun;
          injection Hrun as <- <-; (split; [exact Hq|]); right; exists m;
          (split; [exact Hans|]); rewrite Hid, Hf, Ht; reflexivity.
    + destruct (float64_ok (index m "taskId")) eqn:Ht; simpl in Hrun;
        injection Hrun as <- <-; (split; [exact Hq|]); right; exists m;
        (split; [exact Hans|]); rewrite Hid, Ht; reflexivity.
  - intros [= <- <-]. right. exists req. split; [assumption|].
    split; [exact Hq|]. left. split; [exact Hno|]. eauto.
Qed.

(** After a run that made exactly the create call, or at least it: the
    call recorded first is the one of [call_of]. *)
Lemma first_call_after c req w w' call :
  (exists rest, calls w' = calls (after_call E c req w) ++ rest) ->
  calls w' !! length (calls w) = Some call ->
  call = call_of E c req w.
Proof.
  intros (rest & Hc).
  rewrite Hc, (calls_snoc w _ _ (after_call_trace c req w)).
  rewrite <- app_assoc. rewrite lookup_app_r by lia.
  rewrite Nat.sub_diag. simpl. congruence.
Qed.

Lemma no_call_after w w' call :
  quiet w w' -> calls w' !! length (calls w) = Some call -> False.
Proof.
  intros Hq. rewrite (quiet_calls _ _ Hq). intros H.
  apply lookup_lt_Some in H. lia.
Qed.

Lemma only_call_after c req w w' :
  quiet (after_call E c req w) w' -> calls w' = calls w ++ [call_of E c req w].
Proof.
  intros Hq. rewrite (quiet_calls _ _ Hq).
  apply calls_snoc, after_call_trace.
Qed.

(** *** What the decoders do *)

Lemma format_error_taskId :
  ResponseFormatError (errors_New "failed to retrieve taskId from response").
Proof. eexists; split; [reflexivity|]. set_solver. Qed.

Lemma format_error_solution :
  ResponseFormatError (errors_New "invalid solution format in response").
Proof. eexists; split; [reflexivity|]. set_solver. Qed.

Lemma format_error_text : ResponseFormatError (errors_New "text not found in solution").
Proof. eexists; split; [reflexivity|]. set_solver. Qed.

Lemma format_error_gResponse :
  ResponseFormatError (errors_New "gRecaptchaResponse not found in solution").
Proof. eexists; split; [reflexivity|]. set_solver. Qed.

Lemma SendImage_decode_inv c m w out w' :
  SendImage_decode c m w = (out, w') ->
  quiet w w' /\
  ((exists sol text, index m "solution" = VMap sol /\ index sol "text" = VString text /\
      out = Return (text, None))
   \/ (exists e, out = Return ("", Some e) /\ ResponseFormatError e /\
         forall sol text, index m "solution" = VMap sol -> index sol "text" <> VString text)).
Proof.
  unfold SendImage_decode, mbind, M_bind, mret, M_ret, Logger_Println, Logger_Printf.
  destruct (index m "solution") as [| | | | | |sol] eqn:Hsol; simpl;
    try (intros [= <- <-]; split; [apply quiet_add_log, quiet_refl|]; right;
         eexists; split; [reflexivity|]; split; [apply format_error_solution|];
         intros ? ? [=]).
  destruct (index sol "text") as [| | | |text| |] eqn:Htext; simpl;
    try (intros [= <- <-]; split; [apply quiet_add_log, quiet_refl|]; right;
         eexists; split; [reflexivity|]; split; [apply format_error_text|];
         intros ? ? [= <-]; congruence).
  intros [= <- <-]. split; [apply quiet_add_log, quiet_refl|]. left. eauto.
Qed.

(** The HCaptcha decoder: a format error leaves the task as it is; the
    unchecked assertions on userAgent and respKey panic, the second after
    UserAgent has been written; success writes both fields. *)
Lemma SolveAndReturnSolution_decode_inv h o c m w out w' :
  heap w !! h = Some o ->
  SolveAndReturnSolution_decode h c m w = (out, w') ->
  trace w' = trace w /\ now w' = now w /\
  ((exists e, out = Return ("", Some e) /\ ResponseFormatError e /\ heap w' = heap w)
   \/
   (exists sol g, index m "solution" = VMap sol /\
      index sol "gRecaptchaResponse" = VString g /\
      ((string_ok (index sol "userAgent") = None /\
        out = Panic (TypeAssertionError (index sol "userAgent") "string") /\
        heap w' = heap w)
       \/
       (exists ua, index sol "userAgent" = VString ua /\
          string_ok (index sol "respKey") = None /\
          out = Panic (TypeAssertionError (index sol "respKey") "string") /\
          heap w' = <[h := with_UserAgent ua o]> (heap w))
       \/
       (exists ua rk, index sol "userAgent" = VString ua /\
          index sol "respKey" = VString rk /\
          out = Return (g, None) /\
          heap w' = <[h := with_RespKey rk (with_UserAgent ua o)]> (heap w))))).
Proof.
  intros Hh.
  unfold SolveAndReturnSolution_decode, mbind, M_bind, mret, M_ret, Logger_Println.
  destruct (index m "solution") as [| | | | | |sol] eqn:Hsol; simpl;
    try (intros [= <- <-]; do 2 (split; [reflexivity|]); left;
         eexists; split; [reflexivity|]; split; [apply format_error_solution|reflexivity]).
  destruct (index sol "gRecaptchaResponse") as [| | | |g| |] eqn:Hg; simpl;
    try (intros [= <- <-]; do 2 (split; [reflexivity|]); left;
         eexists; split; [reflexivity|]; split; [apply format_error_gResponse|reflexivity]).
  unfold mbind, M_bind, store, Logger_Printf.
  destruct (index sol "userAgent") as [| | | |ua| |] eqn:Hua; simpl;
    try (intros [= <- <-]; do 2 (split; [reflexivity|]); right;
         exists sol, g; split; [reflexivity|]; split; [exact Hg|]; left;
         rewrite Hua; repeat split).
  rewrite Hh.
  assert (Hh' : <[h := with_UserAgent ua o]> (heap w) !! h = Some (with_UserAgent ua o)).
  { apply list_lookup_insert_eq. apply lookup_lt_Some in Hh. exact Hh. }
  destruct (index sol "respKey") as [| | | |rk| |] eqn:Hrk; simpl;
    try (intros [= <- <-]; do 2 (split; [reflexivity|]); right;
         exists sol, g; split; [reflexivity|]; split; [exact Hg|]; right; left;
         exists ua; rewrite Hua, Hrk; repeat split).
  rewrite Hh'. intros [= <- <-]. do 2 (split; [reflexivity|]). right.
  exists sol, g. split; [reflexivity|]. split; [exact Hg|]. right; right.
  exists ua, rk. rewrite Hua, Hrk. repeat split. simpl. apply list_insert_insert_eq.
Qed.

(** A loop run only adds to the calls. *)
Lemma poll_until_calls decode c ctx taskID fuel w out w' :
  (forall m w1 o w2, decode m w1 = (o, w2) -> trace w2 = trace w1) ->
  poll_until E decode fuel c ctx taskID w = (out, w') ->
  exists rest, calls w' = calls w ++ rest.
Proof.
  intros Hdecode Hrun.
  apply poll_until_inv in Hrun as (ps & _ & Hshape).
  destruct Hshape as [(_ & _ & Htr & _)|[(e & l & _ & _ & Htr & _)
                                        |(cl & m & w1 & _ & _ & Htr & _ & Hdec)]].
  - unfold calls. rewrite Htr, omap_app. eauto.
  - unfold calls. rewrite Htr, omap_app. eauto.
  - apply Hdecode in Hdec. unfold calls. rewrite Hdec, Htr, omap_app. eauto.
Qed.

Lemma SendImage_decode_trace c m w out w' :
  SendImage_decode c m w = (out, w') -> trace w' = trace w /\ now w' = now w.
Proof. intros H. apply SendImage_decode_inv in H as ((? & ? & ?) & _). auto. Qed.

Lemma SolveAndReturnSolution_decode_trace h c m w out w' :
  SolveAndReturnSolution_decode h c m w = (out, w') ->
  trace w' = trace w /\ now w' = now w.
Proof.
  unfold SolveAndReturnSolution_decode, store, assert_string, panic, Logger_Println,
    Logger_Printf, mbind, M_bind, mret, M_ret.
  repeat (case_match; simpl in * ); intros; simplify_eq; split; reflexivity.
Qed.

Lemma SendImage_poll_calls fuel c ctx taskID w out w' :
  SendImage_poll E fuel c ctx taskID w = (out, w') ->
  exists rest, calls w' = calls w ++ rest.
Proof.
  rewrite SendImage_poll_eq. apply poll_until_calls.
  intros m w1 o w2 H. apply SendImage_decode_trace in H as [? _]. assumption.
Qed.

Lemma SolveAndReturnSolution_poll_calls fuel h c ctx taskID w out w' :
  SolveAndReturnSolution_poll E fuel h c ctx taskID w = (out, w') ->
  exists rest, calls w' = calls w ++ rest.
Proof.
  rewrite SolveAndReturnSolution_poll_eq. apply poll_until_calls.
  intros m w1 o w2 H. apply SolveAndReturnSolution_decode_trace in H as [? _]. assumption.
Qed.

Lemma quiet_prefix w1 w' : quiet w1 w' -> exists rest, calls w' = calls w1 ++ rest.
Proof. intros Hq. exists []. rewrite app_nil_r. apply quiet_calls, Hq. Qed.

(** A run of SendImage whose create call was answered with [m]: the
    response decides, and only a task identifier leads to polling. *)
Lemma SendImage_answered fuel c img w out w' call m :
  SendImage E fuel c img w = (out, w') ->
  calls w' !! length (calls w) = Some call ->
  answered call m ->
  let ctx := {| Deadline := Some (now w + defaultTimeout) |} in
  match create_decision m with
  | CreatePanic p => out = Panic p /\ calls w' = calls w ++ [call]
  | CreateAPIError d =>
      out = Return ("", Some (fmt_Errorf "failed to send image: %w" (errors_New d)))
      /\ calls w' = calls w ++ [call]
  | CreateNoTaskId =>
      out = Return ("", Some (fmt_Errorf "failed to send image: %w"
               (errors_New "failed to retrieve taskId from response")))
      /\ calls w' = calls w ++ [call]
  | CreateTask taskID =>
      exists req w1, call = call_of E c req w /\ quiet (after_call E c req w) w1 /\
        SendImage_poll E fuel c ctx taskID w1 = (out, w')
  end.
Proof.
  intros Hrun Hcall Hans.
  apply SendImage_cases in Hrun
    as [(_ & Hq & _)|(req & _ & [(Hno & Hq & _)|(m' & Hans' & Hdec)])].
  - destruct (no_call_after _ _ _ Hq Hcall).
  - apply (first_call_after c req) in Hcall; [|apply quiet_prefix, Hq].
    subst call. destruct (Hno m Hans).
  - assert (Hpre : exists rest, calls w' = calls (after_call E c req w) ++ rest).
    { destruct (create_decision m') as [p|d| |taskID];
        try (destruct Hdec as [_ Hq]; apply quiet_prefix, Hq).
      destruct Hdec as (w1 & Hq & Hpoll).
      apply SendImage_poll_calls in Hpoll as (rest & ->).
      rewrite (quiet_calls _ _ Hq). eauto. }
    apply (first_call_after c req) in Hcall; [|exact Hpre]. subst call.
    rewrite (answered_inj _ _ _ Hans Hans').
    destruct (create_decision m') as [p|d| |taskID];
      try (destruct Hdec as [-> Hq]; split; [reflexivity|apply only_call_after, Hq]).
    destruct Hdec as (w1 & Hq & Hpoll). eauto.
Qed.

(** The same for SolveAndReturnSolution. *)
Lemma SolveAndReturnSolution_answered fuel h o w out w' call m :
  heap w !! h = Some o ->
  SolveAndReturnSolution E fuel h w = (out, w') ->
  calls w' !! length (calls w) = Some call ->
  answered call m ->
  let c := Client_ o in
  let ctx := {| Deadline := Some (now w + defaultTimeout) |} in
  match create_decision m with
  | CreatePanic p => out = Panic p /\ calls w' = calls w ++ [call] /\ heap w' = heap w
  | CreateAPIError d =>
      out = Return ("", Some (errors_New d)) /\ calls w' = calls w ++ [call]
      /\ heap w' = heap w
  | CreateNoTaskId =>
      out = Return ("", Some (errors_New "failed to retrieve taskId from response"))
      /\ calls w' = calls w ++ [call] /\ heap w' = heap w
  | CreateTask taskID =>
      exists req w1, call = call_of E c req w /\ quiet (after_call E c req w) w1 /\
        SolveAndReturnSolution_poll E fuel h c ctx taskID w1 = (out, w')
  end.
Proof.
  intros Hh Hrun Hcall Hans.
  apply (SolveAndReturnSolution_cases _ _ _ _ _ _ Hh) in Hrun
    as [(_ & Hq & _)|(req & _ & [(Hno & Hq & _)|(m' & Hans' & Hdec)])].
  - destruct (no_call_after _ _ _ Hq Hcall).
  - apply (first_call_after (Client_ o) req) in Hcall; [|apply quiet_prefix, Hq].
    subst call. destruct (Hno m Hans).
  - assert (Hpre : exists rest, calls w' = calls (after_call E (Client_ o) req w) ++ rest).
    { destruct (create_decision m') as [p|d| |taskID];
        try (destruct Hdec as [_ Hq]; apply quiet_prefix, Hq).
      destruct Hdec as (w1 & Hq & Hpoll).
      apply SolveAndReturnSolution_poll_calls in Hpoll as (rest & ->).
      rewrite (quiet_calls _ _ Hq). eauto. }
    apply (first_call_after (Client_ o) req) in Hcall; [|exact Hpre]. subst call.
    rewrite (answered_inj _ _ _ Hans Hans').
    destruct (create_decision m') as [p|d| |taskID];
      try (destruct Hdec as [-> Hq]; split; [reflexivity|];
           split; [apply only_call_after, Hq|];
           destruct Hq as (_ & _ & ->); apply after_call_heap).
    destruct Hdec as (w1 & Hq & Hpoll). eauto.
Qed.

Lemma create_decision_no_taskId m :
  no_api_error m -> no_taskId m -> create_decision m = CreateNoTaskId.
Proof.
  intros Herr Hid. unfold create_decision.
  assert (Ht : float64_ok (index m "taskId") = None).
  { unfold index. destruct (m !! "taskId") as [[| | |f| | |]|] eqn:Ht; try reflexivity.
    destruct (Hid f Ht). }
  destruct Herr as [->|(f & -> & ->)]; simpl; rewrite Ht; reflexivity.
Qed.

(** C4.  When the create call is answered with a response in which
    errorId is absent or zero and taskId is absent or not a number, the
    solve operation returns a ResponseFormatError, the one for the task
    identifier, and the create call is the only call it makes: nothing is
    polled. *)
Theorem missing_taskId_is_a_format_error fuel c img h o w m :
  no_api_error m -> no_taskId m ->
  (forall out w' call,
      SendImage E fuel c img w = (out, w') ->
      calls w' !! length (calls w) = Some call -> answered call m ->
      exists err, out = Return ("", Some err) /\ ResponseFormatError err /\
        root_cause err = errors_New "failed to retrieve taskId from response" /\
        calls w' = calls w ++ [call])
  /\
  (forall out w' call,
      heap w !! h = Some o ->
      SolveAndReturnSolution E fuel h w = (out, w') ->
      calls w' !! length (calls w) = Some call -> answered call m ->
      exists err, out = Return ("", Some err) /\ ResponseFormatError err /\
        root_cause err = errors_New "failed to retrieve taskId from response" /\
        calls w' = calls w ++ [call]).
Proof.
  intros H1 H2.
  pose proof (create_decision_no_taskId m H1 H2) as Hdec.
  split.
  - intros out w' call Hrun Hcall Hans.
    pose proof (SendImage_answered _ _ _ _ _ _ _ _ Hrun Hcall Hans) as H.
    simpl in H. rewrite Hdec in H. destruct H as (-> & Hc).
    eexists. split; [reflexivity|]. split; [|split; [reflexivity|exact Hc]].
    eexists; split; [reflexivity|]. set_solver.
  - intros out w' call Hh Hrun Hcall Hans.
    pose proof (SolveAndReturnSolution_answered _ _ _ _ _ _ _ _ Hh Hrun Hcall Hans) as H.
    simpl in H. rewrite Hdec in H. destruct H as (-> & Hc & _).
    eexists. split; [reflexivity|].
    split; [apply format_error_taskId|split; [reflexivity|exact Hc]].
Qed.

(** *** The polls of a run *)

(** [poll_until_inv] with the calls spelled out: the polls answered "not
    ready", then at most one final poll. *)
Lemma poll_until_polls decode c ctx taskID fuel w out w' :
  (forall m w1 o w2, decode m w1 = (o, w2) -> trace w2 = trace w1) ->
  poll_until E decode fuel c ctx taskID w = (out, w') ->
  exists ps final,
    trace w' = trace w ++ awaited ps ++ map Called final /\
    calls w' = calls w ++ ps ++ final /\
    Forall pending ps /\
    loop_end decode (heap w) final out w'.
Proof.
  intros Hdecode Hrun.
  assert (Hcalls : forall ps final tr,
             tr = trace w ++ awaited ps ++ map Called final ->
             omap called tr = calls w ++ ps ++ final).
  { intros ps final tr ->. unfold calls. rewrite !omap_app, calls_awaited.
    do 2 f_equal. induction final as [|x l IH]; [reflexivity|]. simpl.
    f_equal. exact IH. }
  apply poll_until_inv in Hrun as (ps & Hps & Hshape).
  destruct Hshape as [(-> & Hlen & Htr & Hheap)
                     |[(e & l & -> & HT & Htr & Hheap & Hl & Hno)
                      |(cl & m & w1 & Hans & Hready & Htr & Hheap & Hdec)]].
  - exists ps, []. simpl. rewrite !app_nil_r.
    split; [exact Htr|]. split; [|split; [exact Hps|]].
    { specialize (Hcalls ps [] (trace w')). simpl in Hcalls.
      rewrite !app_nil_r in Hcalls. apply Hcalls, Htr. }
    left. auto.
  - exists ps, l. split; [exact Htr|]. split; [apply Hcalls, Htr|]. split; [exact Hps|].
    destruct l as [|cl [|? ?]]; [| |simpl in Hl; lia].
    + left. split; [reflexivity|]. split; [exact Hheap|]. right. eauto.
    + right; left. exists cl. split; [reflexivity|].
      split; [apply (Forall_inv Hno)|]. split; [exact Hheap|]. eauto.
  - exists ps, [cl]. pose proof (Hdecode _ _ _ _ Hdec) as Htr'.
    split; [rewrite Htr'; exact Htr|].
    split; [unfold calls at 1; rewrite Htr'; apply Hcalls, Htr|].
    split; [exact Hps|]. right; right. exists cl, m, w1. auto.
Qed.

(** Among the polls of a run, one that was answered "ready" is the final
    one. *)
Lemma ready_is_last (ps final : list Call) i call m :
  Forall pending ps -> (length final <= 1)%nat ->
  (ps ++ final) !! i = Some call ->
  answered call m -> status_ready m = true ->
  final = [call] /\ i = length ps.
Proof.
  intros Hps Hlen Hi Hans Hready.
  destruct (decide (i < length ps)%nat) as [Hlt|Hge].
  - rewrite lookup_app_l in Hi by exact Hlt.
    rewrite Forall_lookup in Hps. destruct (Hps _ _ Hi) as (m' & Hans' & Hnot).
    rewrite (answered_inj _ _ _ Hans Hans') in Hready. congruence.
  - rewrite lookup_app_r in Hi by lia.
    destruct final as [|x [|? ?]]; [discriminate| |simpl in Hlen; lia].
    destruct (i - length ps)%nat eqn:Hd; [|discriminate].
    simpl in Hi. injection Hi as ->. split; [reflexivity|lia].
Qed.

Lemma lookup_after {A} (l : list A) x rest i :
  (l ++ x :: rest) !! (length l + S i)%nat = rest !! i.
Proof.
  rewrite lookup_app_r by lia.
  replace (length l + S i - length l)%nat with (S i) by lia. reflexivity.
Qed.

Lemma lookup_after_end {A} (l : list A) x i : (l ++ [x]) !! (length l + S i)%nat = None.
Proof. rewrite lookup_after. reflexivity. Qed.

(** A run of SendImage that polled at all: the create call, the polls
    answered "not ready" with their sleeps, and at most one final poll. *)
Lemma SendImage_polls fuel c img w out w' i call :
  SendImage E fuel c img w = (out, w') ->
  calls w' !! (length (calls w) + S i)%nat = Some call ->
  exists c0 ps final,
    trace w' = trace w ++ Called c0 :: awaited ps ++ map Called final /\
    calls w' = calls w ++ c0 :: ps ++ final /\
    Forall pending ps /\ (length final <= 1)%nat /\
    loop_end (SendImage_decode c) (heap w) final out w'.
Proof.
  intros Hrun Hcall.
  assert (Hstop : forall req, quiet (after_call E c req w) w' -> False).
  { intros req Hq. rewrite (only_call_after _ _ _ _ Hq), lookup_after_end in Hcall.
    discriminate. }
  apply SendImage_cases in Hrun
    as [(_ & Hq & _)|(req & _ & [(_ & Hq & _)|(m & _ & Hdec)])].
  - rewrite (quiet_calls _ _ Hq) in Hcall. apply lookup_lt_Some in Hcall. lia.
  - destruct (Hstop _ Hq).
  - destruct (create_decision m) as [p|d| |taskID];
      try (destruct Hdec as [_ Hq]; destruct (Hstop _ Hq)).
    destruct Hdec as (w1 & (Htr1 & _ & Hheap1) & Hpoll).
    rewrite SendImage_poll_eq in Hpoll.
    apply poll_until_polls in Hpoll as (ps & final & Htr & Hc & Hps & Hend);
      [|intros ? ? ? ? H; apply SendImage_decode_trace in H as [? _]; assumption].
    rewrite after_call_trace in Htr1. rewrite after_call_heap in Hheap1.
    exists (call_of E c req w), ps, final.
    split; [rewrite Htr, Htr1, <- app_assoc; reflexivity|].
    split; [rewrite Hc, (calls_snoc _ _ _ Htr1), <- app_assoc; reflexivity|].
    split; [exact Hps|].
    rewrite Hheap1 in Hend. split; [|exact Hend].
    destruct Hend as [(-> & _)|[(? & -> & _)|(? & ? & ? & -> & _)]]; simpl; lia.
Qed.

(** The same for SolveAndReturnSolution. *)
Lemma SolveAndReturnSolution_polls fuel h o w out w' i call :
  heap w !! h = Some o ->
  SolveAndReturnSolution E fuel h w = (out, w') ->
  calls w' !! (length (calls w) + S i)%nat = Some call ->
  exists c0 ps final,
    trace w' = trace w ++ Called c0 :: awaited ps ++ map Called final /\
    calls w' = calls w ++ c0 :: ps ++ final /\
    Forall pending ps /\ (length final <= 1)%nat /\
    loop_end (SolveAndReturnSolution_decode h (Client_ o)) (heap w) final out w'.
Proof.
  intros Hh Hrun Hcall.
  assert (Hstop : forall req, quiet (after_call E (Client_ o) req w) w' -> False).
  { intros req Hq. rewrite (only_call_after _ _ _ _ Hq), lookup_after_end in Hcall.
    discriminate. }
  apply (SolveAndReturnSolution_cases _ _ _ _ _ _ Hh) in Hrun
    as [(_ & Hq & _)|(req & _ & [(_ & Hq & _)|(m & _ & Hdec)])].
  - rewrite (quiet_calls _ _ Hq) in Hcall. apply lookup_lt_Some in Hcall. lia.
  - destruct (Hstop _ Hq).
  - destruct (create_decision m) as [p|d| |taskID];
      try (destruct Hdec as [_ Hq]; destruct (Hstop _ Hq)).
    destruct Hdec as (w1 & (Htr1 & _ & Hheap1) & Hpoll).
    rewrite SolveAndReturnSolution_poll_eq in Hpoll.
    apply poll_until_polls in Hpoll as (ps & final & Htr & Hc & Hps & Hend);
      [|intros ? ? ? ? H; apply SolveAndReturnSolution_decode_trace in H as [? _];
        assumption].
    rewrite after_call_trace in Htr1. rewrite after_call_heap in Hheap1.
    exists (call_of E (Client_ o) req w), ps, final.
    split; [rewrite Htr, Htr1, <- app_assoc; reflexivity|].
    split; [rewrite Hc, (calls_snoc _ _ _ Htr1), <- app_assoc; reflexivity|].
    split; [exact Hps|].
    rewrite Hheap1 in Hend. split; [|exact Hend].
    destruct Hend as [(-> & _)|[(? & -> & _)|(? & ? & ? & -> & _)]]; simpl; lia.
Qed.

(** A final poll that was answered "ready" hands the run to the decoder. *)
Lemma loop_end_ready decode hp call m out w' :
  loop_end decode hp [call] out w' ->
  answered call m -> status_ready m = true ->
  exists w1, heap w1 = hp /\ decode m w1 = (out, w').
Proof.
  intros [(Hnil & _)|[(cl & [= <-] & Hno & _)|(cl & m' & w1 & [= <-] & Hans' & _ & Hh & Hd)]]
    Hans Hready.
  - discriminate.
  - destruct (Hno m Hans).
  - rewrite (answered_inj _ _ _ Hans Hans'). eauto.
Qed.

(** X5.  Never polling past readiness.  In every run of a solve operation, a
    poll that was answered with status "ready" is the last call of the
    run, and the run ends in what the decoder makes of that answer: for
    SendImage the text of the solution or a ResponseFormatError; for
    SolveAndReturnSolution the gRecaptchaResponse of the solution, a
    ResponseFormatError, or the panic of an unchecked assertion on
    userAgent or respKey. *)
Theorem never_polls_past_readiness fuel c img h o w out w' i call m :
  calls w' !! (length (calls w) + S i)%nat = Some call ->
  answered call m -> status_ready m = true ->
  (SendImage E fuel c img w = (out, w') ->
   length (calls w') = (length (calls w) + S (S i))%nat /\
   ((exists sol text, index m "solution" = VMap sol /\ index sol "text" = VString text /\
       out = Return (text, None)) \/
    (exists e, out = Return ("", Some e) /\ ResponseFormatError e)))
  /\
  (heap w !! h = Some o ->
   SolveAndReturnSolution E fuel h w = (out, w') ->
   length (calls w') = (length (calls w) + S (S i))%nat /\
   ((exists sol g, index m "solution" = VMap sol /\
       index sol "gRecaptchaResponse" = VString g /\ out = Return (g, None)) \/
    (exists e, out = Return ("", Some e) /\ ResponseFormatError e) \/
    (exists sol v, index m "solution" = VMap sol /\
       (v = index sol "userAgent" \/ v = index sol "respKey") /\ string_ok v = None /\
       out = Panic (TypeAssertionError v "string")))).
Proof.
  intros Hcall Hans Hready. split.
  - intros Hrun.
    destruct (SendImage_polls _ _ _ _ _ _ _ _ Hrun Hcall)
      as (c0 & ps & final & _ & Hc & Hps & Hlen & Hend).
    rewrite Hc, lookup_after in Hcall.
    destruct (ready_is_last _ _ _ _ _ Hps Hlen Hcall Hans Hready) as [-> ->].
    split; [rewrite Hc, length_app; simpl; rewrite length_app; simpl; lia|].
    destruct (loop_end_ready _ _ _ _ _ _ Hend Hans Hready) as (w1 & _ & Hdec).
    apply SendImage_decode_inv in Hdec
      as (_ & [(sol & text & ? & ? & ->)|(e & -> & He & _)]); eauto 10.
  - intros Hh Hrun.
    destruct (SolveAndReturnSolution_polls _ _ _ _ _ _ _ _ Hh Hrun Hcall)
      as (c0 & ps & final & _ & Hc & Hps & Hlen & Hend).
    rewrite Hc, lookup_after in Hcall.
    destruct (ready_is_last _ _ _ _ _ Hps Hlen Hcall Hans Hready) as [-> ->].
    split; [rewrite Hc, length_app; simpl; rewrite length_app; simpl; lia|].
    destruct (loop_end_ready _ _ _ _ _ _ Hend Hans Hready) as (w1 & Hh1 & Hdec).
    rewrite <- Hh1 in Hh.
    apply (SolveAndReturnSolution_decode_inv _ _ _ _ _ _ _ Hh) in Hdec
      as (_ & _ & [(e & -> & He & _)
                  |(sol & g & Hsol & Hg & [(Hua & -> & _)|[(ua & _ & Hrk & -> & _)
                                                          |(ua & rk & _ & _ & -> & _)]])]).
    + right; left. eauto.
    + right; right. exists sol, (index sol "userAgent"). auto.
    + right; right. exists sol, (index sol "respKey"). auto.
    + left. eauto.
Qed.

Lemma status_ready_true m : m !! "status" = Some (VString "ready") -> status_ready m = true.
Proof. intros H. unfold status_ready, index. rewrite H. reflexivity. Qed.

Lemma same_caller_fields_refl o : same_caller_fields o o.
Proof. repeat split. Qed.

(** *** A service that answers *)










(** *** Time and sleeps of a run *)

Lemma slept_called l : omap sleep_of (map Called l) = [].
Proof. induction l as [|x l IH]; [reflexivity|exact IH]. Qed.

Lemma SolveAndReturnSolution_nil fuel h w :
  heap w !! h = None -> SolveAndReturnSolution E fuel h w = (Panic NilDereference, w).
Proof.
  intros Hh. unfold SolveAndReturnSolution, context_WithTimeout, load, mbind, M_bind.
  simpl. rewrite Hh. reflexivity.
Qed.

Lemma after_call_slept c req w : slept (after_call E c req w) = slept w.
Proof. unfold slept. rewrite after_call_trace, omap_app. simpl. apply app_nil_r. Qed.

End Operations.

(** ** More on the runs of the two operations *)

Section Runs.

Context (E : Env).

(** *** Lookups, traces and the log *)

Lemma prepared_is_request ctx endpoint body req :
  prepared E ctx endpoint body = Some req <-> is_request E ctx endpoint body req.
Proof.
  unfold prepared, is_request, http_NewRequestWithContext, Header_Set.
  split.
  - destruct (url_Parse E (apiBaseURL +:+ endpoint)) as [?|u] eqn:H1; [discriminate|].
    destruct (json_Marshal E body) as [?|b] eqn:H2; [discriminate|].
    destruct (url_Parse E u) as [?|u'] eqn:H3; [discriminate|].
    intros [= <-]. simpl. repeat split; eauto.
  - intros (Hm & Hh & Hc & (u & H1 & H3) & H2). rewrite H1, H2, H3. simpl.
    destruct req; simpl in *. subst. reflexivity.
Qed.

Lemma index_lookup (m : gmap string Value) k v : index m k = v -> v <> VNil -> m !! k = Some v.
Proof.
  unfold index. destruct (m !! k); simpl; intros -> Hv; [reflexivity|].
  destruct (Hv eq_refl).
Qed.

Lemma status_ready_inv m : status_ready m = true -> m !! "status" = Some (VString "ready").
Proof.
  unfold status_ready. destruct (index m "status") as [| | | |s| |] eqn:Hs; try discriminate.
  simpl. intros H. apply bool_decide_eq_true in H. subst s.
  apply index_lookup; [exact Hs|discriminate].
Qed.

Lemma delivered_not_answered cl err m :
  delivered (call_result cl) (∅, Some err) -> ~ answered cl m.
Proof.
  intros Hdel (resp & Hres & Hst & Hdec).
  apply delivered_error in Hdel as (_ & _ & Hno). apply Hno. eauto.
Qed.

Lemma calls_app_awaited tr ps final :
  omap called (tr ++ awaited ps ++ map Called final) = omap called tr ++ ps ++ final.
Proof.
  rewrite !omap_app, calls_awaited. do 2 f_equal.
  induction final as [|x l IH]; [reflexivity|]. simpl. f_equal. exact IH.
Qed.

Lemma slept_awaited_app tr ps final :
  omap sleep_of (tr ++ awaited ps ++ map Called final)
  = omap sleep_of tr ++ repeat checkInterval (length ps).
Proof. rewrite !omap_app, slept_awaited, slept_called, app_nil_r. reflexivity. Qed.

Lemma calls_last_poll w' tr ps cl :
  trace w' = tr ++ awaited ps ++ [Called cl] -> last (calls w') = Some cl.
Proof.
  intros Htr. unfold calls. rewrite Htr.
  change [Called cl] with (map Called [cl]).
  rewrite (calls_app_awaited tr ps [cl]), !app_assoc. apply last_snoc.
Qed.

Lemma logs_on_refl c w : logs_on c w w.
Proof. exists []. split; [rewrite app_nil_r; reflexivity|constructor]. Qed.

Lemma logs_on_trans c w1 w2 w3 : logs_on c w1 w2 -> logs_on c w2 w3 -> logs_on c w1 w3.
Proof.
  intros (l1 & H1 & F1) (l2 & H2 & F2). exists (l1 ++ l2).
  split; [rewrite H2, H1, app_assoc; reflexivity|apply Forall_app; auto].
Qed.

Lemma logs_on_line c w w1 line :
  logs_on c w w1 -> written_by c line -> logs_on c w (add_log line w1).
Proof.
  intros (l1 & H1 & F1) Hline. exists (l1 ++ [line]). simpl.
  split; [rewrite H1, app_assoc; reflexivity|].
  apply Forall_app. split; [exact F1|constructor; [exact Hline|constructor]].
Qed.

Lemma logs_on_same c w w1 w2 : logs_on c w w1 -> log w2 = log w1 -> logs_on c w w2.
Proof. intros (l1 & H1 & F1) H. exists l1. rewrite H. auto. Qed.

Lemma reported_line w line e : names line e -> reported (add_log line w) e.
Proof. intros H. exists line. split; [apply last_snoc|exact H]. Qed.

(** The world is given in full: its log is the old one and some lines
    of the logger of [c]. *)
Ltac logged :=
  first
    [ apply logs_on_refl
    | eapply logs_on_same; [apply logs_on_refl|reflexivity]
    | eexists; split;
      [ simpl; rewrite <- ?app_assoc; simpl; reflexivity
      | repeat constructor ] ].

(** The world is some lines of the logger of [c] after [w1], which is
    known to be some lines after a world given in full. *)
Ltac logged_after H :=
  repeat (apply logs_on_line; [|reflexivity]);
  (eapply logs_on_trans; [|exact H]); logged.

(** makeRequest writes to the log through the logger of its client
    only. *)
Lemma makeRequest_logs c ctx endpoint body w out w' :
  makeRequest E c ctx endpoint body w = (out, w') -> logs_on c w w'.
Proof.
  unfold makeRequest.
  destruct (url_Parse E (apiBaseURL +:+ endpoint)) as [e1|u].
  { intros [= <- <-]. logged. }
  destruct (json_Marshal E body) as [e2|b].
  { intros [= <- <-]. logged. }
  destruct (http_NewRequestWithContext E ctx "POST" u b) as [e3|req].
  { intros [= <- <-]. logged. }
  unfold mbind, M_bind, Logger_Printf, HTTPClient_Do, defer, mret, M_ret. simpl.
  destruct (round_trip E c _ _ _) as [t' res].
  destruct res as [err|resp]; simpl.
  { intros [= <- <-]. logged. }
  destruct (non_2xx resp), (Decoded resp), (CloseErr resp); simpl;
    intros [= <- <-]; logged.
Qed.

(** *** The decoders and the create response *)

(** Neither decoder touches the trace, and neither runs out of fuel: there
    is no loop in them. *)
Lemma SendImage_decode_ends c m w out w' :
  SendImage_decode c m w = (out, w') -> trace w' = trace w /\ out <> OutOfFuel.
Proof.
  intros H. apply SendImage_decode_inv in H
    as ((? & _) & [(? & ? & _ & _ & ->)|(? & -> & _)]); split; auto; discriminate.
Qed.

Lemma SendImage_decode_error c m w s e w' :
  SendImage_decode c m w = (Return (s, Some e), w') ->
  s = "" /\ solution_error "text" "text not found in solution" m e.
Proof.
  unfold SendImage_decode, solution_error, mbind, M_bind, mret, M_ret, Logger_Println,
    Logger_Printf.
  destruct (index m "solution") as [| | | | | |sol] eqn:Hsol; simpl;
    try (intros [= <- <-]; split; [reflexivity|]; left; split; reflexivity).
  destruct (index sol "text") as [| | | |text| |] eqn:Htext; simpl;
    try (intros [= <- <-]; split; [reflexivity|]; right; exists sol;
         split; [apply index_lookup; [exact Hsol|discriminate]|];
         rewrite Htext; split; reflexivity).
  discriminate.
Qed.

Lemma SendImage_decode_logs c m w out w' :
  SendImage_decode c m w = (out, w') ->
  logs_on c w w' /\ forall s e, out = Return (s, Some e) -> reported w' e.
Proof.
  unfold SendImage_decode, mbind, M_bind, mret, M_ret, Logger_Println, Logger_Printf.
  destruct (index m "solution") as [| | | | | |sol]; simpl;
    try (intros [= <- <-]; split; [logged|];
         intros ? ? [= <- <-]; apply reported_line; constructor; exact eq_refl).
  destruct (index sol "text") as [| | | |text| |]; simpl;
    try (intros [= <- <-]; split; [logged|];
         intros ? ? [= <- <-]; apply reported_line; constructor; exact eq_refl).
Qed.

Lemma SolveAndReturnSolution_decode_run h c m w out w' :
  SolveAndReturnSolution_decode h c m w = (out, w') ->
  trace w' = trace w /\ out <> OutOfFuel /\ logs_on c w w' /\
  forall s e, out = Return (s, Some e) ->
    s = "" /\
    solution_error "gRecaptchaResponse" "gRecaptchaResponse not found in solution" m e /\
    reported w' e.
Proof.
  unfold SolveAndReturnSolution_decode, solution_error, mbind, M_bind, mret, M_ret,
    Logger_Println.
  destruct (index m "solution") as [| | | | | |sol] eqn:Hsol; simpl;
    try (intros [= <- <-]; split; [reflexivity|]; split; [discriminate|];
         split; [logged|]; intros ? ? [= <- <-]; split; [reflexivity|];
         split; [left; split; reflexivity|];
         apply reported_line; constructor; exact eq_refl).
  destruct (index sol "gRecaptchaResponse") as [| | | |g| |] eqn:Hg; simpl;
    try (intros [= <- <-]; split; [reflexivity|]; split; [discriminate|];
         split; [logged|]; intros ? ? [= <- <-]; split; [reflexivity|];
         split; [right; exists sol; split; [apply index_lookup; [exact Hsol|discriminate]|];
                 rewrite Hg; split; reflexivity|];
         apply reported_line; constructor; exact eq_refl).
  unfold store, assert_string, panic, Logger_Printf, mbind, M_bind, mret, M_ret.
  destruct (index sol "userAgent") as [| | | |ua| |]; simpl;
    try (intros [= <- <-]; split; [reflexivity|]; split; [discriminate|];
         split; [logged|discriminate]).
  destruct (heap w !! h) as [o|]; simpl;
    [|intros [= <- <-]; split; [reflexivity|]; split; [discriminate|];
      split; [logged|discriminate]].
  destruct (index sol "respKey") as [| | | |rk| |]; simpl;
    try (intros [= <- <-]; split; [reflexivity|]; split; [discriminate|];
         split; [logged|discriminate]).
  destruct (<[h:=with_UserAgent ua o]> (heap w) !! h); simpl;
    intros [= <- <-]; (split; [reflexivity|]); (split; [discriminate|]);
    (split; [logged|discriminate]).
Qed.

Lemma SolveAndReturnSolution_decode_ends h c m w out w' :
  SolveAndReturnSolution_decode h c m w = (out, w') ->
  trace w' = trace w /\ out <> OutOfFuel.
Proof. intros H. apply SolveAndReturnSolution_decode_run in H as (? & ? & _). auto. Qed.

Lemma SolveAndReturnSolution_decode_error h c m w s e w' :
  SolveAndReturnSolution_decode h c m w = (Return (s, Some e), w') ->
  s = "" /\
  solution_error "gRecaptchaResponse" "gRecaptchaResponse not found in solution" m e.
Proof.
  intros H. apply SolveAndReturnSolution_decode_run in H as (_ & _ & _ & H).
  destruct (H s e eq_refl) as (? & ? & _). auto.
Qed.

Lemma SolveAndReturnSolution_decode_logs h c m w out w' :
  SolveAndReturnSolution_decode h c m w = (out, w') ->
  logs_on c w w' /\ forall s e, out = Return (s, Some e) -> reported w' e.
Proof.
  intros H. apply SolveAndReturnSolution_decode_run in H as (_ & _ & Hlog & H).
  split; [exact Hlog|]. intros s e He. destruct (H s e He) as (_ & _ & ?). assumption.
Qed.

Lemma create_decision_inv m :
  match create_decision m with
  | CreatePanic p => create_assertion_fails m p
  | CreateAPIError d => reports_api_error m d
  | CreateNoTaskId => no_api_error m /\ no_taskId m
  | CreateTask taskID => no_api_error m /\ m !! "taskId" = Some (VFloat64 taskID)
  end.
Proof.
  unfold create_decision, create_assertion_fails, reports_api_error, no_api_error,
    no_taskId.
  assert (Hno : float64_ok (index m "taskId") = None ->
                forall f, m !! "taskId" <> Some (VFloat64 f)).
  { unfold index. intros H f Hf. rewrite Hf in H. discriminate. }
  assert (Hid : forall t, float64_ok (index m "taskId") = Some t ->
                m !! "taskId" = Some (VFloat64 t)).
  { unfold index. intros t. destruct (m !! "taskId") as [[| | |t'| | |]|]; simpl;
      try discriminate. intros [= ->]. reflexivity. }
  destruct (m !! "errorId") as [[| | |f| | |]|] eqn:Hid';
    try (left; eexists; split; [reflexivity|]; split; reflexivity).
  - destruct (PrimFloat.eqb f 0) eqn:Hf; simpl.
    + destruct (float64_ok (index m "taskId")) as [t|] eqn:Ht.
      * split; [right; eauto|apply Hid; reflexivity].
      * split; [right; eauto|apply Hno; reflexivity].
    + destruct (index m "errorDescription") as [| | | |d| |] eqn:Hd; simpl;
        try (right; exists f; repeat split; assumption).
      split; [eauto|]. apply index_lookup; [exact Hd|discriminate].
  - destruct (float64_ok (index m "taskId")) as [t|] eqn:Ht.
    + split; [left; reflexivity|apply Hid; reflexivity].
    + split; [left; reflexivity|apply Hno; reflexivity].
Qed.

Lemma create_decision_taskId m taskID :
  create_decision m = CreateTask taskID ->
  no_api_error m /\ m !! "taskId" = Some (VFloat64 taskID).
Proof. intros H. pose proof (create_decision_inv m) as Hinv. rewrite H in Hinv. exact Hinv. Qed.

(** *** The loop *)

(** Every run of getTaskResult, with the error that makeRequest
    delivered. *)
Lemma getTaskResult_run c ctx taskID w out w' :
  getTaskResult E c ctx taskID w = (out, w') ->
  heap w' = heap w /\
  ((prepared E ctx "/getTaskResult" (getTaskResult_body c taskID) = None /\
    trace w' = trace w /\ now w' = now w /\
    exists err, TransportError err /\
      out = Return (∅, Some (fmt_Errorf "failed to get task result: %w" err)))
   \/
   (exists req, prepared E ctx "/getTaskResult" (getTaskResult_body c taskID) = Some req /\
      let rt := round_trip E c req (length (calls w)) (now w) in
      let call := {| call_req := req; call_result := snd rt |} in
      trace w' = trace w ++ [Called call] /\ now w' = fst rt /\
      ((exists m, answered call m /\ out = Return (m, None))
       \/ (exists err, delivered (snd rt) (∅, Some err) /\
             out = Return (∅, Some (fmt_Errorf "failed to get task result: %w" err)))))).
Proof.
  unfold getTaskResult, mbind, M_bind, Logger_Printf. simpl.
  destruct (makeRequest E c ctx _ _ _) as [o1 w1] eqn:Hmr.
  apply makeRequest_inv in Hmr as ([m oerr] & -> & Hheap & Hcases).
  change (calls (add_log ?l w)) with (calls w) in Hcases.
  simpl in Hheap, Hcases.
  destruct Hcases as [(Hprep & (err & [= -> ->] & HT) & Htr & Hnow)
                     |(req & Hprep & Htr & Hnow & Hdel)].
  - simpl. intros [= <- <-]. simpl. split; [assumption|]. left. eauto 10.
  - destruct oerr as [err|].
    + pose proof (delivered_error _ _ _ Hdel) as (-> & HT & Hno).
      simpl. intros [= <- <-]. simpl. split; [assumption|]. right.
      exists req. split; [assumption|]. simpl. do 2 (split; [assumption|]).
      right. eauto.
    + apply delivered_answered in Hdel as (resp & Hres & ? & ?).
      simpl. intros [= <- <-]. split; [assumption|]. right.
      exists req. split; [assumption|]. simpl. do 2 (split; [assumption|]).
      left. exists m. split; [|reflexivity]. exists resp. eauto.
Qed.

Lemma getTaskResult_logs c ctx taskID w out w' :
  getTaskResult E c ctx taskID w = (out, w') ->
  logs_on c w w' /\ exists r, out = Return r.
Proof.
  unfold getTaskResult, mbind, M_bind, Logger_Printf. simpl.
  destruct (makeRequest E c ctx _ _ _) as [o1 w1] eqn:Hmr.
  pose proof Hmr as Hlog. apply makeRequest_logs in Hlog.
  apply makeRequest_inv in Hmr as ([m [err|]] & -> & _); simpl;
    intros [= <- <-]; (split; [logged_after Hlog|eauto]).
Qed.

(** Every run of the loop, with the requests and the reasons: the polls
    answered "not ready" all carry the request of getTaskResult for
    [taskID]; then the fuel is spent, or that request cannot be built (and
    then nothing was polled at all), or a last poll with that request
    fails, or a last poll with that request is answered "ready". *)
Lemma poll_until_run decode c ctx taskID fuel : forall w out w',
  poll_until E decode fuel c ctx taskID w = (out, w') ->
  exists ps, Forall (waiting_poll E c ctx taskID) ps /\
    ((out = OutOfFuel /\ length ps = fuel /\
      trace w' = trace w ++ awaited ps /\ heap w' = heap w)
     \/
     (prepared E ctx "/getTaskResult" (getTaskResult_body c taskID) = None /\ ps = [] /\
      trace w' = trace w /\ heap w' = heap w /\
      exists err, TransportError err /\ out = Return ("", Some (poll_error err)))
     \/
     (exists cl err,
        prepared E ctx "/getTaskResult" (getTaskResult_body c taskID) = Some (call_req cl) /\
        delivered (call_result cl) (∅, Some err) /\
        trace w' = trace w ++ awaited ps ++ [Called cl] /\ heap w' = heap w /\
        out = Return ("", Some (poll_error err)))
     \/
     (exists cl m w1,
        prepared E ctx "/getTaskResult" (getTaskResult_body c taskID) = Some (call_req cl) /\
        answered cl m /\ status_ready m = true /\
        trace w1 = trace w ++ awaited ps ++ [Called cl] /\ heap w1 = heap w /\
        decode m w1 = (out, w'))).
Proof.
  induction fuel as [|fuel IH]; intros w out w' Hrun.
  { injection Hrun as <- <-. exists []. split; [constructor|]. left.
    rewrite app_nil_r. auto. }
  simpl in Hrun. unfold mbind, M_bind in Hrun.
  destruct (getTaskResult E c ctx taskID w) as [o1 w1] eqn:Hget.
  apply getTaskResult_run in Hget as (Hheap & Hcases).
  destruct Hcases as [(Hprep & Htr & _ & err & HT & ->)
                     |(req & Hprep & Htr & _ & [(m & Hans & ->)|(err & Hdel & ->)])];
    simpl in Hrun.
  - injection Hrun as <- <-. exists []. split; [constructor|]. right; left.
    simpl. repeat split; try assumption. eauto.
  - match type of Htr with context [Called ?x] => set (cl := x) in * end.
    destruct (status_ready m) eqn:Hready.
    + exists []. split; [constructor|]. right; right; right.
      exists cl, m. eexists. split; [exact Hprep|]. split; [exact Hans|].
      split; [exact Hready|]. split; [|split; [|exact Hrun]]; simpl; assumption.
    + unfold Logger_Printf, time_Sleep in Hrun. simpl in Hrun.
      apply IH in Hrun as (ps & Hps & Hshape). simpl in Hshape.
      rewrite Htr, Hheap in Hshape.
      exists (cl :: ps).
      split; [constructor; [split; [exact Hprep|exists m; split; [exact Hans|exact Hready]]
                           |exact Hps]|].
      simpl. rewrite <- !app_assoc in Hshape. simpl in Hshape.
      destruct Hshape as [(-> & <- & ? & ?)
                         |[(Hnone & _)
                          |[(cl' & e & ? & ? & ? & ? & ?)
                           |(cl' & m' & w2 & ? & ? & ? & ? & ? & ?)]]].
      * left. repeat split; assumption.
      * congruence.
      * right; right; left. exists cl', e. rewrite <- app_assoc in * |-.
        repeat (split; [assumption|]). assumption.
      * right; right; right. exists cl', m', w2. rewrite <- app_assoc in * |-.
        repeat (split; [assumption|]). assumption.
  - injection Hrun as <- <-. exists []. split; [constructor|]. right; right; left.
    match type of Htr with context [Called ?x] => exists x, err end.
    simpl. split; [exact Hprep|]. split; [exact Hdel|].
    repeat split; assumption.
Qed.

Lemma waiting_poll_request c ctx taskID ps :
  Forall (waiting_poll E c ctx taskID) ps ->
  Forall (fun p => is_request E ctx "/getTaskResult" (getTaskResult_body c taskID)
                     (call_req p)) ps.
Proof.
  intros H. eapply Forall_impl; [exact H|].
  intros p [Hp _]. apply prepared_is_request, Hp.
Qed.

(** The calls of a loop run, all with the request of getTaskResult. *)
Lemma poll_until_requests decode c ctx taskID fuel w out w' :
  (forall m w1 o w2, decode m w1 = (o, w2) -> trace w2 = trace w1) ->
  poll_until E decode fuel c ctx taskID w = (out, w') ->
  exists polls, calls w' = calls w ++ polls /\
    Forall (fun p => is_request E ctx "/getTaskResult" (getTaskResult_body c taskID)
                       (call_req p)) polls.
Proof.
  intros Hdecode Hrun.
  apply poll_until_run in Hrun as (ps & Hps & Hshape).
  apply waiting_poll_request in Hps.
  destruct Hshape as [(_ & _ & Htr & _)
                     |[(_ & -> & Htr & _)
                      |[(cl & err & Hprep & _ & Htr & _)
                       |(cl & m & w1 & Hprep & _ & _ & Htr & _ & Hdec)]]].
  - exists ps. split; [|exact Hps].
    unfold calls. rewrite Htr, omap_app, calls_awaited. reflexivity.
  - exists []. split; [|constructor]. unfold calls. rewrite Htr, app_nil_r. reflexivity.
  - exists (ps ++ [cl]). split.
    + unfold calls. rewrite Htr. apply (calls_app_awaited _ ps [cl]).
    + apply Forall_app. split; [exact Hps|].
      constructor; [apply prepared_is_request, Hprep|constructor].
  - exists (ps ++ [cl]). split.
    + unfold calls. rewrite (Hdecode _ _ _ _ Hdec), Htr.
      apply (calls_app_awaited _ ps [cl]).
    + apply Forall_app. split; [exact Hps|].
      constructor; [apply prepared_is_request, Hprep|constructor].
Qed.

(** With [n] check intervals or less to the deadline, a loop run sleeps
    [n] times at most: a poll is answered before the deadline only, and
    every sleep brings the clock one interval closer. *)
Lemma poll_until_bound decode c ctx taskID d :
  (forall m w1 o w2, decode m w1 = (o, w2) -> trace w2 = trace w1) ->
  Deadline ctx = Some d ->
  forall fuel n w out w',
    d - now w <= Z.of_nat n * checkInterval ->
    poll_until E decode fuel c ctx taskID w = (out, w') ->
    (length (slept w') <= length (slept w) + n)%nat.
Proof.
  intros Hdecode Hd.
  assert (Hci : checkInterval = 2000000000) by reflexivity.
  induction fuel as [|fuel IH]; intros n w out w' Hn Hrun.
  { injection Hrun as <- <-. lia. }
  simpl in Hrun. unfold mbind, M_bind in Hrun.
  destruct (getTaskResult E c ctx taskID w) as [o1 w1] eqn:Hget.
  apply getTaskResult_run in Hget as (_ & Hcases).
  destruct Hcases as [(_ & Htr & _ & err & _ & ->)
                     |(req & Hprep & Htr & Hnow1 & [(m & Hans & ->)|(err & _ & ->)])];
    simpl in Hrun.
  - injection Hrun as <- <-. unfold slept. simpl. rewrite Htr. lia.
  - assert (Hs1 : slept w1 = slept w).
    { unfold slept. rewrite Htr, omap_app. simpl. apply app_nil_r. }
    destruct (status_ready m) eqn:Hready.
    + apply Hdecode in Hrun. unfold slept at 1. rewrite Hrun. simpl.
      fold (slept w1). rewrite Hs1. lia.
    + apply prepared_Ctx in Hprep.
      destruct Hans as (resp & Hres & _ & _). simpl in Hres.
      apply round_trip_inr in Hres as (_ & Hlt).
      specialize (Hlt d). rewrite Hprep in Hlt. specialize (Hlt Hd).
      pose proof (round_trip_le E c req (length (calls w)) (now w)) as Hle.
      destruct n as [|n]; [simpl in Hn; lia|].
      unfold Logger_Printf, time_Sleep in Hrun. simpl in Hrun.
      apply (IH n) in Hrun.
      * unfold slept at 2 in Hrun. simpl in Hrun. rewrite omap_app in Hrun.
        simpl in Hrun. fold (slept w1) in Hrun. rewrite Hs1, length_app in Hrun.
        simpl in Hrun. lia.
      * simpl. rewrite Hnow1. lia.
  - injection Hrun as <- <-. unfold slept. simpl. rewrite Htr, omap_app. simpl.
    rewrite app_nil_r. lia.
Qed.

(** A loop run that starts [n] check intervals or less before the
    deadline: at most [n] sleeps and [n + 1] polls, and with fuel for
    more than [n] iterations the fuel is not spent. *)
Lemma poll_until_ends decode c ctx taskID d fuel n w out w' :
  (forall m w1 o w2, decode m w1 = (o, w2) -> trace w2 = trace w1 /\ o <> OutOfFuel) ->
  Deadline ctx = Some d ->
  d - now w <= Z.of_nat n * checkInterval ->
  poll_until E decode fuel c ctx taskID w = (out, w') ->
  (length (slept w') <= length (slept w) + n)%nat /\
  (length (calls w') <= length (calls w) + S n)%nat /\
  ((n < fuel)%nat -> out <> OutOfFuel).
Proof.
  intros Hdecode Hd Hn Hrun.
  assert (Hdecode' : forall m w1 o w2, decode m w1 = (o, w2) -> trace w2 = trace w1).
  { intros ? ? ? ? H. apply Hdecode in H as [? _]. assumption. }
  pose proof (poll_until_bound _ _ _ _ _ Hdecode' Hd _ _ _ _ _ Hn Hrun) as Hb.
  split; [exact Hb|].
  apply poll_until_run in Hrun as (ps & _ & Hshape).
  destruct Hshape as [(-> & Hlen & Htr & _)
                     |[(_ & -> & Htr & _ & err & _ & ->)
                      |[(cl & err & _ & _ & Htr & _ & ->)
                       |(cl & m & w1 & _ & _ & _ & Htr & _ & Hdec)]]].
  - pose proof (slept_awaited_app (trace w) ps []) as Hs.
    pose proof (calls_app_awaited (trace w) ps []) as Hc.
    simpl in Hs, Hc. rewrite app_nil_r in Hs, Hc.
    unfold slept, calls in *. rewrite Htr in *. rewrite Hs in Hb. rewrite Hc.
    rewrite length_app, repeat_length in Hb. rewrite !length_app. simpl.
    split; [lia|]. intros Hlt _. lia.
  - unfold calls. rewrite Htr. split; [lia|discriminate].
  - pose proof (slept_awaited_app (trace w) ps [cl]) as Hs.
    pose proof (calls_app_awaited (trace w) ps [cl]) as Hc.
    change (map Called [cl]) with [Called cl] in Hs, Hc.
    unfold slept, calls in *. rewrite Htr in *. rewrite Hs in Hb. rewrite Hc.
    rewrite length_app, repeat_length in Hb. rewrite !length_app. simpl.
    split; [lia|discriminate].
  - pose proof (slept_awaited_app (trace w) ps [cl]) as Hs.
    pose proof (calls_app_awaited (trace w) ps [cl]) as Hc.
    change (map Called [cl]) with [Called cl] in Hs, Hc.
    destruct (Hdecode _ _ _ _ Hdec) as [Htr' Hout].
    unfold slept, calls in *. rewrite Htr', Htr in *. rewrite Hs in Hb. rewrite Hc.
    rewrite length_app, repeat_length in Hb. rewrite !length_app. simpl.
    split; [lia|]. intros _. exact Hout.
Qed.

(** A loop run writes through the logger of its client only, and the
    error it returns is named by the last line, if the decoder does as
    much. *)
Lemma poll_until_logs decode c ctx taskID fuel :
  (forall m w1 o w2, decode m w1 = (o, w2) ->
     logs_on c w1 w2 /\ forall s e, o = Return (s, Some e) -> reported w2 e) ->
  forall w out w',
    poll_until E decode fuel c ctx taskID w = (out, w') ->
    logs_on c w w' /\ forall s e, out = Return (s, Some e) -> reported w' e.
Proof.
  intros Hdecode.
  induction fuel as [|fuel IH]; intros w out w' Hrun.
  { injection Hrun as <- <-. split; [apply logs_on_refl|discriminate]. }
  simpl in Hrun. unfold mbind, M_bind in Hrun.
  destruct (getTaskResult E c ctx taskID w) as [o1 w1] eqn:Hget.
  apply getTaskResult_logs in Hget as (Hlog & [m [err|]] & ->); simpl in Hrun.
  - injection Hrun as <- <-. split; [logged_after Hlog|].
    intros s e [= <- <-]. apply reported_line. constructor.
  - destruct (status_ready m).
    + unfold Logger_Printf in Hrun. simpl in Hrun.
      apply Hdecode in Hrun as [Hlog2 Hrep]. split; [|exact Hrep].
      eapply logs_on_trans; [|exact Hlog2]. logged_after Hlog.
    + unfold Logger_Printf, time_Sleep in Hrun. simpl in Hrun.
      apply IH in Hrun as [Hlog2 Hrep]. split; [|exact Hrep].
      eapply logs_on_trans; [|exact Hlog2].
      eapply logs_on_same; [|reflexivity]. logged_after Hlog.
Qed.

(** *** Both operations as one *)

Lemma SendImage_operation fuel c img w out w' :
  SendImage E fuel c img w = (out, w') ->
  operation_run E (SendImage_decode c) (fmt_Errorf "failed to send image: %w") c
    (createTaskImage_body c img) fuel w out w'.
Proof.
  intros Hrun. apply SendImage_cases in Hrun. unfold operation_run.
  destruct Hrun as [H|(req & Hprep & [H|(m & Hans & Hdec)])]; [left; exact H|right..].
  - exists req. split; [exact Hprep|]. left. exact H.
  - exists req. split; [exact Hprep|]. right. exists m. split; [exact Hans|].
    destruct (create_decision m); try exact Hdec.
    destruct Hdec as (w1 & Hq & Hpoll). rewrite SendImage_poll_eq in Hpoll. eauto.
Qed.

Lemma SolveAndReturnSolution_operation fuel h o w out w' :
  heap w !! h = Some o ->
  SolveAndReturnSolution E fuel h w = (out, w') ->
  operation_run E (SolveAndReturnSolution_decode h (Client_ o)) (fun e => e) (Client_ o)
    (SolveAndReturnSolution_body o) fuel w out w'.
Proof.
  intros Hh Hrun.
  pose proof (SolveAndReturnSolution_cases _ _ _ _ _ _ _ Hh Hrun) as Hcases.
  cbv zeta in Hcases. unfold operation_run.
  destruct Hcases as [H|(req & Hprep & [H|(m & Hans & Hdec)])]; [left; exact H|right..].
  - exists req. split; [exact Hprep|]. left. exact H.
  - exists req. split; [exact Hprep|]. right. exists m. split; [exact Hans|].
    destruct (create_decision m); try exact Hdec.
    destruct Hdec as (w1 & Hq & Hpoll).
    rewrite SolveAndReturnSolution_poll_eq in Hpoll. eauto.
Qed.

(** *** The requests of a run *)

Lemma operation_requests decode wrap c body fuel w out w' :
  (forall m w1 o w2, decode m w1 = (o, w2) -> trace w2 = trace w1) ->
  operation_run E decode wrap c body fuel w out w' ->
  let ctx := {| Deadline := Some (now w + defaultTimeout) |} in
  calls w' = calls w \/
  exists c0 polls, calls w' = calls w ++ c0 :: polls /\
    is_request E ctx "/createTask" body (call_req c0) /\
    (polls = [] \/
     exists m taskID, answered c0 m /\ m !! "taskId" = Some (VFloat64 taskID) /\
       Forall (fun p => is_request E ctx "/getTaskResult" (getTaskResult_body c taskID)
                          (call_req p)) polls).
Proof.
  intros Hdecode Hrun ctx.
  destruct Hrun as [(_ & Hq & _)|(req & Hprep & [(_ & Hq & _)|(m & Hans & Hdec)])].
  - left. apply quiet_calls, Hq.
  - right. exists (call_of E c req w), [].
    split; [apply only_call_after, Hq|].
    split; [apply prepared_is_request, Hprep|left; reflexivity].
  - right. exists (call_of E c req w).
    destruct (create_decision m) as [p|d| |taskID] eqn:Hcd;
      try (destruct Hdec as [_ Hq]; exists [];
           split; [apply only_call_after, Hq|];
           split; [apply prepared_is_request, Hprep|left; reflexivity]).
    destruct Hdec as (w1 & Hq & Hpoll).
    apply poll_until_requests in Hpoll as (polls & Hc & Hreq); [|exact Hdecode].
    exists polls. rewrite Hc, (only_call_after _ _ _ _ _ Hq), <- app_assoc.
    split; [reflexivity|]. split; [apply prepared_is_request, Hprep|].
    right. exists m, taskID. split; [exact Hans|].
    split; [apply create_decision_taskId, Hcd|exact Hreq].
Qed.

(** X1.  The requests of a run of SendImage.  Every request is a POST with
    the one header Content-Type: application/json, under the context of
    the run, whose deadline is sixty seconds after the start of the run.
    The first goes to /createTask with the body
    {clientKey: APIKey, task: {type: "ImageToTextTask", body: img}};
    every later one goes to /getTaskResult with the body
    {clientKey: APIKey, taskId: taskID}, where taskID is the taskId of the
    create response. *)
Theorem SendImage_requests fuel c img w out w' :
  SendImage E fuel c img w = (out, w') ->
  let ctx := {| Deadline := Some (now w + 60000000000) |} in
  calls w' = calls w \/
  exists c0 polls, calls w' = calls w ++ c0 :: polls /\
    is_request E ctx "/createTask"
      (VMap (<["clientKey" := VString (APIKey c)]>
            (<["task" := VMap (<["type" := VString "ImageToTextTask"]>
                              (<["body" := VString img]> ∅))]> ∅)))
      (call_req c0) /\
    (polls = [] \/
     exists m taskID, answered c0 m /\ m !! "taskId" = Some (VFloat64 taskID) /\
       Forall (fun p => is_request E ctx "/getTaskResult"
                          (VMap (<["clientKey" := VString (APIKey c)]>
                                (<["taskId" := VFloat64 taskID]> ∅)))
                          (call_req p)) polls).
Proof.
  intros Hrun. apply SendImage_operation in Hrun.
  apply operation_requests in Hrun; [exact Hrun|].
  intros ? ? ? ? H. apply SendImage_decode_ends in H as [? _]. assumption.
Qed.

(** X2.  The requests of a run of SolveAndReturnSolution on the task [o]:
    as for SendImage, under a deadline of sixty seconds and with the API
    key of the task's client.  The create request carries the body
    {clientKey, task: {type: "HCaptchaTaskProxyless", websiteURL,
    websiteKey, isInvisible, isEnterprise, enterprisePayload}, softId}
    with the fields of the task as they are when the run starts, the
    enterprise payload being its map, or null when that map is nil; every
    later request goes to /getTaskResult with {clientKey, taskId}. *)
Theorem SolveAndReturnSolution_requests fuel h o w out w' :
  heap w !! h = Some o ->
  SolveAndReturnSolution E fuel h w = (out, w') ->
  let ctx := {| Deadline := Some (now w + 60000000000) |} in
  calls w' = calls w \/
  exists c0 polls, calls w' = calls w ++ c0 :: polls /\
    is_request E ctx "/createTask"
      (VMap (<["clientKey" := VString (APIKey (Client_ o))]>
            (<["task" := VMap (<["type" := VString "HCaptchaTaskProxyless"]>
                              (<["websiteURL" := VString (WebsiteURL o)]>
                              (<["websiteKey" := VString (WebsiteKey o)]>
                              (<["isInvisible" := VBool (IsInvisible o)]>
                              (<["isEnterprise" := VBool (IsEnterprise o)]>
                              (<["enterprisePayload" :=
                                   match EnterprisePayload o with
                                   | Some payload => VMap payload
                                   | None => VNil
                                   end]> ∅))))))]>
            (<["softId" := VInt (SoftID o)]> ∅))))
      (call_req c0) /\
    (polls = [] \/
     exists m taskID, answered c0 m /\ m !! "taskId" = Some (VFloat64 taskID) /\
       Forall (fun p => is_request E ctx "/getTaskResult"
                          (VMap (<["clientKey" := VString (APIKey (Client_ o))]>
                                (<["taskId" := VFloat64 taskID]> ∅)))
                          (call_req p)) polls).
Proof.
  intros Hh Hrun. apply (SolveAndReturnSolution_operation _ _ _ _ _ _ Hh) in Hrun.
  apply operation_requests in Hrun; [exact Hrun|].
  intros ? ? ? ? H. apply SolveAndReturnSolution_decode_ends in H as [? _]. assumption.
Qed.

(** *** The loops end *)

(** X6.  Both operations end, whatever the service does.  The loop of the
    source has no bound of its own, but the deadline gives it one: a run
    sleeps thirty times at most, so it makes at most thirty-one polls and
    thirty-two calls, and thirty-one iterations are all it ever takes. *)
Theorem operations_end fuel c img h w out w' :
  (SendImage E fuel c img w = (out, w') ->
   (length (slept w') <= length (slept w) + 30)%nat /\
   (length (calls w') <= length (calls w) + 32)%nat /\
   ((30 < fuel)%nat -> out <> OutOfFuel))
  /\
  (SolveAndReturnSolution E fuel h w = (out, w') ->
   (length (slept w') <= length (slept w) + 30)%nat /\
   (length (calls w') <= length (calls w) + 32)%nat /\
   ((30 < fuel)%nat -> out <> OutOfFuel)).
Proof.
  assert (Hci : checkInterval = 2000000000) by reflexivity.
  assert (Hdt : defaultTimeout = 60000000000) by reflexivity.
  set (ctx := {| Deadline := Some (now w + defaultTimeout) |}).
  assert (Hnone : forall w0 (o : Outcome (string * option error)),
            quiet w w0 -> o <> OutOfFuel ->
            (length (slept w0) <= length (slept w) + 30)%nat /\
            (length (calls w0) <= length (calls w) + 32)%nat /\
            ((30 < fuel)%nat -> o <> OutOfFuel)).
  { intros w0 o (Htr & _) Ho. unfold slept, calls. rewrite Htr.
    split; [lia|]. split; [lia|]. intros _. exact Ho. }
  assert (Hone : forall c0 req w0 (o : Outcome (string * option error)),
            quiet (after_call E c0 req w) w0 -> o <> OutOfFuel ->
            (length (slept w0) <= length (slept w) + 30)%nat /\
            (length (calls w0) <= length (calls w) + 32)%nat /\
            ((30 < fuel)%nat -> o <> OutOfFuel)).
  { intros c0 req w0 o Hq Ho.
    rewrite (only_call_after _ _ _ _ _ Hq), length_app. simpl.
    destruct Hq as (Htr & _). unfold slept at 1. rewrite Htr.
    fold (slept (after_call E c0 req w)). rewrite after_call_slept.
    split; [lia|]. split; [lia|]. intros _. exact Ho. }
  assert (Hloop : forall decode c0 body req w1 taskID,
            (forall m w2 o w3, decode m w2 = (o, w3) ->
                               trace w3 = trace w2 /\ o <> OutOfFuel) ->
            prepared E ctx "/createTask" body = Some req ->
            quiet (after_call E c0 req w) w1 ->
            poll_until E decode fuel c0 ctx taskID w1 = (out, w') ->
            (length (slept w') <= length (slept w) + 30)%nat /\
            (length (calls w') <= length (calls w) + 32)%nat /\
            ((30 < fuel)%nat -> out <> OutOfFuel)).
  { intros decode c0 body req w1 taskID Hdecode Hprep Hq Hpoll.
    pose proof (only_call_after _ _ _ _ _ Hq) as Hc1.
    destruct Hq as (Htr1 & Hnow1 & _).
    assert (Hs1 : slept w1 = slept w).
    { unfold slept at 1. rewrite Htr1. apply after_call_slept. }
    pose proof (round_trip_le E c0 req (length (calls w)) (now w)) as Hle.
    rewrite after_call_now in Hnow1.
    apply (poll_until_ends _ _ _ _ (now w + defaultTimeout) _ 30) in Hpoll;
      [|exact Hdecode|reflexivity|lia].
    rewrite Hs1, Hc1, length_app in Hpoll. simpl in Hpoll.
    destruct Hpoll as (? & ? & ?). split; [lia|]. split; [lia|assumption]. }
  split.
  - intros Hrun.
    apply SendImage_cases in Hrun
      as [(_ & Hq & ? & _ & ->)
         |(req & Hprep & [(_ & Hq & ? & _ & ->)|(m & _ & Hdec)])].
    + apply Hnone; [exact Hq|discriminate].
    + eapply Hone; [exact Hq|discriminate].
    + destruct (create_decision m) as [p|d| |taskID];
        try (destruct Hdec as [-> Hq]; eapply Hone; [exact Hq|discriminate]).
      destruct Hdec as (w1 & Hq & Hpoll).
      rewrite SendImage_poll_eq in Hpoll.
      eapply Hloop; [|exact Hprep|exact Hq|exact Hpoll].
      intros ? ? ? ?. apply SendImage_decode_ends.
  - intros Hrun. destruct (heap w !! h) as [o|] eqn:Hh.
    + pose proof (SolveAndReturnSolution_cases _ _ _ _ _ _ _ Hh Hrun) as Hcases.
      cbv zeta in Hcases.
      destruct Hcases as [(_ & Hq & ? & _ & ->)
                         |(req & Hprep & [(_ & Hq & ? & _ & ->)|(m & _ & Hdec)])].
      * apply Hnone; [exact Hq|discriminate].
      * eapply Hone; [exact Hq|discriminate].
      * destruct (create_decision m) as [p|d| |taskID];
          try (destruct Hdec as [-> Hq]; eapply Hone; [exact Hq|discriminate]).
        destruct Hdec as (w1 & Hq & Hpoll).
        rewrite SolveAndReturnSolution_poll_eq in Hpoll.
        eapply Hloop; [|exact Hprep|exact Hq|exact Hpoll].
        intros ? ? ? ?. apply SolveAndReturnSolution_decode_ends.
    + rewrite (SolveAndReturnSolution_nil _ _ _ _ Hh) in Hrun. injection Hrun as <- <-.
      apply Hnone; [apply quiet_refl|discriminate].
Qed.

(** *** The trace of a run *)

Lemma operation_trace decode wrap c body fuel w out w' :
  (forall m w1 o w2, decode m w1 = (o, w2) -> trace w2 = trace w1) ->
  operation_run E decode wrap c body fuel w out w' ->
  trace w' = trace w \/
  exists c0 ps final,
    trace w' = trace w ++ Called c0 :: awaited ps ++ map Called final /\
    (length final <= 1)%nat /\
    Forall pending ps /\ Forall (fun cl => ~ pending cl) final.
Proof.
  intros Hdecode Hrun.
  assert (Hone : forall req, quiet (after_call E c req w) w' ->
            exists c0 ps final,
              trace w' = trace w ++ Called c0 :: awaited ps ++ map Called final /\
              (length final <= 1)%nat /\
              Forall pending ps /\ Forall (fun cl => ~ pending cl) final).
  { intros req (Htr & _). rewrite after_call_trace in Htr.
    exists (call_of E c req w), [], []. split; [exact Htr|].
    split; [simpl; lia|]. split; constructor. }
  destruct Hrun as [(_ & (Htr & _) & _)|(req & _ & [(_ & Hq & _)|(m0 & _ & Hdec)])].
  - left. exact Htr.
  - right. apply (Hone _ Hq).
  - right.
    destruct (create_decision m0) as [p|d| |taskID];
      try (destruct Hdec as [_ Hq]; apply (Hone _ Hq)).
    destruct Hdec as (w1 & (Htr1 & _) & Hpoll).
    rewrite after_call_trace in Htr1.
    apply poll_until_run in Hpoll as (ps & Hps & Hshape).
    assert (Hpending : Forall pending ps).
    { eapply Forall_impl; [exact Hps|]. intros ? [_ ?]. assumption. }
    exists (call_of E c req w), ps.
    destruct Hshape as [(_ & _ & Htr & _)
                       |[(_ & -> & Htr & _)
                        |[(cl & err & _ & Hdel & Htr & _)
                         |(cl & m & w2 & _ & Hans & Hready & Htr & _ & Hdec)]]].
    + exists []. simpl. rewrite app_nil_r.
      split; [rewrite Htr, Htr1, <- app_assoc; reflexivity|].
      split; [lia|]. split; [exact Hpending|constructor].
    + exists []. simpl.
      split; [rewrite Htr, Htr1; reflexivity|].
      split; [lia|]. split; constructor.
    + exists [cl].
      split; [rewrite Htr, Htr1, <- app_assoc; reflexivity|].
      split; [simpl; lia|]. split; [exact Hpending|].
      constructor; [|constructor].
      intros (m & Hans & _). apply (delivered_not_answered _ _ _ Hdel Hans).
    + exists [cl].
      split; [rewrite (Hdecode _ _ _ _ Hdec), Htr, Htr1, <- app_assoc; reflexivity|].
      split; [simpl; lia|]. split; [exact Hpending|].
      constructor; [|constructor].
      intros (m' & Hans' & Hnot). rewrite (answered_inj _ _ _ Hans' Hans) in Hnot.
      congruence.
Qed.

(** X3.  The trace of a run.  Either nothing happened, or the create call
    is followed by polls and sleeps in strict alternation: every poll that
    is answered, and not with the status "ready", is followed by one sleep
    of the check interval, and what comes after that sleep, if anything
    does, is the next poll; there is no sleep before the first poll, none
    after a poll that failed or was answered "ready", and no event after
    such a poll. *)
Theorem polls_and_sleeps_alternate fuel c img h w out w' :
  (SendImage E fuel c img w = (out, w') ->
   trace w' = trace w \/
   exists c0 ps final,
     trace w' = trace w ++ Called c0 :: awaited ps ++ map Called final /\
     (length final <= 1)%nat /\
     Forall pending ps /\ Forall (fun cl => ~ pending cl) final)
  /\
  (SolveAndReturnSolution E fuel h w = (out, w') ->
   trace w' = trace w \/
   exists c0 ps final,
     trace w' = trace w ++ Called c0 :: awaited ps ++ map Called final /\
     (length final <= 1)%nat /\
     Forall pending ps /\ Forall (fun cl => ~ pending cl) final).
Proof.
  split.
  - intros Hrun. apply SendImage_operation in Hrun.
    eapply operation_trace; [|exact Hrun].
    intros ? ? ? ? H. apply SendImage_decode_ends in H as [? _]. assumption.
  - intros Hrun. destruct (heap w !! h) as [o|] eqn:Hh.
    + apply (SolveAndReturnSolution_operation _ _ _ _ _ _ Hh) in Hrun.
      eapply operation_trace; [|exact Hrun].
      intros ? ? ? ? H. apply SolveAndReturnSolution_decode_ends in H as [? _].
      assumption.
    + rewrite (SolveAndReturnSolution_nil _ _ _ _ Hh) in Hrun. injection Hrun as <- <-.
      left. reflexivity.
Qed.

(** *** A poll that is not answered "ready" *)

Lemma operation_pending decode wrap c body fuel w out w' i call m :
  (forall m w1 o w2, decode m w1 = (o, w2) -> trace w2 = trace w1) ->
  operation_run E decode wrap c body fuel w out w' ->
  calls w' !! (length (calls w) + S i)%nat = Some call ->
  answered call m -> status_ready m = false ->
  exists c0 ps final,
    trace w' = trace w ++ Called c0 :: awaited ps ++ map Called final /\
    ps !! i = Some call /\
    (out = OutOfFuel \/ exists next, final = [next]).
Proof.
  intros Hdecode Hrun Hcall Hans Hready.
  assert (Hstop : forall req, quiet (after_call E c req w) w' -> False).
  { intros req Hq. rewrite (only_call_after _ _ _ _ _ Hq), lookup_after_end in Hcall.
    discriminate. }
  destruct Hrun as [(_ & Hq & _)|(req & _ & [(_ & Hq & _)|(m0 & _ & Hdec)])].
  - rewrite (quiet_calls _ _ Hq) in Hcall. apply lookup_lt_Some in Hcall. lia.
  - destruct (Hstop _ Hq).
  - destruct (create_decision m0) as [p|d| |taskID];
      try (destruct Hdec as [_ Hq]; destruct (Hstop _ Hq)).
    destruct Hdec as (w1 & (Htr1 & _) & Hpoll).
    rewrite after_call_trace in Htr1.
    apply poll_until_run in Hpoll as (ps & Hps & Hshape).
    assert (Hin : forall final,
               (length final <= 1)%nat ->
               trace w' = trace w1 ++ awaited ps ++ map Called final ->
               (forall cl, final = [cl] -> ~ (answered cl m)) ->
               trace w' = trace w ++ Called (call_of E c req w) :: awaited ps
                            ++ map Called final /\
               ps !! i = Some call).
    { intros final Hlen Htr Hfinal.
      assert (Htr' : trace w' = trace w ++ Called (call_of E c req w) :: awaited ps
                                  ++ map Called final).
      { rewrite Htr, Htr1, <- app_assoc. reflexivity. }
      split; [exact Htr'|].
      unfold calls in Hcall. rewrite Htr' in Hcall.
      change (Called (call_of E c req w) :: awaited ps ++ map Called final)
        with ([Called (call_of E c req w)] ++ awaited ps ++ map Called final) in Hcall.
      rewrite app_assoc, calls_app_awaited, omap_app in Hcall. simpl in Hcall.
      fold (calls w) in Hcall. rewrite <- app_assoc in Hcall. simpl in Hcall.
      rewrite lookup_after in Hcall.
      destruct (decide (i < length ps)%nat) as [Hlt|Hge].
      - rewrite lookup_app_l in Hcall by exact Hlt. exact Hcall.
      - rewrite lookup_app_r in Hcall by lia.
        destruct final as [|cl [|? ?]]; [discriminate| |simpl in Hlen; lia].
        destruct (i - length ps)%nat; [|discriminate].
        injection Hcall as <-. destruct (Hfinal _ eq_refl Hans). }
    exists (call_of E c req w), ps.
    destruct Hshape as [(-> & _ & Htr & _)
                       |[(_ & -> & Htr & _)
                        |[(cl & err & _ & Hdel & Htr & _)
                         |(cl & m' & w2 & _ & Hans' & Hready' & Htr & _ & Hdec)]]].
    + exists []. simpl. rewrite app_nil_r.
      destruct (Hin []) as [H1 H2]; [simpl; lia|simpl; rewrite app_nil_r; exact Htr
                                    |discriminate|].
      simpl in H1. rewrite app_nil_r in H1. auto.
    + destruct (Hin []) as [H1 H2]; [simpl; lia|simpl; rewrite Htr, app_nil_r; reflexivity
                                    |discriminate|].
      rewrite lookup_nil in H2. discriminate.
    + exists [cl]. destruct (Hin [cl]) as [H1 H2]; [simpl; lia|exact Htr| |].
      * intros ? [= <-]. apply (delivered_not_answered _ _ _ Hdel).
      * split; [exact H1|]. split; [exact H2|]. right. eauto.
    + exists [cl]. destruct (Hin [cl]) as [H1 H2];
        [simpl; lia|rewrite (Hdecode _ _ _ _ Hdec); exact Htr| |].
      * intros ? [= <-] Hans2. rewrite (answered_inj _ _ _ Hans2 Hans') in Hready.
        congruence.
      * split; [exact H1|]. split; [exact H2|]. right. eauto.
Qed.

(** X4.  A poll that is answered, and not with the status "ready", never
    ends a run, whatever else the answer holds (an errorId, say): the loop
    sleeps one check interval after it and polls again, unless the fuel is
    spent by then. *)
Theorem pending_poll_is_followed_by_a_sleep fuel c img h o w out w' i call m :
  calls w' !! (length (calls w) + S i)%nat = Some call ->
  answered call m -> status_ready m = false ->
  (SendImage E fuel c img w = (out, w') ->
   exists c0 ps final,
     trace w' = trace w ++ Called c0 :: awaited ps ++ map Called final /\
     ps !! i = Some call /\
     (out = OutOfFuel \/ exists next, final = [next]))
  /\
  (heap w !! h = Some o ->
   SolveAndReturnSolution E fuel h w = (out, w') ->
   exists c0 ps final,
     trace w' = trace w ++ Called c0 :: awaited ps ++ map Called final /\
     ps !! i = Some call /\
     (out = OutOfFuel \/ exists next, final = [next])).
Proof.
  intros Hcall Hans Hready. split.
  - intros Hrun. apply SendImage_operation in Hrun.
    eapply operation_pending; eauto.
    intros ? ? ? ? H. apply SendImage_decode_ends in H as [? _]. assumption.
  - intros Hh Hrun. apply (SolveAndReturnSolution_operation _ _ _ _ _ _ Hh) in Hrun.
    eapply operation_pending; eauto.
    intros ? ? ? ? H. apply SolveAndReturnSolution_decode_ends in H as [? _]. assumption.
Qed.

(** *** Success *)

(** X7.  SendImage returns a text only when the service gave it: the create
    call was answered without an API error and with a taskId, and the last
    call of the run, after polls that were all answered "not ready" and
    each followed by a sleep, was answered with the status "ready" and a
    solution whose text is the one returned. *)
Theorem SendImage_success fuel c img w text w' :
  SendImage E fuel c img w = (Return (text, None), w') ->
  exists c0 m0 taskID ps last m sol,
    trace w' = trace w ++ Called c0 :: awaited ps ++ [Called last] /\
    answered c0 m0 /\ no_api_error m0 /\ m0 !! "taskId" = Some (VFloat64 taskID) /\
    Forall pending ps /\
    answered last m /\ m !! "status" = Some (VString "ready") /\
    m !! "solution" = Some (VMap sol) /\ sol !! "text" = Some (VString text).
Proof.
  intros Hrun. apply SendImage_operation in Hrun.
  destruct Hrun as [(_ & _ & ? & _ & [=])
                   |(req & _ & [(_ & _ & ? & _ & [=])|(m0 & Hans0 & Hdec)])].
  destruct (create_decision m0) as [p|d| |taskID] eqn:Hcd;
    try (destruct Hdec as [[=] _]).
  destruct Hdec as (w1 & (Htr1 & _) & Hpoll).
  rewrite after_call_trace in Htr1.
  apply create_decision_taskId in Hcd as [Hno Hid].
  apply poll_until_run in Hpoll as (ps & Hps & Hshape).
  destruct Hshape as [([=] & _)
                     |[(_ & _ & _ & _ & ? & _ & [=])
                      |[(cl & err & _ & _ & _ & _ & [=])
                       |(cl & m & w2 & _ & Hans & Hready & Htr & _ & Hdec)]]].
  pose proof (SendImage_decode_ends _ _ _ _ _ Hdec) as [Htr' _].
  apply SendImage_decode_inv in Hdec
    as (_ & [(sol & text' & Hsol & Htext & [= <-])|(e & [=] & _)]).
  exists (call_of E c req w), m0, taskID, ps, cl, m, sol.
  split; [rewrite Htr', Htr, Htr1, <- app_assoc; reflexivity|].
  do 3 (split; [assumption|]).
  split; [eapply Forall_impl; [exact Hps|]; intros ? [_ ?]; assumption|].
  split; [exact Hans|]. split; [apply status_ready_inv, Hready|].
  split; apply index_lookup; (assumption || discriminate).
Qed.

(** *** Errors and panics *)

(** Where the errors of an operation come from: the create phase, with at
    most the create call made; a poll that failed; or the decoder, on the
    last call, which was answered "ready". *)
Lemma operation_errors decode wrap (D : gmap string Value -> error -> Prop)
    c body fuel w s e w' :
  (forall m w1 o w2, decode m w1 = (o, w2) -> trace w2 = trace w1) ->
  (forall m w1 s e w2, decode m w1 = (Return (s, Some e), w2) -> s = "" /\ D m e) ->
  operation_run E decode wrap c body fuel w (Return (s, Some e)) w' ->
  s = "" /\
  ((exists e0, e = wrap e0 /\
      ((calls w' = calls w /\ create_error None e0) \/
       (exists c0, calls w' = calls w ++ [c0] /\
          ((create_error None e0 /\ forall m, ~ answered c0 m) \/
           (exists m, answered c0 m /\ create_error (Some m) e0)))))
   \/
   (exists t, TransportError t /\ e = poll_error t)
   \/
   (exists cl m, last (calls w') = Some cl /\ answered cl m /\
      m !! "status" = Some (VString "ready") /\ D m e)).
Proof.
  intros Htrace Hdecode Hrun.
  destruct Hrun as [(_ & Hq & t & HT & [= -> ->])
                   |(req & _ & [(Hno & Hq & t & HT & [= -> ->])|(m0 & Hans0 & Hdec)])].
  - split; [reflexivity|]. left. eexists. split; [reflexivity|]. left.
    split; [apply quiet_calls, Hq|]. simpl. eauto.
  - split; [reflexivity|]. left. eexists. split; [reflexivity|]. right.
    exists (call_of E c req w). split; [apply only_call_after, Hq|]. left.
    split; [simpl; eauto|exact Hno].
  - pose proof (create_decision_inv m0) as Hinv.
    destruct (create_decision m0) as [p|d| |taskID].
    + destruct Hdec as [[=] _].
    + destruct Hdec as [[= -> ->] Hq]. split; [reflexivity|]. left.
      eexists. split; [reflexivity|]. right.
      exists (call_of E c req w). split; [apply only_call_after, Hq|]. right.
      exists m0. split; [exact Hans0|]. left. eauto.
    + destruct Hdec as [[= -> ->] Hq]. split; [reflexivity|]. left.
      eexists. split; [reflexivity|]. right.
      exists (call_of E c req w). split; [apply only_call_after, Hq|]. right.
      exists m0. split; [exact Hans0|]. right. destruct Hinv. auto.
    + destruct Hdec as (w1 & _ & Hpoll).
      apply poll_until_run in Hpoll as (ps & _ & Hshape).
      destruct Hshape as [([=] & _)
                         |[(_ & _ & _ & _ & t & HT & [= -> ->])
                          |[(cl & t & _ & Hdel & _ & _ & [= -> ->])
                           |(cl & m & w2 & _ & Hans & Hready & Htr & _ & Hdec)]]].
      * split; [reflexivity|]. right; left. eauto.
      * split; [reflexivity|]. right; left. exists t. split; [|reflexivity].
        apply delivered_error in Hdel as (_ & HT & _). exact HT.
      * pose proof (Htrace _ _ _ _ Hdec) as Htr'.
        apply Hdecode in Hdec as [-> HD]. split; [reflexivity|]. right; right.
        exists cl, m. split; [|split; [exact Hans|split; [apply status_ready_inv, Hready
                                                         |exact HD]]].
        apply (calls_last_poll w' (trace w1) ps). rewrite Htr'. exact Htr.
Qed.

(** X8.  The errors of SendImage.  With an error the text is empty, and the
    error tells where the run stopped.  Under "failed to send image: " it
    is an error of the create phase, and no poll was made: a transport
    error under "failed to create task: ", the errorDescription of a create
    response with a non-zero errorId, or the missing taskId.  Under
    "failed to get task result: ", twice, it is the transport error of a
    poll.  Bare, it is the format error of the last call's response, which
    had the status "ready". *)
Theorem SendImage_errors fuel c img w s e w' :
  SendImage E fuel c img w = (Return (s, Some e), w') ->
  s = "" /\
  ((exists e0, e = fmt_Errorf "failed to send image: %w" e0 /\
      ((calls w' = calls w /\ create_error None e0) \/
       (exists c0, calls w' = calls w ++ [c0] /\
          ((create_error None e0 /\ forall m, ~ answered c0 m) \/
           (exists m, answered c0 m /\ create_error (Some m) e0)))))
   \/
   (exists t, TransportError t /\
      e = fmt_Errorf "failed to get task result: %w"
            (fmt_Errorf "failed to get task result: %w" t))
   \/
   (exists cl m, last (calls w') = Some cl /\ answered cl m /\
      m !! "status" = Some (VString "ready") /\
      solution_error "text" "text not found in solution" m e)).
Proof.
  intros Hrun. apply SendImage_operation in Hrun.
  apply (operation_errors _ _ (solution_error "text" "text not found in solution"))
    in Hrun; [exact Hrun| |].
  - intros ? ? ? ? H. apply SendImage_decode_ends in H as [? _]. assumption.
  - intros ? ? ? ? ?. apply SendImage_decode_error.
Qed.

(** X9.  The errors of SolveAndReturnSolution: as for SendImage, but the
    errors of the create phase come as they are, under no further
    prefix, and the field of the solution is gRecaptchaResponse. *)
Theorem SolveAndReturnSolution_errors fuel h o w s e w' :
  heap w !! h = Some o ->
  SolveAndReturnSolution E fuel h w = (Return (s, Some e), w') ->
  s = "" /\
  ((calls w' = calls w /\ create_error None e) \/
   (exists c0, calls w' = calls w ++ [c0] /\
      ((create_error None e /\ forall m, ~ answered c0 m) \/
       (exists m, answered c0 m /\ create_error (Some m) e)))
   \/
   (exists t, TransportError t /\
      e = fmt_Errorf "failed to get task result: %w"
            (fmt_Errorf "failed to get task result: %w" t))
   \/
   (exists cl m, last (calls w') = Some cl /\ answered cl m /\
      m !! "status" = Some (VString "ready") /\
      solution_error "gRecaptchaResponse" "gRecaptchaResponse not found in solution" m e)).
Proof.
  intros Hh Hrun. apply (SolveAndReturnSolution_operation _ _ _ _ _ _ Hh) in Hrun.
  apply (operation_errors _ _
           (solution_error "gRecaptchaResponse" "gRecaptchaResponse not found in solution"))
    in Hrun.
  - destruct Hrun as [-> [(e0 & -> & [H|H])|[H|H]]]; auto 6.
  - intros ? ? ? ? H. apply SolveAndReturnSolution_decode_ends in H as [? _]. assumption.
  - intros ? ? ? ? ?. apply SolveAndReturnSolution_decode_error.
Qed.

Lemma operation_panics decode wrap c body fuel w p w' :
  (forall m w1 o w2, decode m w1 = (o, w2) -> trace w2 = trace w1) ->
  operation_run E decode wrap c body fuel w (Panic p) w' ->
  (exists c0 m, calls w' = calls w ++ [c0] /\ answered c0 m /\
     create_assertion_fails m p)
  \/
  (exists cl m w1 , last (calls w') = Some cl /\ answered cl m /\
     m !! "status" = Some (VString "ready") /\ heap w1 = heap w /\
     decode m w1 = (Panic p, w')).
Proof.
  intros Htrace Hrun.
  destruct Hrun as [(_ & _ & ? & _ & [=])
                   |(req & _ & [(_ & _ & ? & _ & [=])|(m0 & Hans0 & Hdec)])].
  pose proof (create_decision_inv m0) as Hinv.
  destruct (create_decision m0) as [p0|d| |taskID];
    try (destruct Hdec as [[=] _]; fail).
  - destruct Hdec as [[= ->] Hq]. left.
    exists (call_of E c req w), m0. split; [apply only_call_after, Hq|]. auto.
  - destruct Hdec as (w1 & (_ & _ & Hheap1) & Hpoll).
    rewrite after_call_heap in Hheap1.
    apply poll_until_run in Hpoll as (ps & _ & Hshape).
    destruct Hshape as [([=] & _)
                       |[(_ & _ & _ & _ & ? & _ & [=])
                        |[(cl & ? & _ & _ & _ & _ & [=])
                         |(cl & m & w2 & _ & Hans & Hready & Htr & Hheap & Hdec)]]].
    right. exists cl, m, w2.
    split; [apply (calls_last_poll w' (trace w1) ps);
            rewrite (Htrace _ _ _ _ Hdec); exact Htr|].
    split; [exact Hans|]. split; [apply status_ready_inv, Hready|].
    split; [congruence|exact Hdec].
Qed.

(** X10.  On a client whose HTTP client and logger are set, and a task
    that is nil or holds such a client (nothing else is a [Client] or a
    task here: what NewClient and NewHCaptchaProxyless build, not a struct
    with a nil pointer in it), the panics of the two operations are those
    of the unchecked assertions, and of a nil task.  SendImage panics only
    on a create response whose errorId is not a number, or is a number
    other than zero next to an errorDescription that is not a string; the
    create call is then the only call.  SolveAndReturnSolution panics on a
    nil task before anything else, on such a create response, or on a last
    call answered "ready" with a solution that has its gRecaptchaResponse
    but whose userAgent or respKey is not a string. *)
Theorem panics_are_failed_assertions fuel c img h w p w' :
  (SendImage E fuel c img w = (Panic p, w') ->
   exists c0 m, calls w' = calls w ++ [c0] /\ answered c0 m /\
     create_assertion_fails m p)
  /\
  (SolveAndReturnSolution E fuel h w = (Panic p, w') ->
   (heap w !! h = None /\ p = NilDereference /\ w' = w)
   \/
   (exists c0 m, calls w' = calls w ++ [c0] /\ answered c0 m /\
      create_assertion_fails m p)
   \/
   (exists cl m sol g v, last (calls w') = Some cl /\ answered cl m /\
      m !! "status" = Some (VString "ready") /\
      m !! "solution" = Some (VMap sol) /\
      sol !! "gRecaptchaResponse" = Some (VString g) /\
      (v = index sol "userAgent" \/
       (string_ok (index sol "userAgent") <> None /\ v = index sol "respKey")) /\
      string_ok v = None /\ p = TypeAssertionError v "string")).
Proof.
  split.
  - intros Hrun. apply SendImage_operation in Hrun.
    apply operation_panics in Hrun
      as [H|(cl & m & w1 & _ & _ & _ & _ & Hdec)]; [exact H| |].
    + apply SendImage_decode_inv in Hdec
        as (_ & [(? & ? & _ & _ & [=])|(? & [=] & _)]).
    + intros ? ? ? ? H. apply SendImage_decode_ends in H as [? _]. assumption.
  - intros Hrun. destruct (heap w !! h) as [o|] eqn:Hh.
    + right. apply (SolveAndReturnSolution_operation _ _ _ _ _ _ Hh) in Hrun.
      apply operation_panics in Hrun
        as [H|(cl & m & w1 & Hlast & Hans & Hready & Hheap & Hdec)]; [left; exact H| |].
      * right. rewrite <- Hheap in Hh.
        apply (SolveAndReturnSolution_decode_inv _ _ _ _ _ _ _ Hh) in Hdec
          as (_ & _ & [(? & [=] & _)
                      |(sol & g & Hsol & Hg & [(Hua & [= ->] & _)
                                              |[(ua & Hua & Hrk & [= ->] & _)
                                               |(? & ? & _ & _ & [=] & _)]])]).
        -- exists cl, m, sol, g, (index sol "userAgent").
           do 3 (split; [assumption|]).
           split; [apply index_lookup; [exact Hsol|discriminate]|].
           split; [apply index_lookup; [exact Hg|discriminate]|]. auto.
        -- exists cl, m, sol, g, (index sol "respKey").
           do 3 (split; [assumption|]).
           split; [apply index_lookup; [exact Hsol|discriminate]|].
           split; [apply index_lookup; [exact Hg|discriminate]|].
           split; [right; rewrite Hua; split; [discriminate|reflexivity]|]. auto.
      * intros ? ? ? ? H. apply SolveAndReturnSolution_decode_ends in H as [? _].
        assumption.
    + left. rewrite (SolveAndReturnSolution_nil _ _ _ _ Hh) in Hrun.
      injection Hrun as <- <-. auto.
Qed.

(** *** The task and its setters *)

Lemma last_set_cons {A} (pick : Setting -> option A) before s l :
  last_set pick before (s :: l)
  = last_set pick (default before (pick s)) l.
Proof.
  unfold last_set.
  change (omap pick (s :: l))
    with (match pick s with Some a => a :: omap pick l | None => omap pick l end).
  destruct (pick s) as [a|]; simpl; [|reflexivity].
  destruct (omap pick l) as [|b l'] eqn:Hl; [reflexivity|].
  rewrite last_cons. destruct (last (b :: l')) eqn:Hlast; [reflexivity|].
  apply last_None in Hlast. discriminate.
Qed.

Lemma configured_nil o : configured o [] = o.
Proof. destruct o. reflexivity. Qed.

Lemma call_setter_allocated h o s w :
  heap w !! h = Some o ->
  exists o', call_setter h s w = (Return tt, set_heap (<[h := o']> (heap w)) w) /\
    forall l, configured o' l = configured o (s :: l).
Proof.
  intros Hh.
  destruct s; unfold call_setter, SetWebsiteURL, SetWebsiteKey, SetIsInvisible,
    SetIsEnterprise, SetEnterprisePayload, SetSoftID, store; rewrite Hh;
    (eexists; split; [reflexivity|]); intros l; unfold configured;
    rewrite !last_set_cons; reflexivity.
Qed.

Lemma call_setters_allocated h l : forall o w,
  heap w !! h = Some o ->
  call_setters h l w = (Return tt, set_heap (<[h := configured o l]> (heap w)) w).
Proof.
  induction l as [|s l IH]; intros o w Hh.
  - simpl. rewrite configured_nil, list_insert_id by exact Hh.
    destruct w; reflexivity.
  - simpl. unfold mbind, M_bind.
    destruct (call_setter_allocated h o s w Hh) as (o' & -> & Hconf).
    rewrite (IH o').
    + simpl. rewrite list_insert_insert_eq, Hconf. reflexivity.
    + simpl. apply list_lookup_insert_eq. apply lookup_lt_Some in Hh. exact Hh.
Qed.

(** X11.  The setters.  On an allocated task, any sequence of setter calls
    returns and leaves each of the six fields with the argument of the
    last call of its setter, or as it was when its setter was not called;
    the client, UserAgent and RespKey stay, and so do all other tasks, the
    clock, the trace and the log.  On a nil task, the first call panics
    and nothing has changed. *)
Theorem setters_last_write_wins h l w :
  match heap w !! h with
  | Some o =>
      call_setters h l w = (Return tt, set_heap (<[h := configured o l]> (heap w)) w)
  | None =>
      forall s l', l = s :: l' -> call_setters h l w = (Panic NilDereference, w)
  end.
Proof.
  destruct (heap w !! h) as [o|] eqn:Hh.
  - apply call_setters_allocated, Hh.
  - intros s l' ->. simpl. unfold mbind, M_bind.
    destruct s; unfold call_setter, SetWebsiteURL, SetWebsiteKey, SetIsInvisible,
      SetIsEnterprise, SetEnterprisePayload, SetSoftID, store; rewrite Hh; reflexivity.
Qed.

(** X12.  From the constructor to the wire.  NewHCaptchaProxyless returns a
    fresh task, beside the tasks there are, with the given client, an
    enterprise payload that is an empty map and not nil, and zero values
    elsewhere.  After any sequence of setter calls on it, the create
    request of SolveAndReturnSolution carries, for each field, the argument
    of the last call of its setter, and what the constructor gave for a
    field that was never set: the empty string, false, 0 and, for the
    enterprise payload, the empty object; a payload set to nil is sent as
    null. *)
Theorem configured_task_is_sent fuel client l w out w' :
  let o := configured {| Client_ := client; WebsiteURL := ""; WebsiteKey := "";
                         IsInvisible := false; IsEnterprise := false;
                         EnterprisePayload := Some ∅; SoftID := 0;
                         UserAgent := ""; RespKey := "" |} l in
  let h := length (heap w) in
  let w0 := set_heap (heap w ++ [o]) w in
  (h ← NewHCaptchaProxyless client; call_setters h l;; mret h) w = (Return h, w0) /\
  (SolveAndReturnSolution E fuel h w0 = (out, w') ->
   calls w' = calls w \/
   exists c0 polls, calls w' = calls w ++ c0 :: polls /\
     is_request E {| Deadline := Some (now w + 60000000000) |} "/createTask"
       (VMap (<["clientKey" := VString (APIKey client)]>
             (<["task" :=
                  VMap (<["type" := VString "HCaptchaTaskProxyless"]>
                       (<["websiteURL" := VString (last_set websiteURL_of "" l)]>
                       (<["websiteKey" := VString (last_set websiteKey_of "" l)]>
                       (<["isInvisible" := VBool (last_set isInvisible_of false l)]>
                       (<["isEnterprise" := VBool (last_set isEnterprise_of false l)]>
                       (<["enterprisePayload" :=
                            match last_set enterprisePayload_of (Some ∅) l with
                            | Some payload => VMap payload
                            | None => VNil
                            end]> ∅))))))]>
             (<["softId" := VInt (last_set softID_of 0 l)]> ∅))))
       (call_req c0)).
Proof.
  intros o h w0.
  assert (Hh : heap w0 !! h = Some o).
  { unfold w0, h. simpl. rewrite lookup_app_r by lia. rewrite Nat.sub_diag. reflexivity. }
  split.
  - unfold NewHCaptchaProxyless, alloc, mbind, M_bind. simpl.
    rewrite (call_setters_allocated _ l
               {| Client_ := client; WebsiteURL := ""; WebsiteKey := "";
                  IsInvisible := false; IsEnterprise := false;
                  EnterprisePayload := Some ∅; SoftID := 0;
                  UserAgent := ""; RespKey := "" |}).
    + simpl. unfold w0, set_heap. simpl. fold o. fold h. do 3 f_equal.
      unfold h. rewrite insert_app_r_alt by lia. rewrite Nat.sub_diag. reflexivity.
    + simpl. rewrite lookup_app_r by lia. rewrite Nat.sub_diag. reflexivity.
  - intros Hrun. apply (SolveAndReturnSolution_operation _ _ _ _ _ _ Hh) in Hrun.
    apply operation_requests in Hrun.
    + destruct Hrun as [Hc|(c0 & polls & Hc & Hreq & _)]; [left; exact Hc|].
      right. exists c0, polls. split; [exact Hc|exact Hreq].
    + intros ? ? ? ? H. apply SolveAndReturnSolution_decode_ends in H as [? _].
      assumption.
Qed.

(** *** What is logged *)

(** The create phase of both operations, for the log: makeRequest, then
    the fields of the response; [k] is what follows the task
    identifier. *)
Ltac create_phase_logs k :=
  match goal with
  | |- context [makeRequest ?E ?c ?ctx ?endpoint ?body ?w] =>
      let o1 := fresh "o1" in
      let w1 := fresh "w1" in
      let Hmr := fresh "Hmr" in
      let Hlog := fresh "Hlog" in
      let Hrun := fresh "Hrun" in
      let m := fresh "m" in
      let err := fresh "err" in
      let f := fresh "f" in
      destruct (makeRequest E c ctx endpoint body w) as [o1 w1] eqn:Hmr;
      pose proof Hmr as Hlog; apply makeRequest_logs in Hlog;
      apply makeRequest_inv in Hmr as ([m [err|]] & -> & _); simpl;
      [ intros [= <- <-]; split; [logged_after Hlog|];
        intros ? ? [= <- <-]; apply reported_line; constructor
      | intros Hrun; unfold index_ok in Hrun;
        destruct (m !! "errorId") as [[| | |f| | |]|]; simpl in Hrun;
        try (injection Hrun as <- <-; split; [logged_after Hlog|discriminate]);
        [ destruct (negb (PrimFloat.eqb f 0)); simpl in Hrun;
          [ destruct (index m "errorDescription"); simpl in Hrun;
            injection Hrun as <- <-; (split; [logged_after Hlog|]);
            first [ discriminate
                  | intros ? ? [= <- <-]; apply reported_line; constructor ]
          | ]
        | ];
        (destruct (float64_ok (index m "taskId")); simpl in Hrun;
         [ k Hlog Hrun
         | injection Hrun as <- <-; split; [logged_after Hlog|];
           intros ? ? [= <- <-]; apply reported_line; constructor; exact eq_refl ]) ]
  end.

Lemma SendImage_logs fuel c img w out w' :
  SendImage E fuel c img w = (out, w') ->
  logs_on c w w' /\ forall s e, out = Return (s, Some e) -> reported w' e.
Proof.
  unfold SendImage, context_WithTimeout, createTaskImage. simpl.
  unfold mbind, M_bind, Logger_Println. simpl.
  create_phase_logs ltac:(fun Hlog Hrun =>
    rewrite SendImage_poll_eq in Hrun;
    apply (poll_until_logs _ _ _ _ _ (SendImage_decode_logs _)) in Hrun
      as [Hlog2 Hrep];
    split; [|exact Hrep];
    eapply logs_on_trans; [|exact Hlog2]; logged_after Hlog).
Qed.

Lemma SolveAndReturnSolution_logs fuel h o w out w' :
  heap w !! h = Some o ->
  SolveAndReturnSolution E fuel h w = (out, w') ->
  logs_on (Client_ o) w w' /\ forall s e, out = Return (s, Some e) -> reported w' e.
Proof.
  intros Hh.
  unfold SolveAndReturnSolution, context_WithTimeout, load. simpl.
  unfold mbind, M_bind, Logger_Println. simpl. rewrite Hh.
  create_phase_logs ltac:(fun Hlog Hrun =>
    rewrite SolveAndReturnSolution_poll_eq in Hrun;
    apply (poll_until_logs _ _ _ _ _ (SolveAndReturnSolution_decode_logs _ _)) in Hrun
      as [Hlog2 Hrep];
    split; [|exact Hrep];
    eapply logs_on_trans; [|exact Hlog2]; logged_after Hlog).
Qed.

(** X13.  The log of a run.  Both operations only add to the log, and every
    line they add goes through the logger of the client: of the client
    SendImage is called on, and of the client of the task for
    SolveAndReturnSolution. *)
Theorem runs_log_through_the_client fuel c img h o w out w' :
  (SendImage E fuel c img w = (out, w') ->
   exists lines, log w' = log w ++ lines /\ Forall (written_by c) lines)
  /\
  (heap w !! h = Some o ->
   SolveAndReturnSolution E fuel h w = (out, w') ->
   exists lines, log w' = log w ++ lines /\ Forall (written_by (Client_ o)) lines).
Proof.
  split.
  - intros Hrun. apply SendImage_logs in Hrun as [H _]. exact H.
  - intros Hh Hrun. apply (SolveAndReturnSolution_logs _ _ _ _ _ _ Hh) in Hrun as [H _].
    exact H.
Qed.

(** X14.  No error is returned unlogged.  When an operation returns an error,
    the last line of the log names it: the line shows the error that the
    returned one wraps, or the errorDescription that is its text, or its
    text up to the capital of the first letter. *)
Theorem returned_errors_are_logged fuel c img h o w s e w' :
  (SendImage E fuel c img w = (Return (s, Some e), w') ->
   exists line, last (log w') = Some line /\ names line e)
  /\
  (heap w !! h = Some o ->
   SolveAndReturnSolution E fuel h w = (Return (s, Some e), w') ->
   exists line, last (log w') = Some line /\ names line e).
Proof.
  split.
  - intros Hrun. apply SendImage_logs in Hrun as [_ H]. apply (H s e eq_refl).
  - intros Hh Hrun. apply (SolveAndReturnSolution_logs _ _ _ _ _ _ Hh) in Hrun as [_ H].
    apply (H s e eq_refl).
Qed.

(** *** Closing the response body *)

(** X15.  An error of [resp.Body.Close] is logged, by the deferred function and
    so as the last line of the call, and it is not returned: what
    makeRequest returns is what the status and the body of the response
    give. *)
Theorem close_error_is_logged_not_returned c ctx endpoint body w req resp cerr :
  prepared E ctx endpoint body = Some req ->
  snd (round_trip E c req (length (calls w)) (now w)) = inr resp ->
  CloseErr resp = Some cerr ->
  let r := makeRequest E c ctx endpoint body w in
  last (log (snd r))
    = Some (Printf (Prefix (Logger c)) "Error closing response body: %v\n" [AError cerr]) /\
  exists res, fst r = Return res /\ delivered (inr resp) res.
Proof.
  unfold prepared, makeRequest.
  destruct (url_Parse E (apiBaseURL +:+ endpoint)) as [e1|u]; [discriminate|].
  destruct (json_Marshal E body) as [e2|b]; [discriminate|].
  destruct (http_NewRequestWithContext E ctx "POST" u b) as [e3|req0]; [discriminate|].
  intros [= <-] Hres Hclose.
  unfold mbind, M_bind, Logger_Printf, HTTPClient_Do, defer, mret, M_ret. simpl.
  change (calls (add_log ?l w)) with (calls w).
  destruct (round_trip E c _ (length (calls w)) (now w)) as [t' res].
  simpl in Hres. subst res. simpl. rewrite Hclose.
  destruct (non_2xx resp) eqn:Hst; simpl.
  { split; [apply last_snoc|]. eexists. split; [reflexivity|]. constructor. exact Hst. }
  destruct (Decoded resp) as [err|m] eqn:Hdec; simpl.
  { split; [apply last_snoc|]. eexists. split; [reflexivity|].
    constructor; assumption. }
  split; [apply last_snoc|]. eexists. split; [reflexivity|]. constructor; assumption.
Qed.

(** *** The client's own timeout *)

Lemma round_trip_by_deadline c req n t d :
  responsive E ->
  Deadline (Ctx req) = Some d ->
  (0 < Timeout (HTTPClient c) -> d <= t + Timeout (HTTPClient c)) ->
  fails_by_deadline_only
    {| call_req := req; call_result := snd (round_trip E c req n t) |}.
Proof.
  intros Hresp Hd Hto err Hres. simpl in *.
  destruct (Hresp n req) as (resp & Hreply).
  destruct (round_trip_answer E c req n t d resp Hd Hto Hreply) as [(H & _)|(H & _)];
    congruence.
Qed.

Lemma poll_until_by_deadline decode c ctx taskID d :
  (forall m w1 o w2, decode m w1 = (o, w2) -> trace w2 = trace w1 /\ now w2 = now w1) ->
  responsive E ->
  Deadline ctx = Some d ->
  forall fuel w out w',
    (0 < Timeout (HTTPClient c) -> d <= now w + Timeout (HTTPClient c)) ->
    poll_until E decode fuel c ctx taskID w = (out, w') ->
    exists new, calls w' = calls w ++ new /\ Forall fails_by_deadline_only new.
Proof.
  intros Hdecode Hresp Hd.
  assert (Hci : 0 < checkInterval) by reflexivity.
  induction fuel as [|fuel IH]; intros w out w' Hto Hrun.
  { injection Hrun as <- <-. exists []. rewrite app_nil_r. split; [reflexivity|constructor]. }
  simpl in Hrun. unfold mbind, M_bind in Hrun.
  destruct (getTaskResult E c ctx taskID w) as [o1 w1] eqn:Hget.
  apply getTaskResult_run in Hget as (_ & Hcases).
  destruct Hcases as [(_ & Htr & _ & err & _ & ->)
                     |(req & Hprep & Htr & Hnow1 & Hout)].
  - simpl in Hrun. injection Hrun as <- <-. exists [].
    unfold calls. simpl. rewrite Htr, app_nil_r. split; [reflexivity|constructor].
  - simpl in Htr, Hnow1, Hout.
    pose proof (prepared_Ctx E _ _ _ _ Hprep) as Hctx.
    assert (Hcall : fails_by_deadline_only
              {| call_req := req;
                 call_result := snd (round_trip E c req (length (calls w)) (now w)) |}).
    { apply (round_trip_by_deadline c req _ _ d Hresp); [rewrite Hctx; exact Hd|exact Hto]. }
    pose proof (calls_snoc _ _ _ Htr) as Hc1.
    pose proof (round_trip_le E c req (length (calls w)) (now w)) as Hle.
    destruct Hout as [(m & Hans & ->)|(err & _ & ->)]; simpl in Hrun.
    + destruct (status_ready m).
      * unfold Logger_Printf in Hrun. simpl in Hrun.
        apply Hdecode in Hrun as [Htr2 _]. simpl in Htr2.
        eexists [_]. split; [|constructor; [exact Hcall|constructor]].
        unfold calls at 1. rewrite Htr2. exact Hc1.
      * unfold Logger_Printf, time_Sleep in Hrun. simpl in Hrun.
        apply IH in Hrun as (new & Hc & Hnew).
        -- eexists (_ :: new). split; [|constructor; [exact Hcall|exact Hnew]].
           rewrite Hc. unfold calls at 1. simpl. rewrite omap_app. simpl.
           rewrite app_nil_r. fold (calls w1). rewrite Hc1, <- app_assoc. reflexivity.
        -- simpl. intros H. specialize (Hto H). lia.
    + injection Hrun as <- <-. eexists [_].
      split; [|constructor; [exact Hcall|constructor]]. exact Hc1.
Qed.

Lemma operation_by_deadline decode wrap c body fuel w out w' :
  (forall m w1 o w2, decode m w1 = (o, w2) -> trace w2 = trace w1 /\ now w2 = now w1) ->
  responsive E ->
  (0 < Timeout (HTTPClient c) -> defaultTimeout <= Timeout (HTTPClient c)) ->
  operation_run E decode wrap c body fuel w out w' ->
  exists new, calls w' = calls w ++ new /\ Forall fails_by_deadline_only new.
Proof.
  intros Hdecode Hresp Hto Hrun.
  set (d := now w + defaultTimeout).
  assert (Hfirst : forall req, prepared E {| Deadline := Some d |} "/createTask" body = Some req ->
            fails_by_deadline_only (call_of E c req w)).
  { intros req Hprep. apply (round_trip_by_deadline c req _ _ d Hresp).
    - rewrite (prepared_Ctx E _ _ _ _ Hprep). reflexivity.
    - intros H. specialize (Hto H). unfold d. lia. }
  assert (Hone : forall req w0,
            prepared E {| Deadline := Some d |} "/createTask" body = Some req ->
            quiet (after_call E c req w) w0 ->
            exists new, calls w0 = calls w ++ new /\ Forall fails_by_deadline_only new).
  { intros req w0 Hprep Hq. exists [call_of E c req w].
    split; [apply only_call_after, Hq|constructor; [apply Hfirst, Hprep|constructor]]. }
  destruct Hrun as [(_ & Hq & _)|(req & Hprep & [(_ & Hq & _)|(m & _ & Hdec)])].
  - exists []. rewrite app_nil_r. split; [apply quiet_calls, Hq|constructor].
  - apply (Hone _ _ Hprep Hq).
  - destruct (create_decision m) as [p|dsc| |taskID];
      try (destruct Hdec as [_ Hq]; apply (Hone _ _ Hprep Hq)).
    destruct Hdec as (w1 & Hq & Hpoll).
    pose proof (only_call_after E _ _ _ _ Hq) as Hc1.
    destruct Hq as (_ & Hnow1 & _). rewrite after_call_now in Hnow1.
    pose proof (round_trip_le E c req (length (calls w)) (now w)) as Hle.
    apply (poll_until_by_deadline _ _ {| Deadline := Some d |} _ d Hdecode Hresp eq_refl)
      in Hpoll as (new & Hc & Hnew).
    + exists (call_of E c req w :: new).
      split; [rewrite Hc, Hc1, <- app_assoc; reflexivity|].
      constructor; [apply Hfirst, Hprep|exact Hnew].
    + intros H. specialize (Hto H). unfold d. lia.
Qed.

(** X16.  With a client of NewClient, the client's own timeout never comes
    first.  NewClient gives the HTTP client the timeout that the operations
    give their context, so that, on a service that responds to every
    request, a call of a run fails in one way only: by the deadline of the
    operation. *)
Theorem NewClient_timeout_never_comes_first apiKey logger fuel img h o w out w' :
  responsive E ->
  (SendImage E fuel (NewClient apiKey logger) img w = (out, w') ->
   exists new, calls w' = calls w ++ new /\ Forall fails_by_deadline_only new)
  /\
  (heap w !! h = Some o -> Client_ o = NewClient apiKey logger ->
   SolveAndReturnSolution E fuel h w = (out, w') ->
   exists new, calls w' = calls w ++ new /\ Forall fails_by_deadline_only new).
Proof.
  intros Hresp. split.
  - intros Hrun. apply SendImage_operation in Hrun.
    eapply operation_by_deadline; [|exact Hresp| |exact Hrun].
    + intros ? ? ? ?. apply SendImage_decode_trace.
    + intros _. simpl. lia.
  - intros Hh Hc Hrun. apply (SolveAndReturnSolution_operation _ _ _ _ _ _ Hh) in Hrun.
    eapply operation_by_deadline; [|exact Hresp| |exact Hrun].
    + intros ? ? ? ?. apply SolveAndReturnSolution_decode_trace.
    + rewrite Hc. intros _. simpl. lia.
Qed.

(** *** A poll that is answered "ready" *)

Lemma index_Some (m : gmap string Value) k v : m !! k = Some v -> index m k = v.
Proof. unfold index. intros ->. reflexivity. Qed.

(** X17.  A complete answer is returned.  When a poll of SendImage is
    answered with the status "ready" and a solution whose text is a
    string, SendImage returns that text and no error; when a poll of
    SolveAndReturnSolution is answered "ready" with a solution whose
    gRecaptchaResponse, userAgent and respKey are strings, it returns the
    gRecaptchaResponse and no error, and the task holds the userAgent and
    the respKey.  In both cases that poll is the last call, and the run
    has slept once for every poll before it. *)
Theorem ready_answer_is_returned fuel c img h o w out w' i call m sol :
  calls w' !! (length (calls w) + S i)%nat = Some call ->
  answered call m ->
  m !! "status" = Some (VString "ready") ->
  m !! "solution" = Some (VMap sol) ->
  (forall text,
     sol !! "text" = Some (VString text) ->
     SendImage E fuel c img w = (out, w') ->
     out = Return (text, None) /\
     length (calls w') = (length (calls w) + S (S i))%nat /\
     slept w' = slept w ++ repeat checkInterval i)
  /\
  (forall g ua rk,
     sol !! "gRecaptchaResponse" = Some (VString g) ->
     sol !! "userAgent" = Some (VString ua) ->
     sol !! "respKey" = Some (VString rk) ->
     heap w !! h = Some o ->
     SolveAndReturnSolution E fuel h w = (out, w') ->
     out = Return (g, None) /\
     heap w' = <[h := with_RespKey rk (with_UserAgent ua o)]> (heap w) /\
     length (calls w') = (length (calls w) + S (S i))%nat /\
     slept w' = slept w ++ repeat checkInterval i).
Proof.
  intros Hcall Hans Hstatus Hsol.
  pose proof (status_ready_true _ Hstatus) as Hready.
  apply index_Some in Hsol.
  assert (Hsl : forall c0 ps,
             trace w' = trace w ++ Called c0 :: awaited ps ++ map Called [call] ->
             slept w' = slept w ++ repeat checkInterval (length ps)).
  { intros c0 ps Htr. unfold slept. rewrite Htr.
    change (Called c0 :: awaited ps ++ map Called [call])
      with ([Called c0] ++ awaited ps ++ map Called [call]).
    rewrite app_assoc, slept_awaited_app, omap_app. simpl. rewrite app_nil_r.
    reflexivity. }
  split.
  - intros text Htext Hrun. apply index_Some in Htext.
    destruct (SendImage_polls E _ _ _ _ _ _ _ _ Hrun Hcall)
      as (c0 & ps & final & Htr & Hc & Hps & Hlen & Hend).
    rewrite Hc, lookup_after in Hcall.
    destruct (ready_is_last _ _ _ _ _ Hps Hlen Hcall Hans Hready) as [-> ->].
    split; [|split; [rewrite Hc, length_app; simpl; rewrite length_app; simpl; lia
                    |apply (Hsl _ _ Htr)]].
    destruct (loop_end_ready _ _ _ _ _ _ Hend Hans Hready) as (w1 & _ & Hdec).
    apply SendImage_decode_inv in Hdec
      as (_ & [(sol' & text' & Hsol' & Htext' & ->)|(e & -> & _ & Hno)]).
    + congruence.
    + destruct (Hno _ _ Hsol Htext).
  - intros g ua rk Hg Hua Hrk Hh Hrun.
    apply index_Some in Hg. apply index_Some in Hua. apply index_Some in Hrk.
    destruct (SolveAndReturnSolution_polls E _ _ _ _ _ _ _ _ Hh Hrun Hcall)
      as (c0 & ps & final & Htr & Hc & Hps & Hlen & Hend).
    rewrite Hc, lookup_after in Hcall.
    destruct (ready_is_last _ _ _ _ _ Hps Hlen Hcall Hans Hready) as [-> ->].
    assert (Hcount : length (calls w') = (length (calls w) + S (S (length ps)))%nat).
    { rewrite Hc, length_app. simpl. rewrite length_app. simpl. lia. }
    destruct (loop_end_ready _ _ _ _ _ _ Hend Hans Hready) as (w1 & Hh1 & Hdec).
    rewrite <- Hh1 in Hh. pose proof Hdec as Hrun'.
    apply (SolveAndReturnSolution_decode_inv _ _ _ _ _ _ _ Hh) in Hdec
      as (_ & _ & [(e & -> & _)
                  |(sol' & g' & Hsol' & Hg' &
                    [(Hno & _)|[(ua' & Hua' & Hno & _)
                               |(ua' & rk' & Hua' & Hrk' & -> & Hheap)]])]).
    + apply SolveAndReturnSolution_decode_error in Hrun'
        as (_ & [(Hno & _)|(sol' & Hsol' & Hno & _)]).
      * rewrite Hsol in Hno. discriminate Hno.
      * apply index_Some in Hsol'. rewrite Hsol in Hsol'. injection Hsol' as <-.
        rewrite Hg in Hno. discriminate Hno.
    + rewrite Hsol in Hsol'. injection Hsol' as <-. rewrite Hua in Hno. discriminate Hno.
    + rewrite Hsol in Hsol'. injection Hsol' as <-. rewrite Hrk in Hno. discriminate Hno.
    + rewrite Hsol in Hsol'. injection Hsol' as <-.
      split; [congruence|]. split; [|split; [exact Hcount|apply (Hsl _ _ Htr)]].
      rewrite Hheap, Hh1. congruence.
Qed.

End Runs.

(** ** The clock of a run *)

Section Clock.

Context (E : Env).

(** A response arrives after the latency of the service, neither sooner
    nor later. *)
Lemma round_trip_inr_time c req n t resp :
  snd (round_trip E c req n t) = inr resp ->
  fst (round_trip E c req n t) = t + Z.of_N (latency (service E n req)).
Proof.
  unfold round_trip, limit.
  repeat case_match; simplify_eq; simpl; intros; simplify_eq; reflexivity.
Qed.

Lemma duration_awaited_cons n p ps :
  duration E n (awaited (p :: ps))
  = call_latency E n p + 2000000000 + duration E (S n) (awaited ps).
Proof.
  change (awaited (p :: ps)) with (Called p :: Slept checkInterval :: awaited ps).
  cbn [duration]. change (Z.max 0 checkInterval) with 2000000000. lia.
Qed.


(** Every run of the loop, with the clock.  The polls answered "not
    ready" take their latency and a full sleep each, whatever the
    deadline; [T] is when the last of these sleeps ends, and the loop goes
    on from there: the fuel is spent, or the request cannot be built, or a
    last poll, started at [T], fails, or it is answered "ready". *)
Lemma poll_until_clock decode c ctx taskID d fuel : forall w out w',
  Deadline ctx = Some d ->
  poll_until E decode fuel c ctx taskID w = (out, w') ->
  exists ps, Forall (waiting_poll E c ctx taskID) ps /\
    let n := (length (calls w) + length ps)%nat in
    let T := now w + duration E (length (calls w)) (awaited ps) in
    (ps <> [] -> T - checkInterval < d) /\
    ((out = OutOfFuel /\ length ps = fuel /\
      trace w' = trace w ++ awaited ps /\ heap w' = heap w /\ now w' = T)
     \/
     (prepared E ctx "/getTaskResult" (getTaskResult_body c taskID) = None /\ ps = [] /\
      trace w' = trace w /\ heap w' = heap w /\ now w' = now w /\
      exists err, TransportError err /\ out = Return ("", Some (poll_error err)))
     \/
     (exists req err,
        prepared E ctx "/getTaskResult" (getTaskResult_body c taskID) = Some req /\
        let rt := round_trip E c req n T in
        delivered (snd rt) (∅, Some err) /\
        trace w' = trace w ++ awaited ps
                     ++ [Called {| call_req := req; call_result := snd rt |}] /\
        heap w' = heap w /\ now w' = fst rt /\
        out = Return ("", Some (poll_error err)))
     \/
     (exists req m w1,
        prepared E ctx "/getTaskResult" (getTaskResult_body c taskID) = Some req /\
        let rt := round_trip E c req n T in
        let cl := {| call_req := req; call_result := snd rt |} in
        answered cl m /\ status_ready m = true /\
        trace w1 = trace w ++ awaited ps ++ [Called cl] /\ heap w1 = heap w /\
        now w1 = fst rt /\
        decode m w1 = (out, w'))).
Proof.
  induction fuel as [|fuel IH]; intros w out w' Hd Hrun.
  { injection Hrun as <- <-. exists []. split; [constructor|]. simpl.
    split; [congruence|]. left. rewrite app_nil_r, Z.add_0_r. auto. }
  simpl in Hrun. unfold mbind, M_bind in Hrun.
  destruct (getTaskResult E c ctx taskID w) as [o1 w1] eqn:Hget.
  apply getTaskResult_run in Hget as (Hheap & Hcases).
  destruct Hcases as [(Hprep & Htr & Hnow & err & HT & ->)
                     |(req & Hprep & Htr & Hnow & [(m & Hans & ->)|(err & Hdel & ->)])];
    simpl in Hrun.
  - injection Hrun as <- <-. exists []. split; [constructor|]. simpl.
    split; [congruence|]. right; left. repeat split; try assumption. eauto.
  - match type of Htr with context [Called ?x] => set (cl := x) in * end.
    pose proof (prepared_Ctx E _ _ _ _ Hprep) as Hctx.
    assert (Htime : now w1 = now w + call_latency E (length (calls w)) cl /\ now w1 < d).
    { destruct Hans as (resp & Hres & _). simpl in Hres, Hnow. rewrite Hnow.
      split; [apply (round_trip_inr_time _ _ _ _ _ Hres)|].
      apply round_trip_inr in Hres as (_ & Hlt). apply Hlt. rewrite Hctx. exact Hd. }
    destruct Htime as [Htime Hlt].
    destruct (status_ready m) eqn:Hready.
    + exists []. split; [constructor|]. simpl. rewrite Nat.add_0_r, Z.add_0_r.
      split; [congruence|]. right; right; right.
      exists req, m. eexists. split; [exact Hprep|]. simpl. fold cl.
      split; [exact Hans|]. split; [exact Hready|].
      split; [|split; [|split; [|exact Hrun]]]; simpl; assumption.
    + unfold Logger_Printf, time_Sleep in Hrun. simpl in Hrun.
      match type of Hrun with poll_until _ _ _ _ _ _ ?x = _ => set (w2 := x) in * end.
      assert (Htr2 : trace w2 = trace w ++ [Called cl; Slept checkInterval]).
      { unfold w2. simpl. rewrite Htr, <- app_assoc. reflexivity. }
      assert (Hheap2 : heap w2 = heap w) by exact Hheap.
      assert (Hcalls : calls w2 = calls w ++ [cl]).
      { unfold calls. rewrite Htr2, omap_app. reflexivity. }
      apply IH in Hrun as (ps & Hps & Hlate & Hshape); [|exact Hd].
      cbv zeta in Hlate, Hshape.
      assert (Hn : (length (calls w2) + length ps
                    = length (calls w) + length (cl :: ps))%nat).
      { rewrite Hcalls, length_app. simpl. lia. }
      assert (HT : now w2 + duration E (length (calls w2)) (awaited ps)
                   = now w + duration E (length (calls w)) (awaited (cl :: ps))).
      { rewrite duration_awaited_cons, Hcalls, length_app. simpl length.
        replace (length (calls w) + 1)%nat with (S (length (calls w))) by lia.
        change (now w2) with (now w1 + Z.max 0 checkInterval). rewrite Htime.
        change (Z.max 0 checkInterval) with 2000000000. lia. }
      rewrite HT in Hlate. rewrite HT, Hn, Htr2, Hheap2 in Hshape.
      exists (cl :: ps).
      split; [constructor; [split; [exact Hprep|exists m; split; [exact Hans|exact Hready]]
                           |exact Hps]|].
      cbv zeta. split.
      { intros _. destruct ps as [|p ps'].
        - rewrite duration_awaited_cons. simpl. change checkInterval with 2000000000. lia.
        - apply Hlate. discriminate. }
      destruct Hshape as [(-> & <- & H1 & ? & ?)
                         |[(Hnone & _)
                          |[(req' & e & ? & ? & H1 & ? & ? & ?)
                           |(req' & m' & w3 & ? & ? & ? & H1 & ? & ? & ?)]]].
      * left. split; [reflexivity|]. split; [reflexivity|].
        split; [rewrite H1, <- app_assoc; reflexivity|]. split; assumption.
      * congruence.
      * right; right; left. exists req', e. split; [assumption|]. cbv zeta.
        split; [assumption|]. split; [rewrite H1, <- app_assoc; reflexivity|].
        repeat (split; [assumption|]). assumption.
      * right; right; right. exists req', m', w3. split; [assumption|]. cbv zeta.
        split; [assumption|]. split; [assumption|].
        split; [rewrite H1, <- app_assoc; reflexivity|].
        repeat (split; [assumption|]). assumption.
  - injection Hrun as <- <-. exists []. split; [constructor|]. simpl.
    rewrite Nat.add_0_r, Z.add_0_r.
    split; [congruence|]. right; right; left. exists req, err. simpl.
    split; [exact Hprep|]. split; [exact Hdel|]. repeat split; assumption.
Qed.

(** Every run of an operation, with the clock: nothing is sent; or the
    create call is the only call; or the create call was answered with a
    task identifier and the loop ran, [T] being the end of the last sleep
    (the end of the create call when nothing slept). *)
Lemma operation_clock decode wrap c body fuel w out w' :
  (forall m w1 o w2, decode m w1 = (o, w2) -> trace w2 = trace w1 /\ now w2 = now w1) ->
  operation_run E decode wrap c body fuel w out w' ->
  let d := now w + defaultTimeout in
  let ctx := {| Deadline := Some d |} in
  let n0 := length (calls w) in
  (prepared E ctx "/createTask" body = None /\ trace w' = trace w /\ now w' = now w)
  \/
  exists req, prepared E ctx "/createTask" body = Some req /\
    let c0 := call_of E c req w in
    ((trace w' = trace w ++ [Called c0] /\
      now w' = fst (round_trip E c req n0 (now w)) /\
      forall m taskID, answered c0 m -> create_decision m <> CreateTask taskID)
     \/
     exists m0 taskID ps,
       answered c0 m0 /\ create_decision m0 = CreateTask taskID /\
       Forall (waiting_poll E c ctx taskID) ps /\
       let done := Called c0 :: awaited ps in
       let n := (S n0 + length ps)%nat in
       let T := now w + duration E n0 done in
       (ps <> [] -> T - checkInterval < d) /\
       ((trace w' = trace w ++ done /\ now w' = T /\
         ((out = OutOfFuel /\ length ps = fuel)
          \/ (prepared E ctx "/getTaskResult" (getTaskResult_body c taskID) = None /\
              ps = [] /\
              exists err, TransportError err /\ out = Return ("", Some (poll_error err)))))
        \/
        exists preq,
          prepared E ctx "/getTaskResult" (getTaskResult_body c taskID) = Some preq /\
          let rt := round_trip E c preq n T in
          let cl := {| call_req := preq; call_result := snd rt |} in
          trace w' = trace w ++ done ++ [Called cl] /\ now w' = fst rt /\
          ((exists err, delivered (snd rt) (∅, Some err) /\
              out = Return ("", Some (poll_error err)))
           \/ (exists m w1, answered cl m /\ status_ready m = true /\
                 decode m w1 = (out, w'))))).
Proof.
  intros Hdecode Hrun d ctx n0.
  destruct Hrun as [(Hprep & (Htr & Hnow & _) & _)
                   |(req & Hprep & [(Hno & Hq & _)|(m0 & Hans0 & Hdec)])].
  { left. auto. }
  - right. exists req. split; [exact Hprep|]. left.
    destruct Hq as (Htr & Hnow & _).
    rewrite Htr, Hnow, after_call_trace, after_call_now.
    split; [reflexivity|]. split; [reflexivity|].
    intros m taskID Hans. destruct (Hno m Hans).
  - right. exists req. split; [exact Hprep|].
    assert (Honly : forall w1, quiet (after_call E c req w) w1 ->
              trace w1 = trace w ++ [Called (call_of E c req w)] /\
              now w1 = fst (round_trip E c req n0 (now w))).
    { intros w1 (Htr & Hnow & _). rewrite Htr, Hnow, after_call_trace, after_call_now.
      split; reflexivity. }
    destruct (create_decision m0) as [p|dsc| |taskID] eqn:Hcd;
      try (left; destruct Hdec as [_ Hq]; destruct (Honly _ Hq) as [Htr Hnow];
           split; [exact Htr|]; split; [exact Hnow|];
           intros m taskID Hans; rewrite (answered_inj _ _ _ Hans Hans0), Hcd;
           discriminate).
    right. destruct Hdec as (w1 & Hq & Hpoll).
    destruct (Honly _ Hq) as [Htr1 Hnow1].
    assert (Hcalls1 : calls w1 = calls w ++ [call_of E c req w])
      by (apply (calls_snoc _ _ _ Htr1)).
    assert (Hnow1' : now w1 = now w + call_latency E n0 (call_of E c req w)).
    { rewrite Hnow1. destruct Hans0 as (resp & Hres & _). simpl in Hres.
      apply (round_trip_inr_time _ _ _ _ _ Hres). }
    fold d in Hpoll. fold ctx in Hpoll.
    destruct (poll_until_clock decode c ctx taskID d fuel w1 out w' eq_refl Hpoll)
      as (ps & Hps & Hlate & Hshape).
    cbv zeta in Hlate, Hshape.
    assert (Hn : (length (calls w1) + length ps = S n0 + length ps)%nat).
    { rewrite Hcalls1, length_app. simpl. unfold n0. lia. }
    assert (HT : now w1 + duration E (length (calls w1)) (awaited ps)
                 = now w + duration E n0 (Called (call_of E c req w) :: awaited ps)).
    { rewrite Hcalls1, length_app. simpl length.
      replace (length (calls w) + 1)%nat with (S n0) by (unfold n0; lia).
      cbn [duration]. rewrite Hnow1'. lia. }
    rewrite HT in Hlate. rewrite HT, Hn, Htr1 in Hshape.
    exists m0, taskID, ps. split; [exact Hans0|]. split; [exact Hcd|].
    split; [exact Hps|]. cbv zeta. split; [exact Hlate|].
    destruct Hshape as [(-> & Hf & H1 & _ & Hnow)
                       |[(Hnone & -> & H1 & _ & Hnow & Herr)
                        |[(preq & e & Hp & Hdel & H1 & _ & Hnow & ->)
                         |(preq & m & w2 & Hp & Hans & Hready & H1 & _ & Hnow & Hd)]]].
    + left. split; [rewrite H1, <- app_assoc; reflexivity|]. split; [exact Hnow|].
      left. auto.
    + left. split; [rewrite H1; reflexivity|].
      split; [rewrite Hnow, Hnow1'; cbn [duration awaited flat_map]; lia|].
      right. auto.
    + right. exists preq. split; [exact Hp|]. cbv zeta.
      split; [rewrite H1, <- app_assoc; reflexivity|]. split; [exact Hnow|].
      left. eauto.
    + right. exists preq. split; [exact Hp|]. cbv zeta.
      destruct (Hdecode _ _ _ _ Hd) as [Htr' Hnow'].
      split; [rewrite Htr', H1, <- app_assoc; reflexivity|].
      split; [rewrite Hnow'; exact Hnow|].
      right. eauto.
Qed.

(** *** A poll, a sleep, a poll *)

(** C1.  In a run of SendImage whose first poll is answered
    {status: "processing"} and whose second poll is answered
    {status: "ready", solution: {text: text}}, the calls are the create
    call and these two polls, with exactly one sleep, of two seconds,
    between the polls; the run returns [text] and no error, and it takes
    the time of the three calls and two seconds more. *)
Theorem SendImage_processing_then_ready fuel c img w out w' c1 c2 m1 m2 sol text :
  SendImage E fuel c img w = (out, w') ->
  calls w' !! (length (calls w) + 1)%nat = Some c1 -> answered c1 m1 ->
  m1 !! "status" = Some (VString "processing") ->
  calls w' !! (length (calls w) + 2)%nat = Some c2 -> answered c2 m2 ->
  m2 !! "status" = Some (VString "ready") ->
  m2 !! "solution" = Some (VMap sol) ->
  sol !! "text" = Some (VString text) ->
  out = Return (text, None) /\
  (exists c0,
     trace w' = trace w ++ [Called c0; Called c1; Slept 2000000000; Called c2] /\
     now w' = now w + call_latency E (length (calls w)) c0
              + call_latency E (length (calls w) + 1) c1
              + 2000000000
              + call_latency E (length (calls w) + 2) c2) /\
  slept w' = slept w ++ [2000000000].
Proof.
  intros Hrun Hc1 Hans1 Hst1 Hc2 Hans2 Hst2 Hsol Htext.
  apply status_ready_true in Hst2.
  destruct (SendImage_polls E _ _ _ _ _ _ _ _ Hrun Hc2)
    as (c0 & ps & final & Htr & Hc & Hps & Hlen & Hend).
  rewrite Hc, lookup_after in Hc1, Hc2.
  destruct (ready_is_last _ _ _ _ _ Hps Hlen Hc2 Hans2 Hst2) as [-> Hone].
  destruct ps as [|p [|? ?]]; try discriminate.
  simpl in Hc1. injection Hc1 as ->.
  destruct (loop_end_ready _ _ _ _ _ _ Hend Hans2 Hst2) as (w1 & _ & Hdec).
  apply SendImage_decode_inv in Hdec
    as (_ & [(sol' & text' & Hsol' & Htext' & ->)|(e & _ & _ & Hno)]).
  2:{ exfalso. apply (Hno sol text); unfold index.
      - rewrite Hsol. reflexivity.
      - rewrite Htext. reflexivity. }
  unfold index in Hsol'. rewrite Hsol in Hsol'. simpl in Hsol'.
  injection Hsol' as <-.
  unfold index in Htext'. rewrite Htext in Htext'. simpl in Htext'.
  injection Htext' as <-.
  split; [reflexivity|].
  split; [|unfold slept; rewrite Htr, omap_app; reflexivity].
  exists c0. split; [exact Htr|].
  apply SendImage_operation in Hrun.
  apply operation_clock in Hrun; [|apply SendImage_decode_trace].
  cbv zeta in Hrun. rewrite Htr in Hrun.
  destruct Hrun as [(_ & H & _)|(req & _ & [(H & _)|(m0 & taskID & ps & _ & _ & _ & _ & Hcases)])].
  { apply (f_equal length) in H. rewrite length_app in H. simpl in H. lia. }
  { apply app_inv_head in H. discriminate H. }
  destruct Hcases as [(H & _)|(preq & _ & H & Hnow & _)].
  { apply app_inv_head in H.
    destruct ps as [|p [|q r]]; simpl in H; discriminate H. }
  apply app_inv_head in H.
  destruct ps as [|p [|q r]]; simpl in H; try discriminate H.
  injection H as H0 H1 H2.
  rewrite Hnow.
  assert (Hres : exists resp,
            snd (round_trip E c preq (S (length (calls w)) + length [p])
                   (now w + duration E (length (calls w))
                              (Called (call_of E c req w) :: awaited [p])))
            = inr resp).
  { destruct Hans2 as (resp & Hres & _). rewrite H2 in Hres. simpl in Hres. eauto. }
  destruct Hres as (resp & Hres).
  rewrite (round_trip_inr_time _ _ _ _ _ Hres).
  rewrite H0, H2, <- H1. unfold call_latency at 3. simpl call_req.
  cbn [duration awaited flat_map app length].
  change (Z.max 0 checkInterval) with 2000000000.
  replace (length (calls w) + 1)%nat with (S (length (calls w))) by lia.
  replace (length (calls w) + 2)%nat with (S (length (calls w)) + 1)%nat by lia.
  lia.
Qed.

(** *** The sleeps run to their end *)

Lemma slept_events first ps final :
  omap sleep_of (map Called first ++ awaited ps ++ map Called final)
  = repeat 2000000000 (length ps).
Proof.
  rewrite !omap_app, !slept_called, slept_awaited, app_nil_r. reflexivity.
Qed.

(** An answered call ends before the deadline of its context, after its
    latency. *)
Lemma answered_in_time c req n t d m :
  Deadline (Ctx req) = Some d ->
  answered {| call_req := req; call_result := snd (round_trip E c req n t) |} m ->
  fst (round_trip E c req n t) = t + Z.of_N (latency (service E n req)) /\
  t + Z.of_N (latency (service E n req)) < d.
Proof.
  intros Hd (resp & Hres & _). simpl in Hres.
  pose proof (round_trip_inr_time _ _ _ _ _ Hres) as Ht.
  apply round_trip_inr in Hres as [_ Hlt]. specialize (Hlt d Hd).
  split; [exact Ht|lia].
Qed.

(** The sleeps of a run and its clock: every poll answered "not ready"
    is followed by a sleep of two seconds that runs to its end, whatever
    the deadline. *)
Lemma operation_sleeps decode wrap c body fuel w out w' :
  (forall m w1 o w2, decode m w1 = (o, w2) -> trace w2 = trace w1 /\ now w2 = now w1) ->
  operation_run E decode wrap c body fuel w out w' ->
  let d := now w + 60000000000 in
  exists first ps final,
    trace w' = trace w ++ map Called first ++ awaited ps ++ map Called final /\
    (length first <= 1)%nat /\ (length final <= 1)%nat /\
    Forall (fun call => exists m, answered call m) first /\
    Forall pending ps /\
    slept w' = slept w ++ repeat 2000000000 (length ps) /\
    let T := now w + duration E (length (calls w)) (map Called first ++ awaited ps) in
    T - 2000000000 < d /\ T <= now w' <= Z.max T d /\
    (d < T -> now w' = T) /\
    (ps = [] -> now w' <= d).
Proof.
  intros Hdecode Hrun d.
  assert (Hslept : forall first ps final,
            trace w' = trace w ++ map Called first ++ awaited ps ++ map Called final ->
            slept w' = slept w ++ repeat 2000000000 (length ps)).
  { intros first ps final Htr. unfold slept. rewrite Htr, omap_app, slept_events.
    reflexivity. }
  apply operation_clock in Hrun; [|exact Hdecode].
  cbv zeta in Hrun. change (now w + defaultTimeout) with d in Hrun.
  assert (Hd : d = now w + 60000000000) by reflexivity.
  destruct Hrun as [(_ & Htr & Hnow)
                   |(req & Hprep & [(Htr & Hnow & _)
                                   |(m0 & taskID & ps & Hans0 & _ & Hps & Hlate & Hcases)])].
  - exists [], [], []. simpl. rewrite app_nil_r.
    split; [exact Htr|]. split; [lia|]. split; [lia|].
    split; [constructor|]. split; [constructor|].
    split; [unfold slept; rewrite Htr, app_nil_r; reflexivity|]. lia.
  - exists [], [], [call_of E c req w].
    split; [exact Htr|]. split; [simpl; lia|]. split; [simpl; lia|].
    split; [constructor|]. split; [constructor|].
    split; [apply (Hslept [] [] [call_of E c req w]), Htr|].
    cbv zeta. simpl duration.
    pose proof (round_trip_le E c req (length (calls w)) (now w)) as Hle.
    pose proof (round_trip_bound E c req (length (calls w)) (now w) d) as Hb.
    rewrite (prepared_Ctx E _ _ _ _ Hprep) in Hb. specialize (Hb eq_refl).
    rewrite Hnow. lia.
  - assert (Hpend : Forall pending ps).
    { eapply Forall_impl; [exact Hps|]. intros p [_ Hp]. exact Hp. }
    destruct (answered_in_time c req (length (calls w)) (now w) d m0) as [_ Hlt0].
    { rewrite (prepared_Ctx E _ _ _ _ Hprep). reflexivity. }
    { exact Hans0. }
    set (T := now w + duration E (length (calls w))
                        (Called (call_of E c req w) :: awaited ps)) in *.
    assert (HT0 : ps = [] -> T < d).
    { intros ->. unfold T. cbn [duration awaited flat_map]. unfold call_latency.
      simpl call_req. lia. }
    assert (HT1 : T - 2000000000 < d).
    { destruct ps as [|p ps'] eqn:Hps'; [specialize (HT0 eq_refl); lia|].
      rewrite <- Hps' in *. apply Hlate. rewrite Hps'. discriminate. }
    destruct Hcases as [(Htr & Hnow & _)|(preq & Hpprep & Htr & Hnow & _)].
    + exists [call_of E c req w], ps, []. simpl map. rewrite app_nil_r.
      split; [exact Htr|]. split; [simpl; lia|]. split; [simpl; lia|].
      split; [repeat constructor; eauto|]. split; [exact Hpend|].
      split; [apply (Hslept [call_of E c req w] ps []); simpl map;
              rewrite app_nil_r; exact Htr|].
      cbv zeta. change ([Called (call_of E c req w)] ++ awaited ps)
        with (Called (call_of E c req w) :: awaited ps). fold T.
      split; [exact HT1|]. split; [lia|]. split; [lia|].
      intros H. specialize (HT0 H). lia.
    + exists [call_of E c req w], ps.
      eexists [_]. simpl map.
      split; [rewrite Htr; reflexivity|].
      split; [simpl; lia|]. split; [simpl; lia|].
      split; [repeat constructor; eauto|]. split; [exact Hpend|].
      split; [eapply (Hslept [call_of E c req w] ps [_]); simpl map;
              rewrite Htr; reflexivity|].
      cbv zeta. change ([Called (call_of E c req w)] ++ awaited ps)
        with (Called (call_of E c req w) :: awaited ps). fold T.
      pose proof (round_trip_le E c preq (S (length (calls w)) + length ps) T) as Hle.
      pose proof (round_trip_bound E c preq (S (length (calls w)) + length ps) T d) as Hb.
      rewrite (prepared_Ctx E _ _ _ _ Hpprep) in Hb. specialize (Hb eq_refl).
      rewrite Hnow.
      split; [exact HT1|]. split; [lia|]. split; [lia|].
      intros H. specialize (HT0 H). lia.
Qed.

(** C5, as amended.  The timeout scope is honoured at the HTTP calls and
    not at the sleep between polls.  A run of a solve operation is made of
    calls that are answered, each poll among them followed by a sleep of
    two seconds that runs to its end, and then of one more call at most.
    When the answered calls and the sleeps are over, at [T], the run has
    taken the latencies of these calls and two seconds for every sleep.
    The last sleep began before the deadline, and what comes after it ends
    by the deadline or, when the sleep has outlasted the deadline, at
    once: an expiry during a sleep is seen by the next poll only, less
    than two seconds late, when that sleep ends.  A run without a sleep
    ends by the deadline. *)
Theorem sleep_is_never_cut_short fuel c img h w out w' :
  SendImage E fuel c img w = (out, w') \/
  SolveAndReturnSolution E fuel h w = (out, w') ->
  let d := now w + 60000000000 in
  exists first ps final,
    trace w' = trace w ++ map Called first ++ awaited ps ++ map Called final /\
    (length first <= 1)%nat /\ (length final <= 1)%nat /\
    Forall (fun call => exists m, answered call m) first /\
    Forall pending ps /\
    slept w' = slept w ++ repeat 2000000000 (length ps) /\
    let T := now w + duration E (length (calls w)) (map Called first ++ awaited ps) in
    T - 2000000000 < d /\ T <= now w' <= Z.max T d /\
    (d < T -> now w' = T) /\
    (ps = [] -> now w' <= d).
Proof.
  intros [Hrun|Hrun].
  - apply SendImage_operation in Hrun.
    apply operation_sleeps in Hrun; [exact Hrun|apply SendImage_decode_trace].
  - destruct (heap w !! h) as [o|] eqn:Hh.
    + apply (SolveAndReturnSolution_operation E _ _ _ _ _ _ Hh) in Hrun.
      apply operation_sleeps in Hrun; [exact Hrun|].
      apply SolveAndReturnSolution_decode_trace.
    + rewrite (SolveAndReturnSolution_nil E _ _ _ Hh) in Hrun. injection Hrun as <- <-.
      intros d. exists [], [], []. simpl. rewrite !app_nil_r.
      split; [reflexivity|]. split; [lia|]. split; [lia|].
      split; [constructor|]. split; [constructor|].
      split; [reflexivity|]. unfold d. lia.
Qed.

(** *** A service that is never ready *)




End Clock.

(** ** The unchecked assertions *)

Section Assertions.

Context (E : Env).

(** *** A create response that reports an error *)

(** What the create phase decides on a response whose errorId is there
    and is not the number zero. *)
Lemma create_decision_errorId m v :
  m !! "errorId" = Some v ->
  (forall f, v = VFloat64 f -> PrimFloat.eqb f 0 = false) ->
  create_decision m
  = match float64_ok v, index m "errorDescription" with
    | None, _ => CreatePanic (TypeAssertionError v "float64")
    | Some _, VString d => CreateAPIError d
    | Some _, x => CreatePanic (TypeAssertionError x "string")
    end.
Proof.
  intros Hv Hnz. unfold create_decision. rewrite Hv.
  destruct v as [| | |f| | |]; try reflexivity.
  rewrite (Hnz f eq_refl). simpl.
  destruct (index m "errorDescription"); reflexivity.
Qed.

(** C3.  A create response whose errorId is there and is not the number
    zero.  When errorId is a number and errorDescription is the string
    [d], createTaskImage returns the zero identifier and
    SolveAndReturnSolution the empty string, each with an error whose
    message is [d], and SendImage hands the error of createTaskImage on
    under its own prefix.  When errorId is not a number, or
    errorDescription is absent or not a string, the unchecked assertion on
    it panics, and nothing is returned.  In all cases the create call is
    the only call. *)
Theorem nonzero_errorId_is_an_error_or_a_panic fuel c ctx img h o w m v :
  m !! "errorId" = Some v ->
  (forall f, v = VFloat64 f -> PrimFloat.eqb f 0 = false) ->
  (forall out w' call,
      createTaskImage E c ctx img w = (out, w') ->
      calls w' !! length (calls w) = Some call -> answered call m ->
      match float64_ok v, index m "errorDescription" with
      | None, _ => out = Panic (TypeAssertionError v "float64")
      | Some _, VString d => out = Return (0%float, Some (errors_New d))
      | Some _, x => out = Panic (TypeAssertionError x "string")
      end)
  /\
  (forall out w' call,
      heap w !! h = Some o ->
      SolveAndReturnSolution E fuel h w = (out, w') ->
      calls w' !! length (calls w) = Some call -> answered call m ->
      calls w' = calls w ++ [call] /\
      match float64_ok v, index m "errorDescription" with
      | None, _ => out = Panic (TypeAssertionError v "float64")
      | Some _, VString d => out = Return ("", Some (errors_New d))
      | Some _, x => out = Panic (TypeAssertionError x "string")
      end)
  /\
  (forall out w' call,
      SendImage E fuel c img w = (out, w') ->
      calls w' !! length (calls w) = Some call -> answered call m ->
      calls w' = calls w ++ [call] /\
      match float64_ok v, index m "errorDescription" with
      | None, _ => out = Panic (TypeAssertionError v "float64")
      | Some _, VString d =>
          out = Return ("", Some (fmt_Errorf "failed to send image: %w" (errors_New d)))
      | Some _, x => out = Panic (TypeAssertionError x "string")
      end).
Proof.
  intros Hv Hnz.
  pose proof (create_decision_errorId m v Hv Hnz) as Hdec.
  split; [|split].
  - intros out w' call Hrun Hcall Hans.
    apply createTaskImage_cases in Hrun
      as [(_ & Hq & _)|(req & _ & Hq & [(Hno & _)|(m' & Hans' & ->)])].
    + destruct (no_call_after _ _ _ Hq Hcall).
    + apply (first_call_after E c req) in Hcall; [|apply quiet_prefix, Hq].
      subst call. destruct (Hno m Hans).
    + apply (first_call_after E c req) in Hcall; [|apply quiet_prefix, Hq].
      subst call. rewrite <- (answered_inj _ _ _ Hans Hans'), Hdec.
      destruct (float64_ok v); [|reflexivity].
      destruct (index m "errorDescription"); reflexivity.
  - intros out w' call Hh Hrun Hcall Hans.
    pose proof (SolveAndReturnSolution_answered E _ _ _ _ _ _ _ _ Hh Hrun Hcall Hans) as H.
    simpl in H. rewrite Hdec in H.
    destruct (float64_ok v); [|destruct H as (-> & Hc & _); auto].
    destruct (index m "errorDescription"); destruct H as (-> & Hc & _); auto.
  - intros out w' call Hrun Hcall Hans.
    pose proof (SendImage_answered E _ _ _ _ _ _ _ _ Hrun Hcall Hans) as H.
    simpl in H. rewrite Hdec in H.
    destruct (float64_ok v); [|destruct H as (-> & Hc); auto].
    destruct (index m "errorDescription"); destruct H as (-> & Hc); auto.
Qed.

(** *** What a run changes in the task *)

(** What a run of SolveAndReturnSolution does to the heap: nothing but to
    the task it is called on, and of that task only UserAgent and RespKey
    can change; with the ways the run can end. *)
Lemma SolveAndReturnSolution_changes fuel h o w out w' :
  heap w !! h = Some o ->
  SolveAndReturnSolution E fuel h w = (out, w') ->
  exists o', heap w' = <[h := o']> (heap w) /\ same_caller_fields o o' /\
    (forall s e, out = Return (s, Some e) -> o' = o) /\
    (forall g, out = Return (g, None) ->
       exists call m sol,
         last (calls w') = Some call /\ answered call m /\ status_ready m = true /\
         index m "solution" = VMap sol /\
         index sol "gRecaptchaResponse" = VString g /\
         index sol "userAgent" = VString (UserAgent o') /\
         index sol "respKey" = VString (RespKey o')) /\
    (forall p, out = Panic p ->
       o' = o \/
       exists call m sol ua,
         last (calls w') = Some call /\ answered call m /\ status_ready m = true /\
         index m "solution" = VMap sol /\
         index sol "userAgent" = VString ua /\
         string_ok (index sol "respKey") = None /\
         p = TypeAssertionError (index sol "respKey") "string" /\
         o' = with_UserAgent ua o).
Proof.
  intros Hh Hrun.
  assert (Hsame : forall hp, hp = heap w ->
            hp = <[h := o]> (heap w)).
  { intros hp ->. symmetry. apply list_insert_id, Hh. }
  assert (Hquiet : forall req, quiet (after_call E (Client_ o) req w) w' ->
            heap w' = <[h := o]> (heap w)).
  { intros req (_ & _ & Hq). apply Hsame. rewrite Hq. apply after_call_heap. }
  assert (Hfail : (forall g, out <> Return (g, None)) ->
            heap w' = <[h := o]> (heap w) ->
            exists o', heap w' = <[h := o']> (heap w) /\ same_caller_fields o o' /\
              (forall s e, out = Return (s, Some e) -> o' = o) /\
              (forall g, out = Return (g, None) ->
                 exists call m sol,
                   last (calls w') = Some call /\ answered call m /\
                   status_ready m = true /\
                   index m "solution" = VMap sol /\
                   index sol "gRecaptchaResponse" = VString g /\
                   index sol "userAgent" = VString (UserAgent o') /\
                   index sol "respKey" = VString (RespKey o')) /\
              (forall p, out = Panic p ->
                 o' = o \/
                 exists call m sol ua,
                   last (calls w') = Some call /\ answered call m /\
                   status_ready m = true /\
                   index m "solution" = VMap sol /\
                   index sol "userAgent" = VString ua /\
                   string_ok (index sol "respKey") = None /\
                   p = TypeAssertionError (index sol "respKey") "string" /\
                   o' = with_UserAgent ua o)).
  { intros Hno H. exists o. split; [exact H|]. split; [apply same_caller_fields_refl|].
    split; [reflexivity|]. split; [intros g Hg; destruct (Hno g Hg)|].
    intros p _. left. reflexivity. }
  apply (SolveAndReturnSolution_cases E _ _ _ _ _ _ Hh) in Hrun
    as [(_ & (_ & _ & Hq) & err & _ & ->)
       |(req & _ & [(_ & Hq & err & _ & ->)|(m & _ & Hdec)])].
  - apply Hfail; [discriminate|apply Hsame, Hq].
  - apply Hfail; [discriminate|apply (Hquiet _ Hq)].
  - destruct (create_decision m) as [p|d| |taskID];
      try (destruct Hdec as [-> Hq]; apply Hfail; [discriminate|apply (Hquiet _ Hq)]).
    destruct Hdec as (w1 & (_ & _ & Hheap1) & Hpoll).
    rewrite after_call_heap in Hheap1.
    rewrite SolveAndReturnSolution_poll_eq in Hpoll.
    apply poll_until_polls in Hpoll as (ps & final & _ & Hc & _ & Hend);
      [|intros ? ? ? ? H; apply SolveAndReturnSolution_decode_trace in H as [? _];
        assumption].
    rewrite Hheap1 in Hend.
    destruct Hend as [(_ & Hheap & [->|(err & _ & ->)])
                     |[(cl & _ & _ & Hheap & err & _ & ->)
                      |(cl & m' & w2 & -> & Hans & Hready & Hheap2 & Hdec)]];
      try (apply Hfail; [discriminate|apply Hsame, Hheap]).
    assert (Hh2 : heap w2 !! h = Some o) by (rewrite Hheap2; exact Hh).
    assert (Hlast : last (calls w') = Some cl).
    { rewrite Hc, !app_assoc. apply last_snoc. }
    apply (SolveAndReturnSolution_decode_inv _ _ _ _ _ _ _ Hh2) in Hdec
      as (_ & _ & [(e & -> & _ & Hheap)
                  |(sol & g & Hsol & Hg & [(_ & -> & Hheap)
                                          |[(ua & Hua & Hrk & -> & Hheap)
                                           |(ua & rk & Hua & Hrk & -> & Hheap)]])]);
      rewrite Hheap2 in Hheap.
    + apply Hfail; [discriminate|apply Hsame, Hheap].
    + apply Hfail; [discriminate|apply Hsame, Hheap].
    + exists (with_UserAgent ua o). split; [exact Hheap|]. split; [repeat split|].
      split; [discriminate|]. split; [discriminate|].
      intros p [= <-]. right. exists cl, m', sol, ua. auto 10.
    + exists (with_RespKey rk (with_UserAgent ua o)).
      split; [exact Hheap|]. split; [repeat split|]. split; [discriminate|].
      split; [|discriminate].
      intros g' [= <-]. exists cl, m', sol. auto 10.
Qed.

(** A poll answered "ready" with a solution that has its
    gRecaptchaResponse and its userAgent, but whose respKey is not a
    string: the run panics, after UserAgent was overwritten. *)
Lemma ready_without_respKey_run fuel h o w out w' i call m sol g ua :
  heap w !! h = Some o ->
  SolveAndReturnSolution E fuel h w = (out, w') ->
  calls w' !! (length (calls w) + S i)%nat = Some call ->
  answered call m ->
  m !! "status" = Some (VString "ready") ->
  m !! "solution" = Some (VMap sol) ->
  sol !! "gRecaptchaResponse" = Some (VString g) ->
  sol !! "userAgent" = Some (VString ua) ->
  string_ok (index sol "respKey") = None ->
  out = Panic (TypeAssertionError (index sol "respKey") "string") /\
  heap w' = <[h := with_UserAgent ua o]> (heap w).
Proof.
  intros Hh Hrun Hcall Hans Hstatus Hsol Hg Hua Hrk.
  pose proof (status_ready_true _ Hstatus) as Hready.
  apply index_Some in Hsol. apply index_Some in Hg. apply index_Some in Hua.
  destruct (SolveAndReturnSolution_polls E _ _ _ _ _ _ _ _ Hh Hrun Hcall)
    as (c0 & ps & final & Htr & Hc & Hps & Hlen & Hend).
  rewrite Hc, lookup_after in Hcall.
  destruct (ready_is_last _ _ _ _ _ Hps Hlen Hcall Hans Hready) as [-> ->].
  destruct (loop_end_ready _ _ _ _ _ _ Hend Hans Hready) as (w1 & Hh1 & Hdec).
  rewrite <- Hh1 in Hh. pose proof Hdec as Hrun'.
  apply (SolveAndReturnSolution_decode_inv _ _ _ _ _ _ _ Hh) in Hdec
    as (_ & _ & [(e & -> & _)
                |(sol' & g' & Hsol' & Hg' &
                  [(Hno & _)|[(ua' & Hua' & Hno & -> & Hheap)
                             |(ua' & rk' & Hua' & Hrk' & _)]])]).
  - apply SolveAndReturnSolution_decode_error in Hrun'
      as (_ & [(Hno & _)|(sol' & Hsol' & Hno & _)]).
    + rewrite Hsol in Hno. discriminate Hno.
    + apply index_Some in Hsol'. rewrite Hsol in Hsol'. injection Hsol' as <-.
      rewrite Hg in Hno. discriminate Hno.
  - rewrite Hsol in Hsol'. injection Hsol' as <-. rewrite Hua in Hno. discriminate Hno.
  - rewrite Hsol in Hsol'. injection Hsol' as <-.
    rewrite Hua in Hua'. injection Hua' as <-.
    split; [reflexivity|]. rewrite Hheap, Hh1. reflexivity.
  - rewrite Hsol in Hsol'. injection Hsol' as <-. rewrite Hrk' in Hrk. discriminate Hrk.
Qed.

(** C8.  SolveAndReturnSolution changes nothing in the heap but the task
    it is called on, and of that task only UserAgent and RespKey: the
    fields set by the caller stay as they are.  When an error is returned
    the whole task is as before; when the token [g] is returned without
    error, the last call of the run was answered "ready" with a solution
    whose gRecaptchaResponse is [g] and whose userAgent and respKey are
    now the task's UserAgent and RespKey.  But a run can also fail by a
    panic, and then the task is as before in all cases but one: a poll
    answered "ready" with a gRecaptchaResponse and the userAgent [ua] but
    a respKey that is not a string ends the run in the panic of the
    respKey assertion, after UserAgent has been set to [ua]. *)
Theorem SolveAndReturnSolution_frame fuel h o w out w' :
  heap w !! h = Some o ->
  SolveAndReturnSolution E fuel h w = (out, w') ->
  exists o', heap w' = <[h := o']> (heap w) /\ same_caller_fields o o' /\
    (forall s e, out = Return (s, Some e) -> o' = o) /\
    (forall g, out = Return (g, None) ->
       exists call m sol,
         last (calls w') = Some call /\ answered call m /\ status_ready m = true /\
         index m "solution" = VMap sol /\
         index sol "gRecaptchaResponse" = VString g /\
         index sol "userAgent" = VString (UserAgent o') /\
         index sol "respKey" = VString (RespKey o')) /\
    (forall p, out = Panic p ->
       o' = o \/
       exists call m sol ua,
         last (calls w') = Some call /\ answered call m /\ status_ready m = true /\
         index m "solution" = VMap sol /\
         index sol "userAgent" = VString ua /\
         string_ok (index sol "respKey") = None /\
         p = TypeAssertionError (index sol "respKey") "string" /\
         o' = with_UserAgent ua o) /\
    (forall i call m sol g ua,
       calls w' !! (length (calls w) + S i)%nat = Some call ->
       answered call m ->
       m !! "status" = Some (VString "ready") ->
       m !! "solution" = Some (VMap sol) ->
       sol !! "gRecaptchaResponse" = Some (VString g) ->
       sol !! "userAgent" = Some (VString ua) ->
       string_ok (index sol "respKey") = None ->
       out = Panic (TypeAssertionError (index sol "respKey") "string") /\
       o' = with_UserAgent ua o).
Proof.
  intros Hh Hrun.
  destruct (SolveAndReturnSolution_changes _ _ _ _ _ _ Hh Hrun)
    as (o' & Hheap & Hsame & Herr & Hok & Hpanic).
  exists o'. do 5 (split; [assumption|]).
  intros i call m sol g ua Hcall Hans Hst Hsol Hg Hua Hrk.
  destruct (ready_without_respKey_run _ _ _ _ _ _ _ _ _ _ _ _
              Hh Hrun Hcall Hans Hst Hsol Hg Hua Hrk) as [-> Hheap'].
  split; [reflexivity|].
  rewrite Hheap in Hheap'.
  apply (f_equal (fun l => l !! h)) in Hheap'.
  apply lookup_lt_Some in Hh.
  rewrite !list_lookup_insert_eq in Hheap' by exact Hh.
  congruence.
Qed.

End Assertions.

(** ** Concrete runs *)

(** C2.  The unchecked type assertions panic.  A create response with a
    non-zero errorId and no errorDescription, or with an errorId that is
    not a number, makes SendImage and SolveAndReturnSolution panic; so
    does a ready HCaptcha solution without userAgent, and one without
    respKey, the latter after UserAgent has been overwritten. *)
Theorem unchecked_assertions_panic :
  fst (SendImage (mock (fun _ => answers no_description_response)) 5 client image initial)
    = Panic (TypeAssertionError VNil "string")
  /\ fst (SendImage (mock (fun _ => answers text_errorId_response)) 5 client image initial)
    = Panic (TypeAssertionError (VString "1") "float64")
  /\ fst (SolveAndReturnSolution (mock (fun _ => answers no_description_response))
            5 0 task_world)
    = Panic (TypeAssertionError VNil "string")
  /\ fst (SolveAndReturnSolution (mock (script_then ready_without_userAgent)) 5 0 task_world)
    = Panic (TypeAssertionError VNil "string")
  /\ (let r := SolveAndReturnSolution (mock (script_then ready_without_respKey))
                 5 0 task_world in
      fst r = Panic (TypeAssertionError VNil "string") /\
      UserAgent <$> heap task_world !! 0%nat = Some "" /\
      UserAgent <$> heap (snd r) !! 0%nat = Some "UA").
Proof. vm_compute. repeat split. Qed.

(** C7.  A poll of SolveAndReturnSolution that is answered "ready" with a
    solution that has its gRecaptchaResponse but no userAgent: it is the
    second and last call of the run, so nothing is polled past readiness,
    but the run leaves by a panic, with neither the solution nor a
    decoding error. *)
Theorem ready_without_userAgent_ends_in_panic :
  let r := SolveAndReturnSolution (mock (script_then ready_without_userAgent))
             5 0 task_world in
  (exists call, calls (snd r) !! 1%nat = Some call /\
     answered call ready_without_userAgent) /\
  status_ready ready_without_userAgent = true /\
  length (calls (snd r)) = 2%nat /\
  fst r = Panic (TypeAssertionError VNil "string").
Proof.
  split; [|vm_compute; repeat split].
  eexists. split; [vm_compute; reflexivity|].
  eexists. split; [reflexivity|]. split; reflexivity.
Qed.

(** C5, the sentence as written fails: with a create call of 59.5 s the
    first sleep starts at 59.6 s and runs to its end, and the run ends at
    61.6 s, after the deadline at 60 s. *)
Lemma sleep_outlasts_deadline :
  ~ returns_by_deadline (mock script_slow) 5 client image initial.
Proof.
  intros H.
  specialize (H _ _ (surjective_pairing (SendImage (mock script_slow) 5 client image initial))).
  vm_compute in H. apply H. reflexivity.
Qed.


(** C9, the sentence as written fails: a body that does not marshal, here
    one with a NaN in the enterprise payload, is never handed to the
    client. *)
Lemma makeRequest_unsendable_body :
  ~ exactly_one_round_trip (mock script_AB12) client {| Deadline := Some defaultTimeout |}
      "/createTask" (SolveAndReturnSolution_body nan_task) initial.
Proof. unfold exactly_one_round_trip. vm_compute. discriminate. Qed.

(** *** The theorems at work on concrete runs *)

Lemma SendImage_processing_then_ready_witness :
  let r := SendImage (mock script_AB12) 5 client image initial in
  fst r = Return ("AB12", None) /\
  (exists c0 c1 c2,
     trace (snd r) = [Called c0; Called c1; Slept 2000000000; Called c2]) /\
  now (snd r) = 2300000000 /\
  slept (snd r) = [2000000000].
Proof.
  intros r.
  edestruct (SendImage_processing_then_ready (mock script_AB12) 5 client image initial
               (fst r) (snd r)) as (H1 & (c0 & H2 & Hnow) & H3).
  - apply surjective_pairing.
  - vm_compute. reflexivity.
  - eexists. split; [reflexivity|]. split; [reflexivity|]. reflexivity.
  - reflexivity.
  - vm_compute. reflexivity.
  - eexists. split; [reflexivity|]. split; [reflexivity|]. reflexivity.
  - reflexivity.
  - reflexivity.
  - reflexivity.
  - split; [exact H1|]. split; [eauto|]. split; [|exact H3]. exact Hnow.
Defined.

Lemma nonzero_errorId_is_an_error_or_a_panic_witness :
  fst (SendImage (mock (fun _ => answers no_description_response)) 5 client image initial)
    = Panic (TypeAssertionError VNil "string")
  /\
  fst (SolveAndReturnSolution (mock (fun _ => answers no_description_response))
         5 0 task_world)
    = Panic (TypeAssertionError VNil "string")
  /\
  fst (SendImage (mock (fun _ => answers text_errorId_response)) 5 client image initial)
    = Panic (TypeAssertionError (VString "1") "float64")
  /\
  (exists e,
     fst (SendImage (mock (fun _ => answers api_error_response)) 5 client image initial)
       = Return ("", Some e) /\
     Error e = "failed to send image: ERROR_KEY_DOES_NOT_EXIST")
  /\
  (exists e,
     fst (SolveAndReturnSolution (mock (fun _ => answers api_error_response))
            5 0 task_world)
       = Return ("", Some e) /\
     Error e = "ERROR_KEY_DOES_NOT_EXIST").
Proof.
  assert (Hnz : forall f, VFloat64 1 = VFloat64 f -> PrimFloat.eqb f 0 = false).
  { intros f [= <-]. reflexivity. }
  destruct (nonzero_errorId_is_an_error_or_a_panic
              (mock (fun _ => answers no_description_response)) 5 client
              {| Deadline := Some 60000000000 |} image 0%nat task task_world
              no_description_response (VFloat64 1) eq_refl Hnz) as (_ & H2 & _).
  destruct (nonzero_errorId_is_an_error_or_a_panic
              (mock (fun _ => answers no_description_response)) 5 client
              {| Deadline := Some 60000000000 |} image 0%nat task initial
              no_description_response (VFloat64 1) eq_refl Hnz) as (_ & _ & H3).
  destruct (nonzero_errorId_is_an_error_or_a_panic
              (mock (fun _ => answers text_errorId_response)) 5 client
              {| Deadline := Some 60000000000 |} image 0%nat task initial
              text_errorId_response (VString "1") eq_refl) as (_ & _ & H3').
  { intros f [=]. }
  destruct (nonzero_errorId_is_an_error_or_a_panic
              (mock (fun _ => answers api_error_response)) 5 client
              {| Deadline := Some 60000000000 |} image 0%nat task task_world
              api_error_response (VFloat64 1) eq_refl Hnz) as (_ & H2a & _).
  destruct (nonzero_errorId_is_an_error_or_a_panic
              (mock (fun _ => answers api_error_response)) 5 client
              {| Deadline := Some 60000000000 |} image 0%nat task initial
              api_error_response (VFloat64 1) eq_refl Hnz) as (_ & _ & H3a).
  split; [|split; [|split; [|split]]].
  - edestruct H3 as [_ H].
    + apply surjective_pairing.
    + vm_compute. reflexivity.
    + eexists. split; [reflexivity|]. split; reflexivity.
    + exact H.
  - edestruct H2 as [_ H].
    + reflexivity.
    + apply surjective_pairing.
    + vm_compute. reflexivity.
    + eexists. split; [reflexivity|]. split; reflexivity.
    + exact H.
  - edestruct H3' as [_ H].
    + apply surjective_pairing.
    + vm_compute. reflexivity.
    + eexists. split; [reflexivity|]. split; reflexivity.
    + exact H.
  - edestruct H3a as [_ H].
    + apply surjective_pairing.
    + vm_compute. reflexivity.
    + eexists. split; [reflexivity|]. split; reflexivity.
    + eexists. split; [exact H|]. reflexivity.
  - edestruct H2a as [_ H].
    + reflexivity.
    + apply surjective_pairing.
    + vm_compute. reflexivity.
    + eexists. split; [reflexivity|]. split; reflexivity.
    + eexists. split; [exact H|]. reflexivity.
Defined.

Lemma missing_taskId_is_a_format_error_witness :
  (exists err,
     fst (SendImage (mock (fun _ => answers no_taskId_response)) 5 client image task_world)
     = Return ("", Some err) /\ ResponseFormatError err /\
     length (calls (snd (SendImage (mock (fun _ => answers no_taskId_response)) 5 client
                           image task_world))) = 1%nat)
  /\
  (exists err,
     fst (SolveAndReturnSolution (mock (fun _ => answers no_taskId_response)) 5 0 task_world)
     = Return ("", Some err) /\ ResponseFormatError err /\
     length (calls (snd (SolveAndReturnSolution (mock (fun _ => answers no_taskId_response))
                           5 0 task_world))) = 1%nat).
Proof.
  edestruct (missing_taskId_is_a_format_error (mock (fun _ => answers no_taskId_response))
               5 client image 0%nat task task_world no_taskId_response) as (H1 & H2).
  - right. exists 0%float. split; reflexivity.
  - intros f H. vm_compute in H. discriminate.
  - split.
    + edestruct H1 as (err & He & Hf & _ & Hc).
      * apply surjective_pairing.
      * vm_compute. reflexivity.
      * eexists. split; [reflexivity|]. split; reflexivity.
      * exists err. split; [exact He|]. split; [exact Hf|]. rewrite Hc. reflexivity.
    + edestruct H2 as (err & He & Hf & _ & Hc).
      * reflexivity.
      * apply surjective_pairing.
      * vm_compute. reflexivity.
      * eexists. split; [reflexivity|]. split; reflexivity.
      * exists err. split; [exact He|]. split; [exact Hf|]. rewrite Hc. reflexivity.
Defined.

Lemma sleep_is_never_cut_short_witness :
  let r := SendImage (mock script_slow) 5 client image initial in
  now (snd r) = 61600000000 /\
  slept (snd r) = [2000000000] /\
  exists first ps final,
    trace (snd r) = trace initial ++ map Called first ++ awaited ps ++ map Called final /\
    (length first <= 1)%nat /\ (length final <= 1)%nat /\
    Forall (fun call => exists m, answered call m) first /\
    Forall pending ps /\
    slept (snd r) = slept initial ++ repeat 2000000000 (length ps) /\
    let T := now initial
             + duration (mock script_slow) (length (calls initial))
                 (map Called first ++ awaited ps) in
    T - 2000000000 < now initial + 60000000000 /\
    T <= now (snd r) <= Z.max T (now initial + 60000000000) /\
    (now initial + 60000000000 < T -> now (snd r) = T) /\
    (ps = [] -> now (snd r) <= now initial + 60000000000).
Proof.
  intros r.
  split; [vm_compute; reflexivity|]. split; [vm_compute; reflexivity|].
  exact (sleep_is_never_cut_short (mock script_slow) 5 client image 0%nat initial
           (fst r) (snd r) (or_introl (surjective_pairing r))).
Defined.


Lemma never_polls_past_readiness_witness :
  (let r := SendImage (mock script_AB12) 5 client image task_world in
   length (calls (snd r)) = 3%nat /\
   ((exists sol text, index ready_AB12 "solution" = VMap sol /\
       index sol "text" = VString text /\ fst r = Return (text, None)) \/
    (exists e, fst r = Return ("", Some e) /\ ResponseFormatError e)))
  /\
  (let r := SolveAndReturnSolution (mock (script_then ready_hcaptcha)) 5 0 task_world in
   length (calls (snd r)) = 2%nat).
Proof.
  split.
  - intros r.
    edestruct (never_polls_past_readiness (mock script_AB12) 5 client image 0%nat task
                 task_world (fst r) (snd r) 1%nat) with (m := ready_AB12) as (H & _).
    + vm_compute. reflexivity.
    + eexists. split; [reflexivity|]. split; reflexivity.
    + reflexivity.
    + apply H, surjective_pairing.
  - intros r.
    edestruct (never_polls_past_readiness (mock (script_then ready_hcaptcha)) 5 client
                 image 0%nat task
                 task_world (fst r) (snd r) 0%nat) with (m := ready_hcaptcha) as (_ & H).
    + vm_compute. reflexivity.
    + eexists. split; [reflexivity|]. split; reflexivity.
    + reflexivity.
    + apply H; [reflexivity|apply surjective_pairing].
Defined.

Lemma SolveAndReturnSolution_frame_witness :
  (let r := SolveAndReturnSolution (mock (script_then ready_hcaptcha)) 5 0 task_world in
   fst r = Return ("tok", None) /\
   exists o o', heap task_world = [o] /\ heap (snd r) = [o'] /\
     UserAgent o' = "UA" /\ RespKey o' = "K" /\ same_caller_fields o o')
  /\
  (let r := SolveAndReturnSolution (mock (script_then ready_without_respKey)) 5 0
              task_world in
   fst r = Panic (TypeAssertionError VNil "string") /\
   exists o o', heap task_world = [o] /\ heap (snd r) = [o'] /\
     UserAgent o = "" /\ UserAgent o' = "UA" /\ o' = with_UserAgent "UA" o).
Proof.
  split.
  - intros r.
    edestruct (SolveAndReturnSolution_frame (mock (script_then ready_hcaptcha)) 5 0
                 task task_world (fst r) (snd r)) as (o' & Hheap & Hsame & _).
    + reflexivity.
    + apply surjective_pairing.
    + split; [reflexivity|].
      eexists _, o'. split; [reflexivity|]. split; [exact Hheap|].
      vm_compute in Hheap. injection Hheap as <-.
      split; [reflexivity|]. split; [reflexivity|]. exact Hsame.
  - intros r.
    edestruct (SolveAndReturnSolution_frame (mock (script_then ready_without_respKey))
                 5 0 task task_world (fst r) (snd r))
      as (o' & Hheap & _ & _ & _ & _ & Hpanic).
    + reflexivity.
    + apply surjective_pairing.
    + edestruct (Hpanic 0%nat) with (m := ready_without_respKey) (ua := "UA")
        as [Hout Ho'].
      * vm_compute. reflexivity.
      * eexists. split; [reflexivity|]. split; reflexivity.
      * reflexivity.
      * reflexivity.
      * reflexivity.
      * reflexivity.
      * reflexivity.
      * split; [exact Hout|].
        exists task, o'. split; [reflexivity|]. split; [exact Hheap|].
        split; [reflexivity|]. split; [rewrite Ho'; reflexivity|exact Ho'].
Defined.

Lemma makeRequest_logs_length_only_witness :
  let E := mock script_AB12 in
  let ctx := {| Deadline := Some defaultTimeout |} in
  (exists rest,
     log (snd (makeRequest E client ctx "/createTask"
                 (createTaskImage_body (NewClient "key1" None) image) initial))
     = Printf "AntiCaptcha: " "Sending request to %s with body: %v\n"
         [AString "https://api.anti-captcha.com/createTask"; AInt 72] :: rest)
  /\
  log (snd (makeRequest E client ctx "/createTask"
              (createTaskImage_body (NewClient "key1" None) image) initial))
  = log (snd (makeRequest E client ctx "/createTask"
                (createTaskImage_body (NewClient "key2" None) image) initial)).
Proof.
  intros E ctx.
  destruct (makeRequest_logs_length_only E client ctx "/createTask" _ eq_refl) as [HA HB].
  split.
  - edestruct (HA (createTaskImage_body (NewClient "key1" None) image)) as (rest & Hlog).
    + vm_compute. reflexivity.
    + vm_compute. reflexivity.
    + exists rest. exact Hlog.
  - eapply HB.
    + vm_compute. reflexivity.
    + vm_compute. reflexivity.
    + reflexivity.
    + intros n req1 req2 _ _. reflexivity.
Defined.

(** *** The further theorems at work on concrete runs *)

Lemma SendImage_requests_witness :
  let E := mock script_AB12 in
  let r := SendImage E 5 client image initial in
  let ctx := {| Deadline := Some 60000000000 |} in
  exists c0 polls, calls (snd r) = c0 :: polls /\ length polls = 2%nat /\
    is_request E ctx "/createTask"
      (VMap (<["clientKey" := VString "key"]>
            (<["task" := VMap (<["type" := VString "ImageToTextTask"]>
                              (<["body" := VString "aGVsbG8="]> ∅))]> ∅)))
      (call_req c0) /\
    exists m taskID, answered c0 m /\ m !! "taskId" = Some (VFloat64 taskID) /\
      Forall (fun p => is_request E ctx "/getTaskResult"
                         (VMap (<["clientKey" := VString "key"]>
                               (<["taskId" := VFloat64 taskID]> ∅)))
                         (call_req p)) polls.
Proof.
  intros E r ctx.
  assert (Hlen : length (calls (snd r)) = 3%nat) by (vm_compute; reflexivity).
  destruct (SendImage_requests E 5 client image initial (fst r) (snd r)
              (surjective_pairing r))
    as [Hc|(c0 & polls & Hc & Hreq & Hpolls)].
  - rewrite Hc in Hlen. discriminate Hlen.
  - rewrite Hc in Hlen. simpl in Hlen.
    destruct Hpolls as [->|Hpolls]; [discriminate Hlen|].
    exists c0, polls. split; [exact Hc|]. split; [lia|]. split; [exact Hreq|exact Hpolls].
Defined.

Lemma SolveAndReturnSolution_requests_witness :
  let E := mock (script_then ready_hcaptcha) in
  let r := SolveAndReturnSolution E 5 0 task_world in
  let ctx := {| Deadline := Some 60000000000 |} in
  exists c0 polls, calls (snd r) = c0 :: polls /\ length polls = 1%nat /\
    is_request E ctx "/createTask"
      (VMap (<["clientKey" := VString "key"]>
            (<["task" := VMap (<["type" := VString "HCaptchaTaskProxyless"]>
                              (<["websiteURL" := VString "https://website.com"]>
                              (<["websiteKey" := VString "SITE_KEY"]>
                              (<["isInvisible" := VBool true]>
                              (<["isEnterprise" := VBool false]>
                              (<["enterprisePayload" := VMap ∅]> ∅))))))]>
            (<["softId" := VInt 0]> ∅))))
      (call_req c0) /\
    exists m taskID, answered c0 m /\ m !! "taskId" = Some (VFloat64 taskID) /\
      Forall (fun p => is_request E ctx "/getTaskResult"
                         (VMap (<["clientKey" := VString "key"]>
                               (<["taskId" := VFloat64 taskID]> ∅)))
                         (call_req p)) polls.
Proof.
  intros E r ctx.
  assert (Hlen : length (calls (snd r)) = 2%nat) by (vm_compute; reflexivity).
  destruct (SolveAndReturnSolution_requests E 5 0 task task_world (fst r) (snd r)
              eq_refl (surjective_pairing r))
    as [Hc|(c0 & polls & Hc & Hreq & Hpolls)].
  - rewrite Hc in Hlen. discriminate Hlen.
  - rewrite Hc in Hlen. simpl in Hlen.
    destruct Hpolls as [->|Hpolls]; [discriminate Hlen|].
    exists c0, polls. split; [exact Hc|]. split; [lia|]. split; [exact Hreq|exact Hpolls].
Defined.

Lemma operations_end_witness :
  let r := SendImage (mock (script_then processing)) 40 client image initial in
  (length (slept (snd r)) <= 30)%nat /\ (length (calls (snd r)) <= 32)%nat /\
  fst r <> OutOfFuel.
Proof.
  intros r.
  destruct (operations_end (mock (script_then processing)) 40 client image 0 initial
              (fst r) (snd r)) as [H _].
  destruct (H (surjective_pairing r)) as (Hs & Hc & Hf).
  split; [exact Hs|]. split; [exact Hc|]. apply Hf. lia.
Defined.

Lemma pending_poll_is_followed_by_a_sleep_witness :
  let r := SendImage (mock (script_then api_error_response)) 40 client image initial in
  exists call c0 ps final,
    calls (snd r) !! 1%nat = Some call /\ answered call api_error_response /\
    trace (snd r) = Called c0 :: awaited ps ++ map Called final /\
    ps !! 0%nat = Some call /\
    (fst r = OutOfFuel \/ exists next, final = [next]).
Proof.
  intros r.
  edestruct (pending_poll_is_followed_by_a_sleep (mock (script_then api_error_response))
               40 client image 0%nat task initial (fst r) (snd r) 0%nat)
    with (m := api_error_response) as [H _].
  - vm_compute. reflexivity.
  - eexists. split; [reflexivity|]. split; reflexivity.
  - reflexivity.
  - destruct (H (surjective_pairing r)) as (c0 & ps & final & Htr & Hps & Hend).
    eexists _, c0, ps, final. split; [vm_compute; reflexivity|].
    split; [eexists; split; [reflexivity|]; split; reflexivity|].
    split; [exact Htr|]. split; [exact Hps|exact Hend].
Defined.

Lemma SendImage_success_witness :
  let r := SendImage (mock script_AB12) 5 client image initial in
  fst r = Return ("AB12", None) /\
  exists c0 m0 taskID ps last m sol,
    trace (snd r) = trace initial ++ Called c0 :: awaited ps ++ [Called last] /\
    answered c0 m0 /\ no_api_error m0 /\ m0 !! "taskId" = Some (VFloat64 taskID) /\
    Forall pending ps /\
    answered last m /\ m !! "status" = Some (VString "ready") /\
    m !! "solution" = Some (VMap sol) /\ sol !! "text" = Some (VString "AB12").
Proof.
  intros r.
  assert (Hfst : fst r = Return ("AB12", None)) by (vm_compute; reflexivity).
  assert (Hrun : r = (Return ("AB12", None), snd r)).
  { rewrite <- Hfst. apply surjective_pairing. }
  split; [exact Hfst|].
  exact (SendImage_success (mock script_AB12) 5 client image initial "AB12" (snd r) Hrun).
Defined.

Lemma SendImage_errors_witness :
  let r := SendImage (mock (fun _ => answers api_error_response)) 5 client image initial in
  let e := fmt_Errorf "failed to send image: %w" (errors_New "ERROR_KEY_DOES_NOT_EXIST") in
  fst r = Return ("", Some e) /\
  ((exists e0, e = fmt_Errorf "failed to send image: %w" e0 /\
      ((calls (snd r) = calls initial /\ create_error None e0) \/
       (exists c0, calls (snd r) = calls initial ++ [c0] /\
          ((create_error None e0 /\ forall m, ~ answered c0 m) \/
           (exists m, answered c0 m /\ create_error (Some m) e0)))))
   \/
   (exists t, TransportError t /\
      e = fmt_Errorf "failed to get task result: %w"
            (fmt_Errorf "failed to get task result: %w" t))
   \/
   (exists cl m, last (calls (snd r)) = Some cl /\ answered cl m /\
      m !! "status" = Some (VString "ready") /\
      solution_error "text" "text not found in solution" m e)).
Proof.
  intros r e.
  assert (Hfst : fst r = Return ("", Some e)) by (vm_compute; reflexivity).
  assert (Hrun : r = (Return ("", Some e), snd r)).
  { rewrite <- Hfst. apply surjective_pairing. }
  split; [exact Hfst|].
  destruct (SendImage_errors (mock (fun _ => answers api_error_response)) 5 client image
              initial "" e (snd r) Hrun) as [_ H].
  exact H.
Defined.

Lemma SolveAndReturnSolution_errors_witness :
  let r := SolveAndReturnSolution (mock (fun _ => answers no_taskId_response)) 5 0
             task_world in
  let e := errors_New "failed to retrieve taskId from response" in
  fst r = Return ("", Some e) /\
  ((calls (snd r) = calls task_world /\ create_error None e) \/
   (exists c0, calls (snd r) = calls task_world ++ [c0] /\
      ((create_error None e /\ forall m, ~ answered c0 m) \/
       (exists m, answered c0 m /\ create_error (Some m) e)))
   \/
   (exists t, TransportError t /\
      e = fmt_Errorf "failed to get task result: %w"
            (fmt_Errorf "failed to get task result: %w" t))
   \/
   (exists cl m, last (calls (snd r)) = Some cl /\ answered cl m /\
      m !! "status" = Some (VString "ready") /\
      solution_error "gRecaptchaResponse" "gRecaptchaResponse not found in solution" m e)).
Proof.
  intros r e.
  assert (Hfst : fst r = Return ("", Some e)) by (vm_compute; reflexivity).
  assert (Hrun : r = (Return ("", Some e), snd r)).
  { rewrite <- Hfst. apply surjective_pairing. }
  split; [exact Hfst|].
  destruct (SolveAndReturnSolution_errors (mock (fun _ => answers no_taskId_response)) 5 0
              task task_world "" e (snd r) eq_refl Hrun) as [_ H].
  exact H.
Defined.

Lemma panics_are_failed_assertions_witness :
  let r := SendImage (mock (fun _ => answers no_description_response)) 5 client image
             initial in
  let p := TypeAssertionError VNil "string" in
  fst r = Panic p /\
  exists c0 m, calls (snd r) = calls initial ++ [c0] /\ answered c0 m /\
    create_assertion_fails m p.
Proof.
  intros r p.
  assert (Hfst : fst r = Panic p) by (vm_compute; reflexivity).
  assert (Hrun : r = (Panic p, snd r)).
  { rewrite <- Hfst. apply surjective_pairing. }
  split; [exact Hfst|].
  destruct (panics_are_failed_assertions (mock (fun _ => answers no_description_response))
              5 client image 0 initial p (snd r)) as [H _].
  exact (H Hrun).
Defined.

Lemma setters_last_write_wins_witness :
  call_setters 0 settings task_world
    = (Return tt, set_heap [configured task settings] task_world) /\
  WebsiteURL (configured task settings) = "https://website.com" /\
  WebsiteKey (configured task settings) = "SITE_KEY" /\
  IsEnterprise (configured task settings) = false /\
  SoftID (configured task settings) = 3.
Proof.
  split; [exact (setters_last_write_wins 0 settings task_world)|].
  repeat split.
Defined.

Lemma configured_task_is_sent_witness :
  let E := mock (script_then ready_hcaptcha) in
  let l := settings ++ [OfEnterprisePayload None] in
  let o := {| Client_ := client; WebsiteURL := "https://website.com";
              WebsiteKey := "SITE_KEY"; IsInvisible := true; IsEnterprise := false;
              EnterprisePayload := None; SoftID := 3; UserAgent := "";
              RespKey := "" |} in
  let w0 := set_heap [o] initial in
  (h ← NewHCaptchaProxyless client; call_setters h l;; mret h) initial
    = (Return 0%nat, w0) /\
  exists c0 polls, calls (snd (SolveAndReturnSolution E 5 0 w0)) = c0 :: polls /\
    is_request E {| Deadline := Some 60000000000 |} "/createTask"
      (VMap (<["clientKey" := VString "key"]>
            (<["task" := VMap (<["type" := VString "HCaptchaTaskProxyless"]>
                              (<["websiteURL" := VString "https://website.com"]>
                              (<["websiteKey" := VString "SITE_KEY"]>
                              (<["isInvisible" := VBool true]>
                              (<["isEnterprise" := VBool false]>
                              (<["enterprisePayload" := VNil]> ∅))))))]>
            (<["softId" := VInt 3]> ∅))))
      (call_req c0).
Proof.
  intros E l o w0. set (r := SolveAndReturnSolution E 5 0 w0).
  destruct (configured_task_is_sent E 5 client l initial (fst r) (snd r))
    as [Hset Hsent].
  split; [exact Hset|].
  assert (Hlen : length (calls (snd r)) = 2%nat) by (vm_compute; reflexivity).
  destruct (Hsent (surjective_pairing r)) as [Hc|(c0 & polls & Hc & Hreq)].
  - rewrite Hc in Hlen. discriminate Hlen.
  - exists c0, polls. split; [exact Hc|exact Hreq].
Defined.

Lemma runs_log_through_the_client_witness :
  let r := SendImage (mock script_AB12) 5 client image initial in
  exists lines, log (snd r) = log initial ++ lines /\
    Forall (written_by (NewClient "key" None)) lines.
Proof.
  intros r.
  destruct (runs_log_through_the_client (mock script_AB12) 5 client image 0 task initial
              (fst r) (snd r)) as [H _].
  exact (H (surjective_pairing r)).
Defined.

Lemma returned_errors_are_logged_witness :
  let r := SendImage (mock (fun _ => answers api_error_response)) 5 client image initial in
  let e := fmt_Errorf "failed to send image: %w" (errors_New "ERROR_KEY_DOES_NOT_EXIST") in
  fst r = Return ("", Some e) /\
  exists line, last (log (snd r)) = Some line /\ names line e.
Proof.
  intros r e.
  assert (Hfst : fst r = Return ("", Some e)) by (vm_compute; reflexivity).
  assert (Hrun : r = (Return ("", Some e), snd r)).
  { rewrite <- Hfst. apply surjective_pairing. }
  split; [exact Hfst|].
  destruct (returned_errors_are_logged (mock (fun _ => answers api_error_response))
              5 client image 0 task initial "" e (snd r)) as [H _].
  exact (H Hrun).
Defined.

Lemma close_error_is_logged_not_returned_witness :
  let r := makeRequest (mock (fun _ => closing_fails)) client
             {| Deadline := Some defaultTimeout |} "/createTask"
             (createTaskImage_body client image) initial in
  last (log (snd r))
    = Some (Printf "AntiCaptcha: " "Error closing response body: %v\n"
              [AError (library_error "close failed")]) /\
  fst r = Return (created, None).
Proof.
  intros r.
  edestruct (close_error_is_logged_not_returned (mock (fun _ => closing_fails)) client
               {| Deadline := Some defaultTimeout |} "/createTask"
               (createTaskImage_body client image) initial)
    as (Hlog & res & Hres & Hdel).
  - vm_compute. reflexivity.
  - vm_compute. reflexivity.
  - reflexivity.
  - split; [exact Hlog|].
    inversion Hdel as [ |? Hst|? ? Hst Hdec|? m Hst Hdec]; subst res.
    + discriminate Hst.
    + discriminate Hdec.
    + injection Hdec as <-. exact Hres.
Defined.

Lemma polls_and_sleeps_alternate_witness :
  let r := SendImage (mock script_AB12) 5 client image initial in
  exists c0 ps final,
    trace (snd r) = trace initial ++ Called c0 :: awaited ps ++ map Called final /\
    (length final <= 1)%nat /\
    Forall pending ps /\ Forall (fun cl => ~ pending cl) final.
Proof.
  intros r.
  assert (Hlen : length (trace (snd r)) = 4%nat) by (vm_compute; reflexivity).
  destruct (polls_and_sleeps_alternate (mock script_AB12) 5 client image 0 initial
              (fst r) (snd r)) as [H _].
  destruct (H (surjective_pairing r)) as [Htr|Hshape].
  - rewrite Htr in Hlen. discriminate Hlen.
  - exact Hshape.
Defined.

Lemma NewClient_timeout_never_comes_first_witness :
  let r := SendImage (mock (script_then processing)) 40 (NewClient "key" None) image
             initial in
  exists new, calls (snd r) = calls initial ++ new /\ Forall fails_by_deadline_only new.
Proof.
  intros r.
  destruct (NewClient_timeout_never_comes_first (mock (script_then processing))
              "key" None 40 image 0 task initial (fst r) (snd r)) as [H _].
  - intros n req. destruct n; eexists; reflexivity.
  - exact (H (surjective_pairing r)).
Defined.

Lemma ready_answer_is_returned_witness :
  let r := SolveAndReturnSolution (mock (script_then ready_hcaptcha)) 5 0 task_world in
  fst r = Return ("tok", None) /\
  heap (snd r) = [with_RespKey "K" (with_UserAgent "UA" task)] /\
  length (calls (snd r)) = 2%nat /\ slept (snd r) = [].
Proof.
  intros r.
  edestruct (ready_answer_is_returned (mock (script_then ready_hcaptcha)) 5 client image
               0%nat task task_world (fst r) (snd r) 0%nat)
    with (m := ready_hcaptcha) as [_ H].
  - vm_compute. reflexivity.
  - eexists. split; [reflexivity|]. split; reflexivity.
  - reflexivity.
  - reflexivity.
  - exact (H "tok" "UA" "K" eq_refl eq_refl eq_refl eq_refl (surjective_pairing r)).
Defined.
